(** * Connectome Mapper 3: tracking stage of the diffusion pipeline

    A shallow embedding of [cmp/stages/diffusion/tracking.py]:
    - the traits configuration objects and their change handlers
      ([MRtrix_tracking_config], [Dipy_tracking_config]);
    - the nipype workflows built by [create_dipy_tracking_flow] and
      [create_mrtrix_tracking_flow];
    - the seed interfaces [make_seeds] and [make_mrtrix_seeds];
    - the streamline interface [match_orientations].

    Conventions.  Python floats are modelled by rationals ([Q]): the code
    only compares them with literal constants, subtracts, multiplies by a
    sign and halves.  Python [str] is [string]; a numpy array is a shape
    with its elements, flat and row-major: integers of a fixed width,
    which wrap around, or floats.  [int] is the 64-bit integer of an LP64
    platform. *)

From Stdlib Require Import ZArith QArith Qcanon Qabs Lia Ascii String List
  Sorted Bool.
From stdpp Require Import gmap strings list pretty.

Local Open Scope string_scope.
Local Open Scope Z_scope.

(* ===================================================================== *)
(** ** Traits objects

    A [HasTraits] attribute write stores the new value and, when the new
    value differs from the old one, calls the static handler
    [_<name>_changed] of the class.  A handler may itself write traits of
    the same object, which notifies again; the nesting is bounded by
    [fuel]. *)
(* ===================================================================== *)

Module MRtrix_tracking_config.

Record t := mk {
  tracking_mode : string;
  SD : bool;
  desired_number_of_tracks : Z;
  curvature : Q;
  step_size : Q;
  min_length : Q;
  max_length : Q;
  angle : Q;
  cutoff_value : Q;
  use_act : bool;
  seed_from_gmwmi : bool;
  crop_at_gmwmi : bool;
  backtrack : bool
}.

(** The class-level trait defaults ([Str] is [''], [Bool] is [False]). *)
Definition default : t := {|
  tracking_mode := "";
  SD := false;
  desired_number_of_tracks := 1000000;
  curvature := 2%Q;
  step_size := (1 # 2)%Q;
  min_length := 5%Q;
  max_length := 500%Q;
  angle := 45%Q;
  cutoff_value := 1%Q;
  use_act := true;
  seed_from_gmwmi := false;
  crop_at_gmwmi := true;
  backtrack := true
|}.

(** Raw stores into the instance dictionary (no notification). *)
Definition store_tracking_mode (self : t) (v : string) : t :=
  mk v (SD self) (desired_number_of_tracks self) (curvature self)
     (step_size self) (min_length self) (max_length self) (angle self)
     (cutoff_value self) (use_act self) (seed_from_gmwmi self)
     (crop_at_gmwmi self) (backtrack self).
Definition store_SD (self : t) (v : bool) : t :=
  mk (tracking_mode self) v (desired_number_of_tracks self) (curvature self)
     (step_size self) (min_length self) (max_length self) (angle self)
     (cutoff_value self) (use_act self) (seed_from_gmwmi self)
     (crop_at_gmwmi self) (backtrack self).
Definition store_desired_number_of_tracks (self : t) (v : Z) : t :=
  mk (tracking_mode self) (SD self) v (curvature self)
     (step_size self) (min_length self) (max_length self) (angle self)
     (cutoff_value self) (use_act self) (seed_from_gmwmi self)
     (crop_at_gmwmi self) (backtrack self).
Definition store_curvature (self : t) (v : Q) : t :=
  mk (tracking_mode self) (SD self) (desired_number_of_tracks self) v
     (step_size self) (min_length self) (max_length self) (angle self)
     (cutoff_value self) (use_act self) (seed_from_gmwmi self)
     (crop_at_gmwmi self) (backtrack self).
Definition store_step_size (self : t) (v : Q) : t :=
  mk (tracking_mode self) (SD self) (desired_number_of_tracks self)
     (curvature self) v (min_length self) (max_length self) (angle self)
     (cutoff_value self) (use_act self) (seed_from_gmwmi self)
     (crop_at_gmwmi self) (backtrack self).
Definition store_min_length (self : t) (v : Q) : t :=
  mk (tracking_mode self) (SD self) (desired_number_of_tracks self)
     (curvature self) (step_size self) v (max_length self) (angle self)
     (cutoff_value self) (use_act self) (seed_from_gmwmi self)
     (crop_at_gmwmi self) (backtrack self).
Definition store_max_length (self : t) (v : Q) : t :=
  mk (tracking_mode self) (SD self) (desired_number_of_tracks self)
     (curvature self) (step_size self) (min_length self) v (angle self)
     (cutoff_value self) (use_act self) (seed_from_gmwmi self)
     (crop_at_gmwmi self) (backtrack self).
Definition store_angle (self : t) (v : Q) : t :=
  mk (tracking_mode self) (SD self) (desired_number_of_tracks self)
     (curvature self) (step_size self) (min_length self) (max_length self) v
     (cutoff_value self) (use_act self) (seed_from_gmwmi self)
     (crop_at_gmwmi self) (backtrack self).
Definition store_cutoff_value (self : t) (v : Q) : t :=
  mk (tracking_mode self) (SD self) (desired_number_of_tracks self)
     (curvature self) (step_size self) (min_length self) (max_length self)
     (angle self) v (use_act self) (seed_from_gmwmi self)
     (crop_at_gmwmi self) (backtrack self).
Definition store_use_act (self : t) (v : bool) : t :=
  mk (tracking_mode self) (SD self) (desired_number_of_tracks self)
     (curvature self) (step_size self) (min_length self) (max_length self)
     (angle self) (cutoff_value self) v (seed_from_gmwmi self)
     (crop_at_gmwmi self) (backtrack self).
Definition store_seed_from_gmwmi (self : t) (v : bool) : t :=
  mk (tracking_mode self) (SD self) (desired_number_of_tracks self)
     (curvature self) (step_size self) (min_length self) (max_length self)
     (angle self) (cutoff_value self) (use_act self) v
     (crop_at_gmwmi self) (backtrack self).
Definition store_crop_at_gmwmi (self : t) (v : bool) : t :=
  mk (tracking_mode self) (SD self) (desired_number_of_tracks self)
     (curvature self) (step_size self) (min_length self) (max_length self)
     (angle self) (cutoff_value self) (use_act self) (seed_from_gmwmi self)
     v (backtrack self).
Definition store_backtrack (self : t) (v : bool) : t :=
  mk (tracking_mode self) (SD self) (desired_number_of_tracks self)
     (curvature self) (step_size self) (min_length self) (max_length self)
     (angle self) (cutoff_value self) (use_act self) (seed_from_gmwmi self)
     (crop_at_gmwmi self) v.

(** The literal [0.000001] of the handlers. *)
Definition epsilon : Q := (1 # 1000000)%Q.

(** [_curvature_changed]: [if new <= 0.000001: self.curvature = 0.0].
    The write inside the handler is the notifying write [assign]. *)
Definition _curvature_changed
    (assign : t -> Q -> option t) (self : t) (new : Q) : option t :=
  if Qle_bool new epsilon then assign self 0%Q else Some self.

(** [self.curvature = v] *)
Fixpoint set_curvature (fuel : nat) (self : t) (v : Q) : option t :=
  match fuel with
  | O => None
  | S fuel' =>
      let self' := store_curvature self v in
      if Qeq_bool (curvature self) v then Some self'
      else _curvature_changed (set_curvature fuel') self' v
  end.

(** [_SD_changed] *)
Definition _SD_changed (fuel : nat) (self : t) (new : bool) : option t :=
  if String.eqb (tracking_mode self) "Deterministic" && negb new
  then set_curvature fuel self 2%Q
  else if String.eqb (tracking_mode self) "Deterministic" && new
  then set_curvature fuel self 0%Q
  else if String.eqb (tracking_mode self) "Probabilistic"
  then set_curvature fuel self 1%Q
  else Some self.

(** [_tracking_mode_changed] *)
Definition _tracking_mode_changed (fuel : nat) (self : t) (new : string)
    : option t :=
  if String.eqb new "Deterministic" && negb (SD self)
  then set_curvature fuel self 2%Q
  else if String.eqb new "Deterministic" && SD self
  then set_curvature fuel self 0%Q
  else if String.eqb new "Probabilistic"
  then set_curvature fuel self 1%Q
  else Some self.

(** [_use_act_changed]: the three dependent traits have no handler of
    their own, so the writes inside are plain stores. *)
Definition _use_act_changed (self : t) (new : bool) : t :=
  if Bool.eqb new false
  then store_backtrack
         (store_seed_from_gmwmi (store_crop_at_gmwmi self false) false)
         false
  else self.

(** [self.SD = v] *)
Definition set_SD (fuel : nat) (self : t) (v : bool) : option t :=
  let self' := store_SD self v in
  if Bool.eqb (SD self) v then Some self' else _SD_changed fuel self' v.

(** [self.tracking_mode = v] *)
Definition set_tracking_mode (fuel : nat) (self : t) (v : string)
    : option t :=
  let self' := store_tracking_mode self v in
  if String.eqb (tracking_mode self) v then Some self'
  else _tracking_mode_changed fuel self' v.

(** [self.use_act = v] *)
Definition set_use_act (self : t) (v : bool) : t :=
  let self' := store_use_act self v in
  if Bool.eqb (use_act self) v then self' else _use_act_changed self' v.

(** One attribute write, as a constructor argument or afterwards. *)
Inductive write :=
| W_tracking_mode (v : string)
| W_SD (v : bool)
| W_desired_number_of_tracks (v : Z)
| W_curvature (v : Q)
| W_step_size (v : Q)
| W_min_length (v : Q)
| W_max_length (v : Q)
| W_angle (v : Q)
| W_cutoff_value (v : Q)
| W_use_act (v : bool)
| W_seed_from_gmwmi (v : bool)
| W_crop_at_gmwmi (v : bool)
| W_backtrack (v : bool).

Definition setattr (fuel : nat) (self : t) (w : write) : option t :=
  match w with
  | W_tracking_mode v => set_tracking_mode fuel self v
  | W_SD v => set_SD fuel self v
  | W_desired_number_of_tracks v =>
      Some (store_desired_number_of_tracks self v)
  | W_curvature v => set_curvature fuel self v
  | W_step_size v => Some (store_step_size self v)
  | W_min_length v => Some (store_min_length self v)
  | W_max_length v => Some (store_max_length self v)
  | W_angle v => Some (store_angle self v)
  | W_cutoff_value v => Some (store_cutoff_value self v)
  | W_use_act v => Some (set_use_act self v)
  | W_seed_from_gmwmi v => Some (store_seed_from_gmwmi self v)
  | W_crop_at_gmwmi v => Some (store_crop_at_gmwmi self v)
  | W_backtrack v => Some (store_backtrack self v)
  end.

(** The constructor call with keyword arguments, and later writes: the
    constructor starts from the defaults and performs one write per
    keyword argument, in the iteration order of the keyword dictionary. *)
Fixpoint setattrs (fuel : nat) (self : t) (ws : list write) : option t :=
  match ws with
  | [] => Some self
  | w :: ws' =>
      match setattr fuel self w with
      | Some self' => setattrs fuel self' ws'
      | None => None
      end
  end.

Definition construct (fuel : nat) (kwargs : list write) : option t :=
  setattrs fuel default kwargs.

(** The objects a program can hold: built by the constructor and any
    number of later writes. *)
Inductive reachable : t -> Prop :=
| reachable_default : reachable default
| reachable_setattr self w fuel self' :
    reachable self -> setattr fuel self w = Some self' -> reachable self'.

(** What the curvature of an object can be: [0.0] or above [epsilon]. *)
Definition curvature_snapped (self : t) : Prop :=
  (curvature self == 0)%Q \/ (epsilon < curvature self)%Q.

(** The value a notifying write of [v] leaves in [curvature] when the
    old value is [old] (see [set_curvature_fuel] below). *)
Definition snap (old v : Q) : Q :=
  if Qeq_bool old v then v else if Qle_bool v epsilon then 0%Q else v.

(** The curvature implied by the tracking mode and the SD flag. *)
Definition derived_curvature (self : t) : Prop :=
  (tracking_mode self = "Deterministic" -> SD self = false ->
   curvature self = 2%Q)
  /\ (tracking_mode self = "Deterministic" -> SD self = true ->
      curvature self = 0%Q)
  /\ (tracking_mode self = "Probabilistic" -> curvature self = 1%Q).

(** Without ACT the three dependent flags are off. *)
Definition act_flags_forced (self : t) : Prop :=
  use_act self = false ->
  crop_at_gmwmi self = false /\ seed_from_gmwmi self = false
  /\ backtrack self = false.

(** The writes that can notify a handler which assigns [curvature]. *)
Definition writes_curvature (w : write) : bool :=
  match w with
  | W_curvature _ | W_SD _ | W_tracking_mode _ => true
  | _ => false
  end.

(** The writes to [use_act] and its three dependent flags. *)
Definition writes_act (w : write) : bool :=
  match w with
  | W_use_act _ | W_seed_from_gmwmi _ | W_crop_at_gmwmi _ | W_backtrack _ =>
      true
  | _ => false
  end.

End MRtrix_tracking_config.


Module Dipy_tracking_config.

(** The traits declared by the class.  Its [_SD_changed] and
    [_tracking_mode_changed] handlers write an attribute [curvature] that
    the class does not declare as a trait; the workflow builder never
    reads it. *)
Record t := mk {
  imaging_model : string;
  tracking_mode : string;
  SD : bool;
  number_of_seeds : Z;
  fa_thresh : Q;
  step_size : Q;
  max_angle : Q;
  sh_order : Z;
  use_act : bool;
  fast_number_of_classes : Z
}.

Definition default : t := {|
  imaging_model := "";
  tracking_mode := "";
  SD := false;
  number_of_seeds := 1000;
  fa_thresh := (2 # 10)%Q;
  step_size := (1 # 2)%Q;
  max_angle := 25%Q;
  sh_order := 8;
  use_act := false;
  fast_number_of_classes := 3
|}.

End Dipy_tracking_config.

(* ===================================================================== *)
(** ** nipype workflows

    [pe.Node] creates a node object; [node.inputs.f = v] mutates it;
    [flow.connect] adds the two end nodes of every connection to the graph
    of the workflow, and one edge per pair of ports.  The graph holds the
    node objects by reference, so an input set after the node was connected
    is part of the compiled graph.  Node objects live in a store keyed by
    their name (every name is used once per workflow). *)
(* ===================================================================== *)

Module nipype.

Inductive value :=
| VBool (b : bool)
| VInt (z : Z)
| VFloat (q : Q)
| VStr (s : string).

(** The interface classes instantiated by the two workflows. *)
Inductive interface :=
| IdentityInterface (fields : list string)
| TensorInformedEudXTractography
| DirectionGetterTractography
| make_seeds
| make_mrtrix_seeds
| Erode
| StreamlineTrack
| Tck2Trk
| extractHeaderVoxel2WorldMatrix
| match_orientations.

Record Node := mkNode {
  node_interface : interface;
  node_name : string;
  node_inputs : gmap string value
}.

Record edge := mkEdge {
  edge_src : string;
  edge_src_port : string;
  edge_dst : string;
  edge_dst_port : string
}.

Record Workflow := mkWorkflow {
  flow_name : string;
  flow_nodes : list string;
  flow_edges : list edge
}.

(** The heap of node objects and the workflow under construction. *)
Record world := mkWorld {
  objects : gmap string Node;
  flow : Workflow
}.

(** A state monad over [world]. *)
Definition M (A : Type) : Type := world -> A * world.

Definition ret {A} (a : A) : M A := fun w => (a, w).

Definition bind {A B} (m : M A) (k : A -> M B) : M B :=
  fun w => let (a, w') := m w in k a w'.

Definition exec {A} (m : M A) (w : world) : world := snd (m w).

(** [pe.Workflow(name=...)] *)
Definition Workflow_new (name : string) : world :=
  mkWorld ∅ (mkWorkflow name [] []).

(** [pe.Node(interface=I(kw), name=n)]: returns the reference. *)
Definition pe_Node (i : interface) (kw : list (string * value))
    (name : string) : M string :=
  fun w =>
    (name,
     mkWorld (<[name := mkNode i name (list_to_map kw)]> (objects w))
             (flow w)).

(** [node.inputs.field = v] *)
Definition set_input (ref field : string) (v : value) : M unit :=
  fun w =>
    (tt,
     mkWorld
       (alter (fun n => mkNode (node_interface n) (node_name n)
                               (<[field := v]> (node_inputs n)))
              ref (objects w))
       (flow w)).

Definition add_node (n : string) (ns : list string) : list string :=
  if bool_decide (n ∈ ns) then ns else ns ++ [n].

(** One element [(src, dst, [(src_port, dst_port); ...])] of the list
    given to [flow.connect]. *)
Definition connection : Type := string * string * list (string * string).

Definition connect1 (g : Workflow) (c : connection) : Workflow :=
  let '(s, d, ports) := c in
  mkWorkflow (flow_name g)
    (add_node d (add_node s (flow_nodes g)))
    (flow_edges g ++ map (fun p => mkEdge s (fst p) d (snd p)) ports).

(** [flow.connect([...])] *)
Definition connect (cs : list connection) : M unit :=
  fun w => (tt, mkWorld (objects w) (foldl connect1 (flow w) cs)).

(** Reading the compiled graph. *)
#[global] Instance interface_eq_dec : EqDecision interface.
Proof. solve_decision. Defined.

Definition input_of (w : world) (n field : string) : option value :=
  match objects w !! n with
  | Some nd => node_inputs nd !! field
  | None => None
  end.

Definition interface_of (w : world) (n : string) : option interface :=
  node_interface <$> objects w !! n.

(** The stages of the graph that run interface [i]. *)
Definition stages_of (w : world) (i : interface) : list string :=
  filter (fun n => interface_of w n = Some i) (flow_nodes (flow w)).

Definition has_stage (w : world) (i : interface) : Prop :=
  stages_of w i ≠ [].

(** The tracking stages: the three tractography interfaces. *)
Definition tracking_stages (w : world) : list string :=
  filter (fun n => interface_of w n = Some TensorInformedEudXTractography
                   ∨ interface_of w n = Some DirectionGetterTractography
                   ∨ interface_of w n = Some StreamlineTrack)
         (flow_nodes (flow w)).

Definition edges_into (w : world) (n : string) : list edge :=
  filter (fun e => edge_dst e = n) (flow_edges (flow w)).

Definition edges_from (w : world) (n : string) : list edge :=
  filter (fun e => edge_src e = n) (flow_edges (flow w)).

(** A directed path of at least one edge. *)
Inductive path (g : Workflow) : string -> string -> Prop :=
| path_edge e : e ∈ flow_edges g -> path g (edge_src e) (edge_dst e)
| path_step e b :
    e ∈ flow_edges g -> path g (edge_dst e) b -> path g (edge_src e) b.

End nipype.

Declare Scope flow_scope.
Delimit Scope flow_scope with flow.
Notation "x <- m ;; k" := (nipype.bind m (fun x => k))
  (at level 100, m at next level, right associativity) : flow_scope.
Notation "m ;; k" := (nipype.bind m (fun _ => k))
  (at level 100, right associativity) : flow_scope.

Section Workflows.
Import nipype.
Local Open Scope flow_scope.

(** [create_dipy_tracking_flow(config)] *)
Definition create_dipy_tracking_flow (config : Dipy_tracking_config.t)
    : world :=
  let cfg_SD := Dipy_tracking_config.SD config in
  let cfg_model := Dipy_tracking_config.imaging_model config in
  let cfg_mode := Dipy_tracking_config.tracking_mode config in
  exec (
    inputnode <- pe_Node
      (IdentityInterface
         ["DWI"; "fod_file"; "FA"; "T1"; "partial_volumes";
          "wm_mask_resampled"; "gm_registered"; "bvals"; "bvecs"; "model"])
      [] "inputnode" ;;
    outputnode <- pe_Node (IdentityInterface ["track_file"]) []
      "outputnode" ;;
    if negb cfg_SD && negb (String.eqb cfg_model "DSI") then
      (* tensor fitting was used *)
      dipy_tracking <- pe_Node TensorInformedEudXTractography []
        "dipy_dtieudx_tracking" ;;
      set_input dipy_tracking "num_seeds"
        (VInt (Dipy_tracking_config.number_of_seeds config)) ;;
      set_input dipy_tracking "fa_thresh"
        (VFloat (Dipy_tracking_config.fa_thresh config)) ;;
      set_input dipy_tracking "max_angle"
        (VFloat (Dipy_tracking_config.max_angle config)) ;;
      set_input dipy_tracking "step_size"
        (VFloat (Dipy_tracking_config.step_size config)) ;;
      connect [
        (inputnode, dipy_tracking, [("wm_mask_resampled", "seed_mask")]);
        (inputnode, dipy_tracking, [("DWI", "in_file")]);
        (inputnode, dipy_tracking, [("model", "in_model")]);
        (inputnode, dipy_tracking, [("FA", "in_fa")]);
        (inputnode, dipy_tracking, [("wm_mask_resampled", "tracking_mask")]);
        (dipy_tracking, outputnode, [("tracks", "track_file")])
      ]
    else (* CSD was used *)
    if String.eqb cfg_mode "Deterministic" then
      dipy_seeds <- pe_Node make_seeds [] "dipy_seeds" ;;
      dipy_tracking <- pe_Node DirectionGetterTractography []
        "dipy_deterministic_tracking" ;;
      set_input dipy_tracking "algo" (VStr "deterministic") ;;
      set_input dipy_tracking "num_seeds"
        (VInt (Dipy_tracking_config.number_of_seeds config)) ;;
      set_input dipy_tracking "fa_thresh"
        (VFloat (Dipy_tracking_config.fa_thresh config)) ;;
      set_input dipy_tracking "max_angle"
        (VFloat (Dipy_tracking_config.max_angle config)) ;;
      set_input dipy_tracking "step_size"
        (VFloat (Dipy_tracking_config.step_size config)) ;;
      set_input dipy_tracking "use_act"
        (VBool (Dipy_tracking_config.use_act config)) ;;
      set_input dipy_tracking "fast_number_of_classes"
        (VInt (Dipy_tracking_config.fast_number_of_classes config)) ;;
      (if String.eqb cfg_model "DSI" then
         set_input dipy_tracking "recon_model" (VStr "SHORE")
       else
         set_input dipy_tracking "recon_model" (VStr "CSD") ;;
         set_input dipy_tracking "recon_order"
           (VInt (Dipy_tracking_config.sh_order config))) ;;
      connect [
        (inputnode, dipy_seeds, [("wm_mask_resampled", "WM_file")]);
        (inputnode, dipy_seeds, [("gm_registered", "ROI_files")])
      ] ;;
      (if String.eqb cfg_model "DSI" then
         connect [(inputnode, dipy_tracking, [("fod_file", "fod_file")])]
       else ret tt) ;;
      connect [
        (inputnode, dipy_tracking, [("wm_mask_resampled", "seed_mask")]);
        (inputnode, dipy_tracking, [("DWI", "in_file")]);
        (inputnode, dipy_tracking,
           [("partial_volumes", "in_partial_volume_files")]);
        (inputnode, dipy_tracking, [("model", "in_model")]);
        (inputnode, dipy_tracking, [("FA", "in_fa")]);
        (inputnode, dipy_tracking, [("wm_mask_resampled", "tracking_mask")]);
        (dipy_tracking, outputnode, [("tracks", "track_file")])
      ]
    else if String.eqb cfg_mode "Probabilistic" then
      dipy_seeds <- pe_Node make_seeds [] "dipy_seeds" ;;
      connect [
        (inputnode, dipy_seeds, [("wm_mask_resampled", "WM_file")]);
        (inputnode, dipy_seeds, [("gm_registered", "ROI_files")])
      ] ;;
      dipy_tracking <- pe_Node DirectionGetterTractography []
        "dipy_probabilistic_tracking" ;;
      set_input dipy_tracking "algo" (VStr "probabilistic") ;;
      set_input dipy_tracking "num_seeds"
        (VInt (Dipy_tracking_config.number_of_seeds config)) ;;
      set_input dipy_tracking "fa_thresh"
        (VFloat (Dipy_tracking_config.fa_thresh config)) ;;
      set_input dipy_tracking "max_angle"
        (VFloat (Dipy_tracking_config.max_angle config)) ;;
      set_input dipy_tracking "step_size"
        (VFloat (Dipy_tracking_config.step_size config)) ;;
      set_input dipy_tracking "use_act"
        (VBool (Dipy_tracking_config.use_act config)) ;;
      set_input dipy_tracking "fast_number_of_classes"
        (VInt (Dipy_tracking_config.fast_number_of_classes config)) ;;
      (if String.eqb cfg_model "DSI" then
         set_input dipy_tracking "recon_model" (VStr "SHORE")
       else
         set_input dipy_tracking "recon_model" (VStr "CSD") ;;
         set_input dipy_tracking "recon_order"
           (VInt (Dipy_tracking_config.sh_order config))) ;;
      (if String.eqb cfg_model "DSI" then
         connect [(inputnode, dipy_tracking, [("fod_file", "fod_file")])]
       else ret tt) ;;
      connect [
        (inputnode, dipy_tracking, [("wm_mask_resampled", "seed_mask")]);
        (inputnode, dipy_tracking, [("DWI", "in_file")]);
        (inputnode, dipy_tracking,
           [("partial_volumes", "in_partial_volume_files")]);
        (inputnode, dipy_tracking, [("model", "in_model")]);
        (inputnode, dipy_tracking, [("FA", "in_fa")]);
        (inputnode, dipy_tracking, [("wm_mask_resampled", "tracking_mask")]);
        (dipy_tracking, outputnode, [("tracks", "track_file")])
      ]
    else ret tt
  ) (Workflow_new "tracking").

(** The part shared by the two branches of [create_mrtrix_tracking_flow]:
    the [use_act] and [seed_from_gmwmi] conditionals. *)
Definition mrtrix_act_and_seed (config : MRtrix_tracking_config.t)
    (inputnode mrtrix_tracking : string) : M unit :=
  (if MRtrix_tracking_config.use_act config then
     connect [(inputnode, mrtrix_tracking,
                 [("act_5tt_registered", "act_file")])] ;;
     set_input mrtrix_tracking "backtrack"
       (VBool (MRtrix_tracking_config.backtrack config)) ;;
     set_input mrtrix_tracking "crop_at_gmwmi"
       (VBool (MRtrix_tracking_config.crop_at_gmwmi config))
   else
     connect [(inputnode, mrtrix_tracking,
                 [("wm_mask_resampled", "mask_file")])]) ;;
  (if MRtrix_tracking_config.seed_from_gmwmi config then
     connect [(inputnode, mrtrix_tracking,
                 [("gmwmi_registered", "seed_gmwmi")])]
   else
     connect [(inputnode, mrtrix_tracking,
                 [("wm_mask_resampled", "seed_file")])]).

(** The settings both branches copy from the configuration. *)
Definition mrtrix_streamline_settings (config : MRtrix_tracking_config.t)
    (mrtrix_tracking : string) : M unit :=
  set_input mrtrix_tracking "desired_number_of_tracks"
    (VInt (MRtrix_tracking_config.desired_number_of_tracks config)) ;;
  set_input mrtrix_tracking "maximum_tract_length"
    (VFloat (MRtrix_tracking_config.max_length config)) ;;
  set_input mrtrix_tracking "minimum_tract_length"
    (VFloat (MRtrix_tracking_config.min_length config)) ;;
  set_input mrtrix_tracking "step_size"
    (VFloat (MRtrix_tracking_config.step_size config)) ;;
  set_input mrtrix_tracking "angle"
    (VFloat (MRtrix_tracking_config.angle config)) ;;
  set_input mrtrix_tracking "cutoff_value"
    (VFloat (MRtrix_tracking_config.cutoff_value config)).

(** [create_mrtrix_tracking_flow(config)] *)
Definition create_mrtrix_tracking_flow (config : MRtrix_tracking_config.t)
    : world :=
  let cfg_mode := MRtrix_tracking_config.tracking_mode config in
  exec (
    inputnode <- pe_Node
      (IdentityInterface
         ["DWI"; "wm_mask_resampled"; "gm_registered"; "act_5tt_registered";
          "gmwmi_registered"; "grad"])
      [] "inputnode" ;;
    outputnode <- pe_Node (IdentityInterface ["track_file"]) []
      "outputnode" ;;
    (* Compute single fiber voxel mask *)
    wm_erode <- pe_Node Erode
      [("out_filename", VStr "wm_mask_resampled.nii.gz")] "wm_erode" ;;
    set_input wm_erode "number_of_passes" (VInt 3) ;;
    set_input wm_erode "filtertype" (VStr "erode") ;;
    connect [(inputnode, wm_erode, [("wm_mask_resampled", "in_file")])] ;;
    if String.eqb cfg_mode "Deterministic" then
      mrtrix_seeds <- pe_Node make_mrtrix_seeds [] "mrtrix_seeds" ;;
      mrtrix_tracking <- pe_Node StreamlineTrack []
        "mrtrix_deterministic_tracking" ;;
      mrtrix_streamline_settings config mrtrix_tracking ;;
      (if Qle_bool MRtrix_tracking_config.epsilon
            (MRtrix_tracking_config.curvature config) then
         set_input mrtrix_tracking "rk4" (VBool true) ;;
         set_input mrtrix_tracking "inputmodel" (VStr "SD_Stream")
       else
         set_input mrtrix_tracking "inputmodel" (VStr "SD_Stream")) ;;
      connect [(inputnode, mrtrix_tracking,
                  [("grad", "gradient_encoding_file")])] ;;
      voxel2WorldMatrixExtracter <- pe_Node extractHeaderVoxel2WorldMatrix []
        "voxel2WorldMatrixExtracter" ;;
      connect [(inputnode, voxel2WorldMatrixExtracter,
                  [("wm_mask_resampled", "in_file")])] ;;
      orientation_matcher <- pe_Node match_orientations []
        "orient_matcher" ;;
      connect [
        (inputnode, mrtrix_seeds, [("wm_mask_resampled", "WM_file")]);
        (inputnode, mrtrix_seeds, [("gm_registered", "ROI_files")])
      ] ;;
      mrtrix_act_and_seed config inputnode mrtrix_tracking ;;
      converter <- pe_Node Tck2Trk [] "trackvis" ;;
      set_input converter "out_tracks" (VStr "converted.trk") ;;
      connect [
        (inputnode, mrtrix_tracking, [("DWI", "in_file")]);
        (mrtrix_tracking, converter, [("tracked", "in_tracks")]);
        (inputnode, converter, [("wm_mask_resampled", "in_image")]);
        (converter, outputnode, [("out_tracks", "track_file")])
      ]
    else if String.eqb cfg_mode "Probabilistic" then
      mrtrix_seeds <- pe_Node make_mrtrix_seeds [] "mrtrix_seeds" ;;
      mrtrix_tracking <- pe_Node StreamlineTrack []
        "mrtrix_probabilistic_tracking" ;;
      mrtrix_streamline_settings config mrtrix_tracking ;;
      (if MRtrix_tracking_config.SD config then
         set_input mrtrix_tracking "inputmodel" (VStr "iFOD2")
       else
         set_input mrtrix_tracking "inputmodel" (VStr "Tensor_Prob")) ;;
      converter <- pe_Node Tck2Trk [] "trackvis" ;;
      set_input converter "out_tracks" (VStr "converted.trk") ;;
      connect [
        (inputnode, mrtrix_seeds, [("wm_mask_resampled", "WM_file")]);
        (inputnode, mrtrix_seeds, [("gm_registered", "ROI_files")])
      ] ;;
      mrtrix_act_and_seed config inputnode mrtrix_tracking ;;
      connect [
        (inputnode, mrtrix_tracking, [("DWI", "in_file")]);
        (mrtrix_tracking, converter, [("tracked", "in_tracks")]);
        (inputnode, converter, [("wm_mask_resampled", "in_image")]);
        (converter, outputnode, [("out_tracks", "track_file")])
      ]
    else ret tt
  ) (Workflow_new "tracking").

End Workflows.

(* ===================================================================== *)
(** ** numpy arrays and nibabel images *)
(* ===================================================================== *)

(** Python exceptions raised by the modelled code. *)
Inductive exception :=
| ValueError   (* numpy: operands could not be broadcast together *)
| IndexError.  (* string index out of range *)

Module np.

(** Element types of the arrays a NIfTI image can hold.  An integer of
    [bits t] bits wraps around on overflow; a float is a rational (see the
    conventions above), kept in lowest terms so that equal values are equal
    terms. *)
Inductive int_dtype :=
| uint8 | int8 | uint16 | int16 | uint32 | int32 | uint64 | int64.

Inductive float_dtype := float32 | float64.

Inductive dtype :=
| Int (t : int_dtype)
| Float (t : float_dtype).

#[global] Instance int_dtype_eq_dec : EqDecision int_dtype.
Proof. solve_decision. Defined.

#[global] Instance float_dtype_eq_dec : EqDecision float_dtype.
Proof. solve_decision. Defined.

#[global] Instance dtype_eq_dec : EqDecision dtype.
Proof. solve_decision. Defined.

Definition signed (t : int_dtype) : bool :=
  match t with
  | int8 | int16 | int32 | int64 => true
  | uint8 | uint16 | uint32 | uint64 => false
  end.

Definition bits (t : int_dtype) : Z :=
  match t with
  | uint8 | int8 => 8
  | uint16 | int16 => 16
  | uint32 | int32 => 32
  | uint64 | int64 => 64
  end.

Definition min_of (t : int_dtype) : Z :=
  if signed t then - 2 ^ (bits t - 1) else 0.

Definition max_of (t : int_dtype) : Z :=
  if signed t then 2 ^ (bits t - 1) - 1 else 2 ^ bits t - 1.

Definition in_range (t : int_dtype) (z : Z) : Prop :=
  min_of t <= z <= max_of t.

(** The value an integer of type [t] takes for the mathematical result
    [z]: two's complement wrap-around. *)
Definition wrap (t : int_dtype) (z : Z) : Z :=
  (z - min_of t) mod 2 ^ bits t + min_of t.

(** The result type of a binary operation on two arrays
    ([np.promote_types]). *)
Definition promote_ints (ta tb : int_dtype) : dtype :=
  if bool_decide (signed ta = signed tb) then
    Int (if bits ta <? bits tb then tb else ta)
  else
    let s := if signed ta then ta else tb in
    let u := if signed ta then tb else ta in
    if bits u <? bits s then Int s
    else match u with
         | uint8 => Int int16
         | uint16 => Int int32
         | uint32 => Int int64
         | _ => Float float64
         end.

Definition promote_int_float (ti : int_dtype) (tf : float_dtype)
    : float_dtype :=
  match tf with
  | float64 => float64
  | float32 => if bits ti <=? 16 then float32 else float64
  end.

Definition promote_floats (ta tb : float_dtype) : float_dtype :=
  match ta, tb with
  | float32, float32 => float32
  | _, _ => float64
  end.

(** Conversions between integers and floats.  A float becomes an integer
    by dropping its fraction; a float outside the 64-bit range becomes
    the smallest 64-bit integer, as the conversion instruction of x86-64
    gives. *)
Definition of_int (z : Z) : Qc := Q2Qc (inject_Z z).

Definition trunc (q : Qc) : Z := Z.quot (Qnum q) (Z.pos (Qden q)).

Definition int_of_float (q : Qc) : Z :=
  let z := trunc q in
  if (min_of int64 <=? z) && (z <=? max_of int64) then z else min_of int64.

Definition is_zero (q : Qc) : bool := Qeq_bool q 0.

(** The elements of an array, flat, in row-major order, with their
    type. *)
Inductive buffer :=
| ints (t : int_dtype) (l : list Z)
| floats (t : float_dtype) (l : list Qc).

Record ndarray := mk {
  shape : list nat;
  elements : buffer
}.

Definition size_of (s : list nat) : nat := foldr Nat.mul 1%nat s.

(** An array of the platform integer type ([int], 64 bits). *)
Definition int64_array (s : list nat) (l : list Z) : ndarray :=
  mk s (ints int64 l).

(** [a[a != 0]]: the non-zero entries, flattened in storage order. *)
Definition nonzero_entries (a : ndarray) : ndarray :=
  match elements a with
  | ints t l =>
      let l' := filter (fun z => z ≠ 0) l in mk [length l'] (ints t l')
  | floats t l =>
      let l' := filter (fun q => is_zero q = false) l in
      mk [length l'] (floats t l')
  end.

(** [np.unique]: the sorted distinct values. *)
Fixpoint insert_unique (x : Z) (l : list Z) : list Z :=
  match l with
  | [] => [x]
  | y :: l' =>
      if x <? y then x :: l
      else if x =? y then l
      else y :: insert_unique x l'
  end.

Definition unique_ints (l : list Z) : list Z := foldr insert_unique [] l.

Fixpoint insert_unique_float (x : Qc) (l : list Qc) : list Qc :=
  match l with
  | [] => [x]
  | y :: l' =>
      match (x ?= y)%Qc with
      | Lt => x :: l
      | Eq => l
      | Gt => y :: insert_unique_float x l'
      end
  end.

Definition unique_floats (l : list Qc) : list Qc :=
  foldr insert_unique_float [] l.

Definition unique (a : ndarray) : ndarray :=
  match elements a with
  | ints t l => let l' := unique_ints l in mk [length l'] (ints t l')
  | floats t l => let l' := unique_floats l in mk [length l'] (floats t l')
  end.

(** The elements of [a.astype(int)], as integers.  For an array that is
    already of type [int] these are its elements, which is also what
    iterating over it yields. *)
Definition int_values (a : ndarray) : list Z :=
  match elements a with
  | ints _ l => map (wrap int64) l
  | floats _ l => map int_of_float l
  end.

(** [a.astype(int)] *)
Definition astype_int (a : ndarray) : ndarray :=
  int64_array (shape a) (int_values a).

(** Broadcasting.  Shapes are aligned on their last axis; the shorter one
    is padded with leading axes of length one. *)
Definition pad_shape (rank : nat) (s : list nat) : list nat :=
  replicate (rank - length s) 1%nat ++ s.

Fixpoint broadcast_shape (sa sb : list nat) : option (list nat) :=
  match sa, sb with
  | [], [] => Some []
  | da :: sa', db :: sb' =>
      match broadcast_shape sa' sb' with
      | Some s =>
          if (da =? db)%nat then Some (da :: s)
          else if (da =? 1)%nat then Some (db :: s)
          else if (db =? 1)%nat then Some (da :: s)
          else None
      | None => None
      end
  | _, _ => None
  end.

(** The [k] consecutive blocks of length [n] of a row-major buffer. *)
Fixpoint chunks {A} (k n : nat) (l : list A) : list (list A) :=
  match k with
  | O => []
  | S k' => take n l :: chunks k' n (drop n l)
  end.

Fixpoint sequence_option {A} (l : list (option A)) : option (list A) :=
  match l with
  | [] => Some []
  | Some x :: l' =>
      match sequence_option l' with
      | Some xs => Some (x :: xs)
      | None => None
      end
  | None :: _ => None
  end.

Fixpoint broadcast {A B C} (f : A -> B -> C) (sa sb : list nat)
    (a : list A) (b : list B) : option (list C) :=
  match sa, sb with
  | [], [] => Some (zip_with f a b)
  | da :: sa', db :: sb' =>
      let ca := chunks da (size_of sa') a in
      let cb := chunks db (size_of sb') b in
      if (da =? db)%nat then
        @List.concat C <$> sequence_option
          (zip_with (broadcast f sa' sb') ca cb)
      else if (da =? 1)%nat then
        @List.concat C <$> sequence_option (map (broadcast f sa' sb' a) cb)
      else if (db =? 1)%nat then
        @List.concat C <$> sequence_option
          (map (fun x => broadcast f sa' sb' x b) ca)
      else None
  | _, _ => None
  end.

(** An element-wise binary operation on two buffers of the given shapes:
    the shape and the elements of the result. *)
Definition elementwise {A B C} (f : A -> B -> C) (sa sb : list nat)
    (a : list A) (b : list B) : exception + list nat * list C :=
  if decide (sa = sb) then inr (sa, zip_with f a b)
  else
    let rank := Nat.max (length sa) (length sb) in
    let sa := pad_shape rank sa in
    let sb := pad_shape rank sb in
    match broadcast_shape sa sb, broadcast f sa sb a b with
    | Some s, Some d => inr (s, d)
    | _, _ => inl ValueError
    end.

Definition with_elements {C} (b : list C -> buffer)
    (r : exception + list nat * list C) : exception + ndarray :=
  match r with
  | inl e => inl e
  | inr (s, d) => inr (mk s (b d))
  end.

(** [np.multiply(a, b)]: the product in the promoted type.  Integers wrap
    around; an integer meeting a float is converted first. *)
Definition multiply (a b : ndarray) : exception + ndarray :=
  match elements a, elements b with
  | ints ta la, ints tb lb =>
      match promote_ints ta tb with
      | Int t =>
          with_elements (ints t)
            (elementwise (fun x y => wrap t (x * y)) (shape a) (shape b)
               la lb)
      | Float t =>
          with_elements (floats t)
            (elementwise (fun x y => (of_int x * of_int y)%Qc)
               (shape a) (shape b) la lb)
      end
  | ints ta la, floats tb lb =>
      with_elements (floats (promote_int_float ta tb))
        (elementwise (fun x y => (of_int x * y)%Qc) (shape a) (shape b)
           la lb)
  | floats ta la, ints tb lb =>
      with_elements (floats (promote_int_float tb ta))
        (elementwise (fun x y => (x * of_int y)%Qc) (shape a) (shape b)
           la lb)
  | floats ta la, floats tb lb =>
      with_elements (floats (promote_floats ta tb))
        (elementwise Qcmult (shape a) (shape b) la lb)
  end.

(** The elements of the product of two arrays of one shape. *)
Definition times (a b : buffer) : buffer :=
  match a, b with
  | ints ta la, ints tb lb =>
      match promote_ints ta tb with
      | Int t => ints t (zip_with (fun x y => wrap t (x * y)) la lb)
      | Float t =>
          floats t (zip_with (fun x y => (of_int x * of_int y)%Qc) la lb)
      end
  | ints ta la, floats tb lb =>
      floats (promote_int_float ta tb)
        (zip_with (fun x y => (of_int x * y)%Qc) la lb)
  | floats ta la, ints tb lb =>
      floats (promote_int_float tb ta)
        (zip_with (fun x y => (x * of_int y)%Qc) la lb)
  | floats ta la, floats tb lb =>
      floats (promote_floats ta tb) (zip_with Qcmult la lb)
  end.


(** [temp[mask_source == i] = v] and [temp[mask_source != i] = v] on
    [int] arrays of one shape, given by their elements. *)
Definition assign_where_eq (temp border : list Z) (i v : Z) : list Z :=
  zip_with (fun t b => if b =? i then v else t) temp border.

Definition assign_where_ne (temp border : list Z) (i v : Z) : list Z :=
  zip_with (fun t b => if negb (b =? i) then v else t) temp border.

End np.

Module nib.

(** A loaded image: the data array and the 4x4 voxel-to-world affine,
    whose last column holds the origin of the grid. *)
Record image := Nifti1Image {
  get_data : np.ndarray;
  get_affine : list (list Q)
}.

Definition origin (img : image) : list Q :=
  map (fun row => nth 3 row 0%Q) (take 3 (get_affine img)).

End nib.

(** [os.path.abspath] of a file name without directory part. *)
Definition abspath (cwd name : string) : string := cwd +:+ "/" +:+ name.

Definition newline : string := String (Ascii.ascii_of_nat 10) "".

(** [str(i)] of an integer. *)
Definition str (i : Z) : string := pretty i.

(* ===================================================================== *)
(** ** The seed interfaces *)
(* ===================================================================== *)

(** One entry of [inputs.ROI_files]: the path, what [split_filename]
    returns as its base name, and what [nib.load] returns. *)
Record ROI_file := mkROI {
  ROI_path : string;
  ROI_base : string;
  ROI_vol : nib.image
}.

(** The interface object ([self.ROI_idx], [self.base_name]) and the files
    of the working directory: images in the order [nib.save] wrote them,
    and the lines of the text file. *)
Record seeds_state := mkSeeds {
  self_ROI_idx : list Z;
  self_base_name : string;
  saved : list (string * nib.image);
  txt_name : string;
  txt_lines : list string
}.

(** The class attributes [ROI_idx = []] and [base_name = '']. *)
Definition seeds_initial : seeds_state := mkSeeds [] "" [] "" [].

(** What a reader of the working directory finds under a name: the image
    of the last [nib.save] to it. *)
Definition read_saved (st : seeds_state) (name : string)
    : option nib.image :=
  snd <$> last (filter (fun p => fst p = name) (saved st)).

Module make_seeds.

Definition seed_name (base : string) (i : Z) : string :=
  base +:+ "_seed_" +:+ str i +:+ ".nii.gz".

(** Body of [for i in self.ROI_idx]; [temp] is mutated in place and
    carried to the next iteration. *)
Definition save_seed (cwd : string) (ROI_affine : list (list Q))
    (border : np.ndarray) (acc : list Z * seeds_state) (i : Z)
    : list Z * seeds_state :=
  let '(temp, st) := acc in
  let temp := np.assign_where_eq temp (np.int_values border) i 1 in
  let temp := np.assign_where_ne temp (np.int_values border) i 0 in
  let new_image :=
    nib.Nifti1Image (np.int64_array (np.shape border) temp) ROI_affine in
  let save_as := abspath cwd (seed_name (self_base_name st) i) in
  (temp,
   mkSeeds (self_ROI_idx st) (self_base_name st)
     (saved st ++ [(save_as, new_image)])
     (txt_name st)
     (txt_lines st ++ [seed_name (self_base_name st) i +:+ newline])).

(** Body of [for ROI_file in self.inputs.ROI_files]. *)
Definition run_file (cwd : string) (WM_vol : nib.image)
    (st : seeds_state) (f : ROI_file) : seeds_state * option exception :=
  let ROI_data := nib.get_data (ROI_vol f) in
  let ROI_affine := nib.get_affine (ROI_vol f) in
  let WM_data := nib.get_data WM_vol in
  (* tmp_data = np.unique(ROI_data[ROI_data!=0]).astype(int) *)
  let tmp_data := np.astype_int (np.unique (np.nonzero_entries ROI_data)) in
  (* self.ROI_idx = np.unique(tmp_data).astype(int) *)
  let st := mkSeeds (np.int_values (np.astype_int (np.unique tmp_data)))
              (self_base_name st) (saved st) (txt_name st) (txt_lines st) in
  (* border = (np.multiply(ROI_data,WM_data)).astype(int) *)
  match np.multiply ROI_data WM_data with
  | inl e => (st, Some e)
  | inr product =>
      let border := np.astype_int product in
      (* temp = border.copy() *)
      let temp := np.int_values border in
      let st := mkSeeds (self_ROI_idx st) (ROI_base f) (saved st)
                  (txt_name st) (txt_lines st) in
      (snd (foldl (save_seed cwd ROI_affine border) (temp, st)
                  (self_ROI_idx st)),
       None)
  end.

Fixpoint run_files (cwd : string) (WM_vol : nib.image)
    (st : seeds_state) (fs : list ROI_file)
    : seeds_state * option exception :=
  match fs with
  | [] => (st, None)
  | f :: fs' =>
      match run_file cwd WM_vol st f with
      | (st', None) => run_files cwd WM_vol st' fs'
      | (st', Some e) => (st', Some e)
      end
  end.

(** [_run_interface] *)
Definition _run_interface (cwd : string) (ROI_files : list ROI_file)
    (WM_file : nib.image) (self : seeds_state)
    : seeds_state * option exception :=
  let st := mkSeeds (self_ROI_idx self) (self_base_name self) (saved self)
              (self_base_name self +:+ "_seeds.txt") [] in
  run_files cwd WM_file st ROI_files.

(** [gen_outputfilelist] *)
Definition gen_outputfilelist (cwd : string) (self : seeds_state)
    : list string :=
  foldl (fun (output_list : list string) i =>
           (output_list
              ++ [abspath cwd (seed_name (self_base_name self) i)])%list)
        [] (self_ROI_idx self).

(** [_list_outputs]: the value of [outputs["seed_files"]]. *)
Definition _list_outputs (cwd : string) (self : seeds_state) : list string :=
  gen_outputfilelist cwd self.

End make_seeds.

Module make_mrtrix_seeds.

Definition seeds_name (base : string) : string := base +:+ "_seeds.nii.gz".

Definition run_file (cwd : string) (WM_vol : nib.image)
    (st : seeds_state) (f : ROI_file) : seeds_state * option exception :=
  let ROI_data := nib.get_data (ROI_vol f) in
  let ROI_affine := nib.get_affine (ROI_vol f) in
  let WM_data := nib.get_data WM_vol in
  (* tmp_data = np.unique(ROI_data[ROI_data!=0]).astype(int) *)
  let tmp_data := np.astype_int (np.unique (np.nonzero_entries ROI_data)) in
  (* self.ROI_idx = np.unique(tmp_data).astype(int) *)
  let st := mkSeeds (np.int_values (np.astype_int (np.unique tmp_data)))
              (self_base_name st) (saved st) (txt_name st) (txt_lines st) in
  (* border = (np.multiply(ROI_data,WM_data)).astype(int) *)
  match np.multiply ROI_data WM_data with
  | inl e => (st, Some e)
  | inr product =>
      let border := np.astype_int product in
      let st := mkSeeds (self_ROI_idx st) (ROI_base f) (saved st)
                  (txt_name st) (txt_lines st) in
      let new_image := nib.Nifti1Image border ROI_affine in
      let save_as := abspath cwd (seeds_name (self_base_name st)) in
      (mkSeeds (self_ROI_idx st) (self_base_name st)
         (saved st ++ [(save_as, new_image)]) (txt_name st) (txt_lines st),
       None)
  end.

Fixpoint run_files (cwd : string) (WM_vol : nib.image)
    (st : seeds_state) (fs : list ROI_file)
    : seeds_state * option exception :=
  match fs with
  | [] => (st, None)
  | f :: fs' =>
      match run_file cwd WM_vol st f with
      | (st', None) => run_files cwd WM_vol st' fs'
      | (st', Some e) => (st', Some e)
      end
  end.

(** [_run_interface] *)
Definition _run_interface (cwd : string) (ROI_files : list ROI_file)
    (WM_file : nib.image) (self : seeds_state)
    : seeds_state * option exception :=
  run_files cwd WM_file self ROI_files.

(** [_list_outputs]: the value of [outputs["seed_files"]]. *)
Definition _list_outputs (cwd : string) (self : seeds_state) : string :=
  abspath cwd (seeds_name (self_base_name self)).

End make_mrtrix_seeds.

(* ===================================================================== *)
(** ** The streamline interface [match_orientations] *)
(* ===================================================================== *)

Module trackvis.

Abbreviation point := (Q * Q * Q)%type.

(** One element of the list [nib.trackvis.read] returns: the points of a
    streamline, its scalars and its properties. *)
Abbreviation track :=
  (list point * option (list (list Q)) * option (list Q))%type.

Record header := mkHeader {
  dim : Z * Z * Z;
  voxel_size : Q * Q * Q;
  origin : Q * Q * Q;
  voxel_order : string
}.

(** What [nib.trackvis.write] is given. *)
Record written := mkWritten {
  w_filename : string;
  w_streamlines : list track;
  w_header : header;
  w_points_space : string
}.

End trackvis.

Module match_orientations.
Import trackvis.

(** [s[k]] on a Python string: a one-character string, or [IndexError]. *)
Definition str_index (s : string) (k : nat) : exception + string :=
  match String.get k s with
  | Some c => inr (String c "")
  | None => inl IndexError
  end.

(** [if axcode[k] != str(hdr['voxel_order'])[k]: flip = -1 else: flip = 1] *)
Definition flip (axcode_k : string) (voxel_order : string) (k : nat)
    : exception + Z :=
  match str_index voxel_order k with
  | inl e => inl e
  | inr c => inr (if negb (String.eqb axcode_k c) then -1 else 1)
  end.

(** The right-hand side of [temp_fib[j] = [...]]. *)
Definition remap (flip_x flip_y flip_z : Z) (hdr_origin : Q * Q * Q)
    (vx vy vz : Q) (p : point) : point :=
  let '(ox, oy, oz) := hdr_origin in
  let '(p0, p1, p2) := p in
  ((inject_Z flip_x * (p0 - ox) + vx / 2)%Q,
   (inject_Z flip_y * (p1 - oy) + vy / 2)%Q,
   (inject_Z flip_z * (p2 - oz) + vz / 2)%Q).

(** [temp_fib = fib[i][0].copy()] followed by
    [for j in range(len(fib[i][0])): temp_fib[j] = ...]. *)
Definition remap_streamline (f : point -> point) (pts : list point)
    : list point :=
  foldl (fun (temp_fib : list point) (j : nat) =>
           match pts !! j with
           | Some p => <[j := f p]> temp_fib
           | None => temp_fib
           end)
        pts (seq 0 (length pts)).

(** [for i in range(len(fib)): ... new_fib.append((temp_fib,None,None))] *)
Definition remap_all (f : point -> point) (fib : list track)
    : list track :=
  foldl (fun (new_fib : list track) (i : nat) =>
           match fib !! i with
           | Some t =>
               (new_fib ++ [(remap_streamline f (fst (fst t)), None, None)])%list
           | None => new_fib
           end)
        [] (seq 0 (length fib)).

(** [_run_interface].  The reference image enters through what
    [get_data_dims], [get_vox_dims] and [aff2axcodes] return for it; the
    track file through what [nib.trackvis.read] returns. *)
Definition _run_interface (cwd name : string)
    (data_dims : Z * Z * Z) (vox_dims : Q * Q * Q)
    (axcode : string * string * string)
    (fib : list track) (hdr : header) : exception + written :=
  let filename := name +:+ "_orcor.trk" in
  let '(vx, vy, vz) := vox_dims in
  let '(a0, a1, a2) := axcode in
  match flip a0 (voxel_order hdr) 0 with
  | inl e => inl e
  | inr flip_x =>
  match flip a1 (voxel_order hdr) 1 with
  | inl e => inl e
  | inr flip_y =>
  match flip a2 (voxel_order hdr) 2 with
  | inl e => inl e
  | inr flip_z =>
      let trk_header :=
        mkHeader data_dims (vx, vy, vz) (0%Q, 0%Q, 0%Q) (a0 +:+ a1 +:+ a2) in
      let new_fib :=
        remap_all (remap flip_x flip_y flip_z (origin hdr) vx vy vz) fib in
      inr (mkWritten (abspath cwd filename) new_fib trk_header "voxmm")
  end end end.

(** The sign of one axis: [+1] when the axis code of the reference is the
    recorded character of the track file, [-1] otherwise. *)
Definition sign (axcode_k : string) (c : Ascii.ascii) : Z :=
  if decide (axcode_k = String c "") then 1 else -1.

(** The squared Euclidean distance of two points. *)
Definition sqdist (p q : point) : Q :=
  let '(p0, p1, p2) := p in
  let '(q0, q1, q2) := q in
  ((p0 - q0) * (p0 - q0) + (p1 - q1) * (p1 - q1)
   + (p2 - q2) * (p2 - q2))%Q.

(** Equality of points as numbers. *)
Definition point_eq (p q : point) : Prop :=
  let '(p0, p1, p2) := p in
  let '(q0, q1, q2) := q in
  (p0 == q0 ∧ p1 == q1 ∧ p2 == q2)%Q.

End match_orientations.

(* ===================================================================== *)
(** ** Vocabulary of the statements about the workflows *)
(* ===================================================================== *)

Section Workflow_vocabulary.
Import nipype.

Definition dti_tensor : Dipy_tracking_config.t :=
  Dipy_tracking_config.mk "DTI" "Deterministic" false 1000 (2 # 10) (1 # 2) 25
    8 false 3.

Definition dti_csd : Dipy_tracking_config.t :=
  Dipy_tracking_config.mk "DTI" "Deterministic" true 1000 (2 # 10) (1 # 2) 25
    8 false 3.

(** The edge that feeds the seed of the tracking stage [t]. *)
Definition seed_edge (config : MRtrix_tracking_config.t) (t : string) : edge :=
  if MRtrix_tracking_config.seed_from_gmwmi config
  then mkEdge "inputnode" "gmwmi_registered" t "seed_gmwmi"
  else mkEdge "inputnode" "wm_mask_resampled" t "seed_file".

Definition seed_edges (w : world) : list edge :=
  filter (fun e => edge_dst_port e = "seed_file"
                   ∨ edge_dst_port e = "seed_gmwmi")
         (flow_edges (flow w)).

Definition act_deterministic : MRtrix_tracking_config.t :=
  MRtrix_tracking_config.store_tracking_mode MRtrix_tracking_config.default
    "Deterministic".

(** C8, as stated: the erosion stage lies on a path to the tracking stage. *)
Definition eroded_mask_reaches_tracking (w : world) : Prop :=
  ∃ erode t, erode ∈ stages_of w Erode /\ t ∈ tracking_stages w
             /\ path (flow w) erode t.

(** The edges that end in a tracking stage. *)
Definition tracking_inputs (w : world) : list edge :=
  filter (fun e => edge_dst e ∈ tracking_stages w) (flow_edges (flow w)).

#[global] Instance edge_eq_dec : EqDecision edge.
Proof. solve_decision. Defined.

(** The input ports that have an incoming edge. *)
Definition input_ports (w : world) : list (string * string) :=
  map (fun e => (edge_dst e, edge_dst_port e)) (flow_edges (flow w)).

(** The edges into port [p] of stage [n]. *)
Definition edges_into_port (w : world) (n p : string) : list edge :=
  filter (fun e => edge_dst e = n ∧ edge_dst_port e = p)
         (flow_edges (flow w)).

(** Names are unique, no input port is connected twice, every edge joins
    two stages of the graph, and every stage has its node object. *)
Definition well_wired (w : world) : Prop :=
  NoDup (flow_nodes (flow w))
  ∧ NoDup (input_ports w)
  ∧ Forall (fun e => edge_src e ∈ flow_nodes (flow w)
                     ∧ edge_dst e ∈ flow_nodes (flow w))
           (flow_edges (flow w))
  ∧ Forall (fun n => is_Some (objects w !! n)) (flow_nodes (flow w)).

(** A numbering of the stages of the two workflows along which every edge
    goes upwards. *)
Definition stage_rank (n : string) : nat :=
  if decide (n = "inputnode") then 0
  else if decide (n = "outputnode") then 3
  else if decide (n = "trackvis") then 2
  else 1.

Definition edges_go_up (w : world) : Prop :=
  Forall (fun e => (stage_rank (edge_src e) < stage_rank (edge_dst e))%nat)
         (flow_edges (flow w)).

End Workflow_vocabulary.

(* ===================================================================== *)
(** ** Vocabulary of the statements about the seed interfaces *)
(* ===================================================================== *)

(** [self.ROI_idx] after the file [f]. *)
Definition labels_of (f : ROI_file) : list Z :=
  np.int_values
    (np.astype_int
       (np.unique
          (np.astype_int
             (np.unique (np.nonzero_entries (nib.get_data (ROI_vol f))))))).

(** The product of a region volume and a mask of the same shape, in the
    promoted element type, and its conversion to [int]: [border]. *)
Definition product_of (f : ROI_file) (WM : nib.image) : np.ndarray :=
  np.mk (np.shape (nib.get_data (ROI_vol f)))
        (np.times (np.elements (nib.get_data (ROI_vol f)))
                  (np.elements (nib.get_data WM))).

Definition border_of (f : ROI_file) (WM : nib.image) : list Z :=
  np.int_values (product_of f WM).




(** A volume that is zero everywhere. *)
Definition all_zero (a : np.ndarray) : Prop :=
  match np.elements a with
  | np.ints _ l => Forall (fun z => z = 0) l
  | np.floats _ l => Forall (fun q => q = 0%Qc) l
  end.

Definition indicator (i : Z) (border : list Z) : list Z :=
  map (fun b => if b =? i then 1 else 0) border.

Definition seed_volume (f : ROI_file) (WM : nib.image) (i : Z) : nib.image :=
  nib.Nifti1Image
    (np.int64_array (np.shape (nib.get_data (ROI_vol f)))
                    (indicator i (border_of f WM)))
    (nib.get_affine (ROI_vol f)).

Definition seeds_of (cwd : string) (f : ROI_file) (WM : nib.image)
    : list (string * nib.image) :=
  map (fun i => (abspath cwd (make_seeds.seed_name (ROI_base f) i),
                 seed_volume f WM i))
      (labels_of f).

Definition after_file (cwd : string) (WM : nib.image)
    (st : seeds_state) (f : ROI_file) : seeds_state :=
  mkSeeds (labels_of f) (ROI_base f)
    (saved st ++ seeds_of cwd f WM)
    (txt_name st)
    (txt_lines st
       ++ map (fun i => make_seeds.seed_name (ROI_base f) i +:+ newline)
              (labels_of f)).

Definition same_shape (WM : nib.image) (f : ROI_file) : Prop :=
  np.shape (nib.get_data (ROI_vol f)) = np.shape (nib.get_data WM).

Definition merged_volume (f : ROI_file) (WM : nib.image) : nib.image :=
  nib.Nifti1Image
    (np.int64_array (np.shape (nib.get_data (ROI_vol f))) (border_of f WM))
    (nib.get_affine (ROI_vol f)).

Definition after_file_merged (cwd : string) (WM : nib.image)
    (st : seeds_state) (f : ROI_file) : seeds_state :=
  mkSeeds (labels_of f) (ROI_base f)
    (saved st
       ++ [(abspath cwd (make_mrtrix_seeds.seeds_name (ROI_base f)),
            merged_volume f WM)])
    (txt_name st) (txt_lines st).

Definition with_affine (img : nib.image) (aff : list (list Q)) : nib.image :=
  nib.Nifti1Image (nib.get_data img) aff.

Definition with_ROI_affine (f : ROI_file) (aff : list (list Q)) : ROI_file :=
  mkROI (ROI_path f) (ROI_base f) (with_affine (ROI_vol f) aff).

(** The two volumes are on one voxel grid: same dimensions, same affine
    (hence same voxel size and origin). *)
Definition same_grid (a b : nib.image) : Prop :=
  np.shape (nib.get_data a) = np.shape (nib.get_data b)
  ∧ nib.get_affine a = nib.get_affine b.

Definition identity_affine : list (list Q) :=
  [[1; 0; 0; 0]; [0; 1; 0; 0]; [0; 0; 1; 0]; [0; 0; 0; 1]]%Q.

Definition shifted_affine : list (list Q) :=
  [[2; 0; 0; 10]; [0; 2; 0; 0]; [0; 0; 2; 0]; [0; 0; 0; 1]]%Q.

Definition roi_example : ROI_file :=
  mkROI "/data/roi.nii.gz" "roi"
    (nib.Nifti1Image (np.mk [2; 3]%nat (np.ints np.int16 [2; 0; 5; 2; 5; 9]))
       identity_affine).

Definition roi_example_2 : ROI_file :=
  mkROI "/data/other.nii.gz" "other"
    (nib.Nifti1Image (np.mk [2; 3]%nat (np.ints np.int16 [0; 7; 7; 0; 1; 0]))
       identity_affine).

Definition wm_example : nib.image :=
  nib.Nifti1Image (np.mk [2; 3]%nat (np.ints np.uint8 [1; 1; 0; 0; 1; 0]))
    identity_affine.

Definition wm_shifted : nib.image := with_affine wm_example shifted_affine.

Fixpoint occurs (c : ascii) (s : string) : Prop :=
  match s with
  | EmptyString => False
  | String a s' => a = c ∨ occurs c s'
  end.

Definition roi_other_shape : ROI_file :=
  mkROI "/data/small.nii.gz" "small"
    (nib.Nifti1Image (np.mk [2; 2]%nat (np.ints np.int16 [1; 0; 0; 3]))
       identity_affine).

Definition roi_all_zero : ROI_file :=
  mkROI "/data/empty.nii.gz" "empty"
    (nib.Nifti1Image (np.mk [2; 3]%nat (np.ints np.int16 [0; 0; 0; 0; 0; 0]))
       identity_affine).



Definition roi_bytes : ROI_file :=
  mkROI "/data/bytes.nii.gz" "bytes"
    (nib.Nifti1Image (np.mk [2]%nat (np.ints np.uint8 [3; 2]))
       identity_affine).

Definition wm_bytes : nib.image :=
  nib.Nifti1Image (np.mk [2]%nat (np.ints np.uint8 [86; 0])) identity_affine.


(* ===================================================================== *)
(** ** The other workflows of the tracking stage

    The same model of [nipype.pipeline.engine], generic in the interface
    classes, with what the remaining workflows need on top of it: a
    [MapNode] (a node applied to each element of its [iterfield] inputs),
    a source port read through a function (the tuple form
    [(port, function, args...)] of a connection), and an exception raised
    while the workflow is built. *)
(* ===================================================================== *)

Module pe.

(** Values given to node inputs; [VInts] is a tuple of integers. *)
Inductive value :=
| VBool (b : bool)
| VInt (z : Z)
| VFloat (q : Q)
| VStr (s : string)
| VInts (l : list Z).

#[global] Instance Q_eq_dec : EqDecision Q.
Proof. solve_decision. Defined.

#[global] Instance value_eq_dec : EqDecision value.
Proof. solve_decision. Defined.

Section Engine.
Context {I : Type}.

Record Node := mkNode {
  node_interface : I;
  node_name : string;
  node_inputs : gmap string value;
  node_iterfield : option (list string)   (* [Some] for a [MapNode] *)
}.

(** The source of an edge: an output port, possibly read through a named
    function applied to further arguments. *)
Inductive source :=
| Port (p : string)
| Through (p : string) (function : string) (args : list value).

Definition source_port (s : source) : string :=
  match s with Port p => p | Through p _ _ => p end.

Record edge := mkEdge {
  edge_src : string;
  edge_source : source;
  edge_dst : string;
  edge_dst_port : string
}.

Record Workflow := mkWorkflow {
  flow_name : string;
  flow_nodes : list string;
  flow_edges : list edge
}.

Record world := mkWorld {
  objects : gmap string Node;
  flow : Workflow
}.

(** Building a workflow either fails with an exception or goes on. *)
Inductive build_error :=
| UnboundLocalError (variable : string).

Definition M (A : Type) : Type := world -> build_error + (A * world).

Definition ret {A} (a : A) : M A := fun w => inr (a, w).

Definition bind {A B} (m : M A) (k : A -> M B) : M B :=
  fun w => match m w with
           | inl e => inl e
           | inr (a, w') => k a w'
           end.

Definition raise {A} (e : build_error) : M A := fun _ => inl e.

Definition exec {A} (m : M A) (w : world) : build_error + world :=
  match m w with
  | inl e => inl e
  | inr (_, w') => inr w'
  end.

Definition Workflow_new (name : string) : world :=
  mkWorld ∅ (mkWorkflow name [] []).

(** [pe.Node(interface=i(kw), name=n)] *)
Definition Node_new (i : I) (kw : list (string * value))
    (name : string) : M string :=
  fun w =>
    inr (name,
         mkWorld (<[name := mkNode i name (list_to_map kw) None]> (objects w))
                 (flow w)).

(** [pe.MapNode(interface=i(kw), iterfield=fields, name=n)] *)
Definition MapNode_new (i : I) (kw : list (string * value))
    (iterfield : list string) (name : string) : M string :=
  fun w =>
    inr (name,
         mkWorld (<[name := mkNode i name (list_to_map kw) (Some iterfield)]>
                    (objects w))
                 (flow w)).

(** [node.inputs.field = v] *)
Definition set_input (ref field : string) (v : value) : M unit :=
  fun w =>
    inr (tt,
         mkWorld
           (alter (fun n => mkNode (node_interface n) (node_name n)
                                   (<[field := v]> (node_inputs n))
                                   (node_iterfield n))
                  ref (objects w))
           (flow w)).

Definition connection : Type := string * string * list (source * string).

Definition connect1 (g : Workflow) (c : connection) : Workflow :=
  let '(s, d, ports) := c in
  mkWorkflow (flow_name g)
    (nipype.add_node d (nipype.add_node s (flow_nodes g)))
    (flow_edges g ++ map (fun p => mkEdge s (fst p) d (snd p)) ports).

(** [flow.connect([...])] *)
Definition connect (cs : list connection) : M unit :=
  fun w => inr (tt, mkWorld (objects w) (foldl connect1 (flow w) cs)).

(** Reading the compiled graph. *)
Definition input_of (w : world) (n field : string) : option value :=
  match objects w !! n with
  | Some nd => node_inputs nd !! field
  | None => None
  end.

Definition interface_of (w : world) (n : string) : option I :=
  node_interface <$> objects w !! n.

Definition iterfield_of (w : world) (n : string) : option (list string) :=
  match objects w !! n with
  | Some nd => node_iterfield nd
  | None => None
  end.

Definition edges_into_port (w : world) (n p : string) : list edge :=
  filter (fun e => edge_dst e = n ∧ edge_dst_port e = p)
         (flow_edges (flow w)).

Definition edges_from (w : world) (n : string) : list edge :=
  filter (fun e => edge_src e = n) (flow_edges (flow w)).

Definition edges_into (w : world) (n : string) : list edge :=
  filter (fun e => edge_dst e = n) (flow_edges (flow w)).

Inductive path (g : Workflow) : string -> string -> Prop :=
| path_edge e : e ∈ flow_edges g -> path g (edge_src e) (edge_dst e)
| path_step e b :
    e ∈ flow_edges g -> path g (edge_dst e) b -> path g (edge_src e) b.

Definition input_ports (w : world) : list (string * string) :=
  map (fun e => (edge_dst e, edge_dst_port e)) (flow_edges (flow w)).

(** Names are unique, no input port is connected twice, every edge joins
    two stages of the graph, and every stage has its node object. *)
Definition well_wired (w : world) : Prop :=
  NoDup (flow_nodes (flow w))
  ∧ NoDup (input_ports w)
  ∧ Forall (fun e => edge_src e ∈ flow_nodes (flow w)
                     ∧ edge_dst e ∈ flow_nodes (flow w))
           (flow_edges (flow w))
  ∧ Forall (fun n => is_Some (objects w !! n)) (flow_nodes (flow w)).

End Engine.

Arguments Node : clear implicits.
Arguments edge : clear implicits.
Arguments Workflow : clear implicits.
Arguments world : clear implicits.
Arguments M : clear implicits.

End pe.

#[global] Instance pe_source_eq_dec : EqDecision pe.source.
Proof. solve_decision. Defined.

#[global] Instance pe_edge_eq_dec : EqDecision pe.edge.
Proof. solve_decision. Defined.

Declare Scope build_scope.
Delimit Scope build_scope with build.
Notation "x <- m ;; k" := (pe.bind m (fun x => k))
  (at level 100, m at next level, right associativity) : build_scope.
Notation "m ;; k" := (pe.bind m (fun _ => k))
  (at level 100, right associativity) : build_scope.

Module Camino_tracking_config.

(** [pdf = Enum(['bingham', 'watson', 'acg'])] *)
Inductive pdf_kind := bingham | watson | acg.

Definition pdf_str (p : pdf_kind) : string :=
  match p with
  | bingham => "bingham"
  | watson => "watson"
  | acg => "acg"
  end.

#[global] Instance pdf_kind_eq_dec : EqDecision pdf_kind.
Proof. solve_decision. Defined.

Record t := mk {
  imaging_model : string;
  tracking_mode : string;
  inversion_index : Z;
  fallback_index : Z;
  angle : Q;
  cross_angle : Q;
  trace : Q;
  tracking_model : string;
  snr : Q;
  iterations : Z;
  pdf : pdf_kind
}.

Definition default : t := {|
  imaging_model := "";
  tracking_mode := "";
  inversion_index := 1;
  fallback_index := 1;
  angle := 60%Q;
  cross_angle := 20%Q;
  trace := (21 # 10000000000)%Q;
  tracking_model := "dt";
  snr := 20%Q;
  iterations := 50;
  pdf := bingham
|}.

End Camino_tracking_config.

Module FSL_tracking_config.

Record t := mk {
  number_of_samples : Z;
  number_of_steps : Z;
  distance_threshold : Q;
  curvature_threshold : Q
}.

Definition default : t := mk 5000 2000 0%Q (2 # 10)%Q.

End FSL_tracking_config.

Module Gibbs_tracking_config.

Record t := mk {
  iterations : Z;
  particle_length : Q;
  particle_width : Q;
  particle_weight : Q;
  temp_start : Q;
  temp_end : Q;
  inexbalance : Z;
  fiber_length : Q;
  curvature_threshold : Q
}.

Definition default : t :=
  mk 100000000 (15 # 10)%Q (5 # 10)%Q (3 # 10000)%Q (1 # 10)%Q (1 # 1000)%Q
     (-2) 20%Q 90%Q.

End Gibbs_tracking_config.

Module DTB_tracking_config.

Record t := mk {
  imaging_model : string;
  flip_input : list string;
  angle : Z;
  step_size : Q;
  seeds : Z
}.

Definition default : t := mk "" [] 60 1%Q 32.

End DTB_tracking_config.

Module flows.

(** The interface classes of the four workflows. *)
Inductive interface :=
| IdentityInterface (fields : list string)
| make_seeds
| match_orientations
| camino_Track
| camino_DTLUTGen
| camino_PicoPDFs
| camino_TrackPICo
| Camino2Trackvis
| util_Merge (numinputs : Z)
| mapped_ProbTrackX
| gibbs_tracking
| DTB_dtk2dir
| fs_MRIConvert
| StreamlineAndFilter.

#[global] Instance interface_eq_dec : EqDecision interface.
Proof. solve_decision. Defined.

Abbreviation graph := (pe.world interface).
Abbreviation build := (pe.M interface).

Section Flows.
Import pe.
Local Open Scope build_scope.

(** The three [if config.pdf == ...] statements on a lookup-table node. *)
Definition set_pdf_flag (node : string) (p : Camino_tracking_config.pdf_kind)
    : build unit :=
  (if decide (p = Camino_tracking_config.bingham)
   then set_input node "bingham" (VBool true) else ret tt) ;;
  (if decide (p = Camino_tracking_config.watson)
   then set_input node "watson" (VBool true) else ret tt) ;;
  (if decide (p = Camino_tracking_config.acg)
   then set_input node "acg" (VBool true) else ret tt).

(** [create_camino_tracking_flow(config)] *)
Definition create_camino_tracking_flow (config : Camino_tracking_config.t)
    : build_error + graph :=
  let cfg_mode := Camino_tracking_config.tracking_mode config in
  let index := Camino_tracking_config.inversion_index config in
  exec (
    inputnode <- Node_new
      (IdentityInterface ["DWI"; "wm_mask_resampled"; "gm_registered"; "grad"])
      [] "inputnode" ;;
    outputnode <- Node_new (IdentityInterface ["track_file"]) []
      "outputnode" ;;
    if String.eqb cfg_mode "Deterministic" then
      camino_tracking <- Node_new camino_Track [] "camino_tracking" ;;
      set_input camino_tracking "curvethresh"
        (VFloat (Camino_tracking_config.angle config)) ;;
      set_input camino_tracking "inputmodel"
        (VStr (Camino_tracking_config.tracking_model config)) ;;
      set_input camino_tracking "anisthresh" (VFloat (1 # 2)) ;;
      (if 10 <=? index
       then set_input camino_tracking "inputmodel" (VStr "multitensor")
       else ret tt) ;;
      (if 100 <? index
       then set_input camino_tracking "maxcomponents" (VInt 3)
       else ret tt) ;;
      converter <- Node_new Camino2Trackvis [] "trackvis" ;;
      set_input converter "phys_coords" (VBool true) ;;
      connect [
        (inputnode, camino_tracking, [(Port "DWI", "in_file")]);
        (inputnode, camino_tracking, [(Port "wm_mask_resampled", "seed_file")]);
        (inputnode, camino_tracking, [(Port "wm_mask_resampled", "anisfile")]);
        (camino_tracking, converter, [(Port "tracked", "in_file")]);
        (inputnode, converter, [(Port "wm_mask_resampled", "nifti_file")]);
        (converter, outputnode, [(Port "trackvis", "track_file")])
      ]
    else if String.eqb cfg_mode "Probabilistic" then
      camino_seeds <- Node_new make_seeds [] "camino_seeds" ;;
      dtlutgen <- Node_new camino_DTLUTGen [] "dtlutgen" ;;
      connect [(inputnode, dtlutgen, [(Port "grad", "scheme_file")])] ;;
      set_input dtlutgen "snr" (VFloat (Camino_tracking_config.snr config)) ;;
      set_input dtlutgen "inversion" (VInt index) ;;
      set_input dtlutgen "trace"
        (VFloat (Camino_tracking_config.trace config)) ;;
      set_pdf_flag dtlutgen (Camino_tracking_config.pdf config) ;;
      (if 10 <=? index then
         set_input dtlutgen "cross"
           (VFloat (Camino_tracking_config.cross_angle config)) ;;
         dtlutgen2 <- Node_new camino_DTLUTGen [] "dtlutgen2" ;;
         connect [(inputnode, dtlutgen2, [(Port "grad", "scheme_file")])] ;;
         set_input dtlutgen2 "snr"
           (VFloat (Camino_tracking_config.snr config)) ;;
         set_input dtlutgen2 "inversion"
           (VInt (Camino_tracking_config.fallback_index config)) ;;
         set_input dtlutgen2 "trace"
           (VFloat (Camino_tracking_config.trace config)) ;;
         set_pdf_flag dtlutgen2 (Camino_tracking_config.pdf config)
       else ret tt) ;;
      picopdf <- Node_new camino_PicoPDFs [] "picopdf" ;;
      set_input picopdf "pdf"
        (VStr (Camino_tracking_config.pdf_str
                 (Camino_tracking_config.pdf config))) ;;
      (if 10 <=? index then
         set_input picopdf "inputmodel" (VStr "multitensor") ;;
         merge <- Node_new (util_Merge 2) [] "merge_LUTs" ;;
         connect [
           ("dtlutgen2", merge, [(Port "dtLUT", "in1")]);
           (dtlutgen, merge, [(Port "dtLUT", "in2")]);
           (merge, picopdf, [(Port "out", "luts")])
         ]
       else
         set_input picopdf "inputmodel" (VStr "dt") ;;
         connect [(dtlutgen, picopdf, [(Port "dtLUT", "luts")])]) ;;
      camino_tracking <- MapNode_new camino_TrackPICo [] ["seed_file"]
        "camino_tracking" ;;
      set_input camino_tracking "curvethresh"
        (VFloat (Camino_tracking_config.angle config)) ;;
      set_input camino_tracking "inputmodel"
        (VStr (Camino_tracking_config.tracking_model config)) ;;
      set_input camino_tracking "anisthresh" (VFloat (1 # 2)) ;;
      set_input camino_tracking "iterations"
        (VInt (Camino_tracking_config.iterations config)) ;;
      set_input camino_tracking "pdf"
        (VStr (Camino_tracking_config.pdf_str
                 (Camino_tracking_config.pdf config))) ;;
      (if (10 <=? index) && (index <? 100)
       then set_input camino_tracking "numpds" (VInt 2)
       else set_input camino_tracking "numpds" (VInt 3)) ;;
      converter <- MapNode_new Camino2Trackvis [] ["in_file"] "trackvis" ;;
      set_input converter "phys_coords" (VBool true) ;;
      connect [
        (inputnode, camino_seeds, [(Port "wm_mask_resampled", "WM_file")]);
        (inputnode, camino_seeds, [(Port "gm_registered", "ROI_files")]);
        (inputnode, picopdf, [(Port "DWI", "in_file")]);
        (picopdf, camino_tracking, [(Port "pdfs", "in_file")]);
        (camino_seeds, camino_tracking, [(Port "seed_files", "seed_file")]);
        (inputnode, camino_tracking, [(Port "wm_mask_resampled", "anisfile")]);
        (camino_tracking, converter, [(Port "tracked", "in_file")]);
        (inputnode, converter, [(Port "wm_mask_resampled", "nifti_file")]);
        (converter, outputnode, [(Port "trackvis", "track_file")])
      ]
    else ret tt
  ) (Workflow_new "tracking").

(** [create_fsl_tracking_flow(config)] *)
Definition create_fsl_tracking_flow (config : FSL_tracking_config.t)
    : build_error + graph :=
  exec (
    inputnode <- Node_new
      (IdentityInterface
         ["phsamples"; "fsamples"; "thsamples"; "wm_mask_resampled";
          "gm_registered"])
      [] "inputnode" ;;
    outputnode <- Node_new (IdentityInterface ["targets"]) [] "outputnode" ;;
    fsl_seeds <- Node_new make_seeds [] "fsl_seeds" ;;
    probtrackx <- MapNode_new mapped_ProbTrackX [] ["seed"] "probtrackx" ;;
    set_input probtrackx "n_samples"
      (VInt (FSL_tracking_config.number_of_samples config)) ;;
    set_input probtrackx "n_steps"
      (VInt (FSL_tracking_config.number_of_steps config)) ;;
    set_input probtrackx "dist_thresh"
      (VFloat (FSL_tracking_config.distance_threshold config)) ;;
    set_input probtrackx "c_thresh"
      (VFloat (FSL_tracking_config.curvature_threshold config)) ;;
    set_input probtrackx "loop_check" (VBool true) ;;
    set_input probtrackx "opd" (VBool false) ;;
    set_input probtrackx "os2t" (VBool true) ;;
    set_input probtrackx "s2tastext" (VBool true) ;;
    set_input probtrackx "network" (VBool false) ;;
    set_input probtrackx "mode" (VStr "seedmask") ;;
    set_input probtrackx "force_dir" (VBool true) ;;
    connect [
      (inputnode, fsl_seeds, [(Port "wm_mask_resampled", "WM_file")]);
      (inputnode, fsl_seeds, [(Port "gm_registered", "ROI_files")]);
      (fsl_seeds, probtrackx, [(Port "seed_files", "seed")]);
      (fsl_seeds, probtrackx, [(Port "seed_files", "target_masks")]);
      (inputnode, probtrackx, [(Port "wm_mask_resampled", "mask")]);
      (inputnode, probtrackx, [(Port "fsamples", "fsamples")]);
      (inputnode, probtrackx, [(Port "phsamples", "phsamples")]);
      (inputnode, probtrackx, [(Port "thsamples", "thsamples")]);
      (probtrackx, outputnode, [(Port "matrix", "targets")])
    ]
  ) (Workflow_new "tracking").

(** [create_gibbs_tracking_flow(config)] *)
Definition create_gibbs_tracking_flow (config : Gibbs_tracking_config.t)
    : build_error + graph :=
  exec (
    inputnode <- Node_new
      (IdentityInterface ["recon_file"; "wm_mask_resampled"]) [] "inputnode" ;;
    outputnode <- Node_new (IdentityInterface ["track_file"; "param_file"])
      [("mandatory_inputs", VBool true)] "outputnode" ;;
    gibbs <- Node_new gibbs_tracking
      [("iterations", VInt (Gibbs_tracking_config.iterations config));
       ("particle_length",
        VFloat (Gibbs_tracking_config.particle_length config));
       ("particle_width",
        VFloat (Gibbs_tracking_config.particle_width config));
       ("particle_weight",
        VFloat (Gibbs_tracking_config.particle_weight config));
       ("temp_start", VFloat (Gibbs_tracking_config.temp_start config));
       ("temp_end", VFloat (Gibbs_tracking_config.temp_end config));
       ("inexbalance", VInt (Gibbs_tracking_config.inexbalance config));
       ("fiber_length", VFloat (Gibbs_tracking_config.fiber_length config));
       ("curvature_threshold",
        VFloat (Gibbs_tracking_config.curvature_threshold config))]
      "gibbs_tracking" ;;
    match_orient <- Node_new match_orientations [] "match_orientations" ;;
    connect [
      (inputnode, gibbs, [(Port "recon_file", "in_file")]);
      (inputnode, gibbs, [(Port "wm_mask_resampled", "mask")]);
      (gibbs, match_orient, [(Port "out_file", "trackvis_file")]);
      (inputnode, match_orient, [(Port "wm_mask_resampled", "ref_image_file")]);
      (match_orient, outputnode, [(Port "out_file", "track_file")]);
      (gibbs, outputnode, [(Port "param_file", "param_file")])
    ]
  ) (Workflow_new "tracking").

(** The local variable [prefix] of [create_dtb_tracking_flow]: assigned by
    whichever of the three [if config.imaging_model == ...] statements
    runs, unbound otherwise. *)
Definition dtb_prefix (imaging_model : string) : option string :=
  let prefix := None in
  let prefix := if String.eqb imaging_model "DSI" then Some "dsi"
                else prefix in
  let prefix := if String.eqb imaging_model "DTI" then Some "dti"
                else prefix in
  let prefix := if String.eqb imaging_model "HARDI" then Some "hardi"
                else prefix in
  prefix.

(** [create_dtb_tracking_flow(config)]; [dirlist] stands for the path that
    [pkg_resources.resource_filename] returns for [181_vecs.dat]. *)
Definition create_dtb_tracking_flow (dirlist : string)
    (config : DTB_tracking_config.t) : build_error + graph :=
  let model := DTB_tracking_config.imaging_model config in
  let flip_input := DTB_tracking_config.flip_input config in
  exec (
    inputnode <- Node_new (IdentityInterface ["DWI"; "wm_mask_registered"])
      [] "inputnode" ;;
    outputnode <- Node_new (IdentityInterface ["track_file"]) []
      "outputnode" ;;
    dtb_dtk2dir <- Node_new DTB_dtk2dir [] "dtb_dtk2dir" ;;
    (if String.eqb model "DSI" then
       set_input dtb_dtk2dir "diffusion_type" (VStr "dsi") ;;
       set_input dtb_dtk2dir "dirlist" (VStr dirlist)
     else ret tt) ;;
    (if String.eqb model "DTI" then
       set_input dtb_dtk2dir "diffusion_type" (VStr "dti")
     else ret tt) ;;
    (if String.eqb model "HARDI" then
       set_input dtb_dtk2dir "diffusion_type" (VStr "dsi") ;;
       set_input dtb_dtk2dir "dirlist" (VStr dirlist)
     else ret tt) ;;
    (if bool_decide ("x" ∈ flip_input)
     then set_input dtb_dtk2dir "invert_x" (VBool true) else ret tt) ;;
    (if bool_decide ("y" ∈ flip_input)
     then set_input dtb_dtk2dir "invert_y" (VBool true) else ret tt) ;;
    (if bool_decide ("z" ∈ flip_input)
     then set_input dtb_dtk2dir "invert_z" (VBool true) else ret tt) ;;
    fs_mriconvert <- Node_new fs_MRIConvert
      [("out_type", VStr "nii"); ("vox_size", VInts [1; 1; 1]);
       ("out_datatype", VStr "uchar"); ("out_file", VStr "fsmask_1mm.nii")]
      "fs_mriconvert" ;;
    streamline_filter <- Node_new StreamlineAndFilter
      [("out_file", VStr "streamline.trk")] "dtb_streamline" ;;
    set_input streamline_filter "angle"
      (VInt (DTB_tracking_config.angle config)) ;;
    set_input streamline_filter "step_size"
      (VFloat (DTB_tracking_config.step_size config)) ;;
    set_input streamline_filter "seeds"
      (VInt (DTB_tracking_config.seeds config)) ;;
    match dtb_prefix model with
    | None => raise (UnboundLocalError "prefix")
    | Some prefix =>
        connect [
          (inputnode, dtb_dtk2dir,
             [(Through "DWI" "strip_suffix" [VStr prefix], "prefix")]);
          (inputnode, fs_mriconvert, [(Port "wm_mask_registered", "in_file")]);
          (dtb_dtk2dir, streamline_filter, [(Port "out_file", "dir_file")]);
          (fs_mriconvert, streamline_filter, [(Port "out_file", "wm_mask")]);
          (streamline_filter, outputnode, [(Port "out_file", "track_file")])
        ]
    end
  ) (Workflow_new "tracking").

(** The graph of a build that went through (the empty workflow stands in
    for a build that raised). *)
Definition built (r : build_error + graph) : graph :=
  match r with
  | inr w => w
  | inl _ => Workflow_new "tracking"
  end.

Definition succeeds (r : build_error + graph) : bool :=
  match r with
  | inr _ => true
  | inl _ => false
  end.

(** A numbering of the stages of the four workflows along which every edge
    goes upwards. *)
Definition stage_rank (n : string) : nat :=
  if decide (n = "inputnode") then 0
  else if decide (n = "merge_LUTs") then 2
  else if decide (n = "picopdf") then 3
  else if decide (n = "camino_tracking") then 4
  else if decide (n = "trackvis") then 5
  else if decide (n = "probtrackx") then 2
  else if decide (n = "match_orientations") then 2
  else if decide (n = "dtb_streamline") then 2
  else if decide (n = "outputnode") then 6
  else 1.

Definition edges_go_up (w : graph) : Prop :=
  Forall (fun e => (stage_rank (edge_src e) < stage_rank (edge_dst e))%nat)
         (flow_edges (flow w)).

End Flows.

End flows.

(* ===================================================================== *)
(** * Properties *)
(* ===================================================================== *)

Local Open Scope list_scope.

Section MRtrix_config_properties.
Import MRtrix_tracking_config.

Lemma set_curvature_enough_fuel (n : nat) (self : t) (v : Q) :
  set_curvature (S (S (S n))) self v
  = Some (store_curvature self (snap (curvature self) v)).
Proof.
  unfold snap. cbn [set_curvature].
  destruct (Qeq_bool (curvature self) v) eqn:Hsame; [reflexivity|].
  unfold _curvature_changed.
  destruct (Qle_bool v epsilon) eqn:Hle; [|reflexivity].
  cbn [curvature store_curvature].
  destruct (Qeq_bool v 0) eqn:Hz; reflexivity.
Qed.

Lemma set_curvature_fuel (fuel : nat) (self : t) (v : Q) :
  (3 <= fuel)%nat ->
  set_curvature fuel self v
  = Some (store_curvature self (snap (curvature self) v)).
Proof.
  intros Hf. destruct fuel as [|[|[|n]]]; try lia.
  apply set_curvature_enough_fuel.
Qed.

Lemma snap_literal (old v : Q) :
  Qle_bool v epsilon = false -> snap old v = v.
Proof. intros H. unfold snap. rewrite H. destruct (Qeq_bool old v); reflexivity. Qed.

Lemma snap_zero (old : Q) : snap old 0 = 0%Q.
Proof. unfold snap. destruct (Qeq_bool old 0); reflexivity. Qed.

Lemma snap_small (old v : Q) :
  (old == 0 \/ epsilon < old)%Q -> (v <= epsilon)%Q -> (snap old v == 0)%Q.
Proof.
  intros Hold Hv. unfold snap.
  destruct (Qeq_bool old v) eqn:Hsame.
  - apply Qeq_bool_iff in Hsame. destruct Hold as [H0|Hbig].
    + rewrite <- Hsame. exact H0.
    + exfalso. rewrite Hsame in Hbig. apply (Qlt_not_le _ _ Hbig Hv).
  - apply Qle_bool_iff in Hv. rewrite Hv. reflexivity.
Qed.

Lemma snap_snapped (old v : Q) :
  (old == 0 \/ epsilon < old)%Q ->
  (snap old v == 0 \/ epsilon < snap old v)%Q.
Proof.
  intros Hold. destruct (Qle_bool v epsilon) eqn:Hle.
  - left. apply snap_small; [exact Hold|]. by apply Qle_bool_iff.
  - right. rewrite snap_literal by exact Hle.
    apply Qnot_le_lt. intros H. apply Qle_bool_iff in H. congruence.
Qed.

Lemma set_curvature_result (fuel : nat) (self self' : t) (v : Q) :
  set_curvature fuel self v = Some self' ->
  self' = store_curvature self (snap (curvature self) v).
Proof.
  destruct fuel as [|[|[|n]]].
  - discriminate.
  - unfold snap. cbn [set_curvature]. unfold _curvature_changed.
    destruct (Qeq_bool (curvature self) v); [congruence|].
    destruct (Qle_bool v epsilon); cbn [set_curvature]; congruence.
  - unfold snap. cbn [set_curvature]. unfold _curvature_changed.
    destruct (Qeq_bool (curvature self) v); [congruence|].
    destruct (Qle_bool v epsilon); [|congruence].
    cbn [curvature store_curvature].
    destruct (Qeq_bool v 0); [intros [= <-]; reflexivity|].
    cbn. discriminate.
  - rewrite set_curvature_enough_fuel. congruence.
Qed.

Lemma set_curvature_snapped (fuel : nat) (self self' : t) (v : Q) :
  curvature_snapped self -> set_curvature fuel self v = Some self' ->
  curvature_snapped self'.
Proof.
  intros Hinv H. apply set_curvature_result in H. subst self'.
  unfold curvature_snapped. cbn [curvature store_curvature].
  by apply snap_snapped.
Qed.

Lemma setattr_snapped (fuel : nat) (self self' : t) (w : write) :
  curvature_snapped self -> setattr fuel self w = Some self' ->
  curvature_snapped self'.
Proof.
  intros Hinv. destruct w; cbn [setattr];
    try (intros [= <-]; exact Hinv).
  - unfold set_tracking_mode, _tracking_mode_changed.
    repeat match goal with |- context [if ?b then _ else _] => destruct b end;
      try (intros [= <-]; exact Hinv);
      apply set_curvature_snapped; exact Hinv.
  - unfold set_SD, _SD_changed.
    repeat match goal with |- context [if ?b then _ else _] => destruct b end;
      try (intros [= <-]; exact Hinv);
      apply set_curvature_snapped; exact Hinv.
  - apply set_curvature_snapped; exact Hinv.
  - intros [= <-]. unfold set_use_act, _use_act_changed.
    repeat match goal with |- context [if ?b then _ else _] => destruct b end;
      exact Hinv.
Qed.

Lemma reachable_snapped (self : t) : reachable self -> curvature_snapped self.
Proof.
  induction 1 as [|self w fuel self' _ IH Hw].
  - right. reflexivity.
  - exact (setattr_snapped _ _ _ _ IH Hw).
Qed.

Lemma derived_after_handler (fuel : nat) (self : t) :
  (3 <= fuel)%nat ->
  ∃ self',
    (if String.eqb (tracking_mode self) "Deterministic" && negb (SD self)
     then set_curvature fuel self 2%Q
     else if String.eqb (tracking_mode self) "Deterministic" && SD self
     then set_curvature fuel self 0%Q
     else if String.eqb (tracking_mode self) "Probabilistic"
     then set_curvature fuel self 1%Q
     else Some self) = Some self'
    /\ SD self' = SD self /\ tracking_mode self' = tracking_mode self
    /\ derived_curvature self'.
Proof.
  intros Hf. unfold derived_curvature.
  destruct (String.eqb_spec (tracking_mode self) "Deterministic") as [Hd|Hd];
    [destruct (SD self) eqn:HSD|
     destruct (String.eqb_spec (tracking_mode self) "Probabilistic") as [Hp|Hp]];
    cbn [andb negb]; rewrite ?set_curvature_fuel by exact Hf;
    eexists; (split; [reflexivity|]);
    cbn [SD tracking_mode curvature store_curvature];
    rewrite ?snap_zero, ?snap_literal by reflexivity;
    repeat split; try congruence.
  all: intros; try congruence.
  all: rewrite Hd in *; discriminate.
Qed.

(** C2.  On an [MRtrix_tracking_config] (the configuration class that
    declares a [curvature] trait), a write that changes [SD] or
    [tracking_mode] runs to completion and leaves the derived curvature:
    2.0 for Deterministic without SD, 0.0 for Deterministic with SD, 1.0
    for Probabilistic; and a write of a curvature [v <= 0.000001] leaves
    a curvature equal to 0.0. *)
Theorem curvature_follows_mode_and_SD (self : t) (fuel : nat) :
  reachable self -> (3 <= fuel)%nat ->
  (∀ new : bool, SD self ≠ new ->
     ∃ self', set_SD fuel self new = Some self'
       /\ SD self' = new /\ tracking_mode self' = tracking_mode self
       /\ derived_curvature self')
  /\ (∀ new : string, tracking_mode self ≠ new ->
     ∃ self', set_tracking_mode fuel self new = Some self'
       /\ tracking_mode self' = new /\ SD self' = SD self
       /\ derived_curvature self')
  /\ (∀ v : Q, (v <= epsilon)%Q ->
     ∃ self', set_curvature fuel self v = Some self'
       /\ (curvature self' == 0)%Q).
Proof.
  intros Hreach Hfuel. split; [|split].
  - intros new Hnew. unfold set_SD, _SD_changed.
    destruct (Bool.eqb (SD self) new) eqn:Heq.
    { apply Bool.eqb_prop in Heq. contradiction. }
    destruct (derived_after_handler fuel (store_SD self new) Hfuel)
      as (self' & Hrun & HSD & Hmode & Hcurv).
    exists self'. cbn [SD tracking_mode store_SD] in *. auto.
  - intros new Hnew. unfold set_tracking_mode, _tracking_mode_changed.
    destruct (String.eqb_spec (tracking_mode self) new) as [Heq|_];
      [contradiction|].
    destruct (derived_after_handler fuel (store_tracking_mode self new) Hfuel)
      as (self' & Hrun & HSD & Hmode & Hcurv).
    exists self'. cbn [SD tracking_mode store_tracking_mode] in *. auto.
  - intros v Hv. rewrite set_curvature_fuel by exact Hfuel.
    eexists. split; [reflexivity|]. cbn [curvature store_curvature].
    apply snap_small; [|exact Hv]. exact (reachable_snapped self Hreach).
Qed.

Lemma curvature_follows_mode_and_SD_witness :
  (∃ s1, set_tracking_mode 3 default "Deterministic" = Some s1
     /\ curvature s1 = 2%Q
     /\ ∃ s2, set_SD 3 s1 true = Some s2 /\ curvature s2 = 0%Q
     /\ ∃ s3, set_tracking_mode 3 s2 "Probabilistic" = Some s3
              /\ curvature s3 = 1%Q)
  /\ (∃ s4, set_curvature 3 default (1 # 2000000)%Q = Some s4
            /\ (curvature s4 == 0)%Q).
Proof.
  assert (H3 : (3 <= 3)%nat) by lia.
  split.
  - destruct (curvature_follows_mode_and_SD default 3 reachable_default H3)
      as (_ & Hmode & _).
    destruct (Hmode "Deterministic") as (s1 & Hs1 & Hm1 & HSD1 & Hd1 & _ & _);
      [discriminate|].
    exists s1. split; [exact Hs1|]. split; [exact (Hd1 Hm1 HSD1)|].
    assert (Hr1 : reachable s1)
      by exact (reachable_setattr default (W_tracking_mode "Deterministic")
                  3 s1 reachable_default Hs1).
    destruct (curvature_follows_mode_and_SD s1 3 Hr1 H3) as (HSD & _ & _).
    destruct (HSD true) as (s2 & Hs2 & HSD2 & Hm2 & _ & Hd2 & _).
    { rewrite HSD1. discriminate. }
    exists s2. split; [exact Hs2|].
    split; [apply Hd2; [rewrite Hm2; exact Hm1 | exact HSD2]|].
    assert (Hr2 : reachable s2)
      by exact (reachable_setattr s1 (W_SD true) 3 s2 Hr1 Hs2).
    destruct (curvature_follows_mode_and_SD s2 3 Hr2 H3) as (_ & Hmode2 & _).
    destruct (Hmode2 "Probabilistic") as (s3 & Hs3 & Hm3 & _ & _ & _ & Hd3).
    { rewrite Hm2, Hm1. discriminate. }
    exists s3. split; [exact Hs3 | exact (Hd3 Hm3)].
  - destruct (curvature_follows_mode_and_SD default 3 reachable_default H3)
      as (_ & _ & Hcurv).
    apply Hcurv. unfold epsilon, Qle. simpl. lia.
Defined.

(** C3 as stated fails: constructing with [use_act=False] and then
    writing [backtrack=True] gives an object with [use_act = False] and
    [backtrack = True]. *)
Lemma act_flags_not_invariant :
  ∃ self, setattrs 3 default [W_use_act false; W_backtrack true] = Some self
    /\ reachable self
    /\ use_act self = false /\ backtrack self = true
    /\ ¬ act_flags_forced self.
Proof.
  eexists. split; [reflexivity|]. split; [|split; [reflexivity|split; [reflexivity|]]].
  - eapply (reachable_setattr _ (W_backtrack true) 3); [|reflexivity].
    eapply (reachable_setattr _ (W_use_act false) 3); [|reflexivity].
    apply reachable_default.
  - intros H. destruct H as (_ & _ & H); [reflexivity|]. discriminate H.
Qed.

(** C3, amended.  The default object has [use_act = True]; a write that
    switches [use_act] from [True] to [False] sets [crop_at_gmwmi],
    [seed_from_gmwmi] and [backtrack] to [False]; a write of [use_act] that
    does not change it leaves the three flags alone; and a later write of
    one of the three flags is stored as given (last write wins). *)
Theorem use_act_switched_off_resets_flags :
  use_act default = true
  /\ (∀ self, use_act self = true ->
        let self' := set_use_act self false in
        use_act self' = false /\ crop_at_gmwmi self' = false
        /\ seed_from_gmwmi self' = false /\ backtrack self' = false)
  /\ (∀ self v, use_act self = v -> 
        let self' := set_use_act self v in
        crop_at_gmwmi self' = crop_at_gmwmi self
        /\ seed_from_gmwmi self' = seed_from_gmwmi self
        /\ backtrack self' = backtrack self)
  /\ (∀ self v,
        backtrack (store_backtrack self v) = v
        /\ crop_at_gmwmi (store_crop_at_gmwmi self v) = v
        /\ seed_from_gmwmi (store_seed_from_gmwmi self v) = v
        /\ use_act (store_backtrack self v) = use_act self
        /\ use_act (store_crop_at_gmwmi self v) = use_act self
        /\ use_act (store_seed_from_gmwmi self v) = use_act self).
Proof.
  split; [reflexivity|]. split; [|split].
  - intros self Hact. unfold set_use_act, _use_act_changed.
    rewrite Hact. cbn. auto.
  - intros self v Hact. unfold set_use_act. rewrite Hact.
    rewrite Bool.eqb_reflx. cbn. auto.
  - intros self v. cbn. auto 7.
Qed.

Lemma use_act_switched_off_resets_flags_witness :
  let self' := set_use_act default false in
  use_act self' = false /\ crop_at_gmwmi self' = false
  /\ seed_from_gmwmi self' = false /\ backtrack self' = false.
Proof.
  destruct use_act_switched_off_resets_flags as (_ & H & _).
  apply (H default). reflexivity.
Defined.

End MRtrix_config_properties.

Section Workflow_properties.
Import nipype.

Lemma path_first_edge (g : Workflow) (a b : string) :
  path g a b -> ∃ e, e ∈ flow_edges g ∧ edge_src e = a.
Proof. destruct 1 as [e He|e b He _]; exists e; split; auto. Qed.

Lemma no_edge_no_path (w : world) (a b : string) :
  edges_from w a = [] -> ¬ path (flow w) a b.
Proof.
  intros Hnone Hp. destruct (path_first_edge _ _ _ Hp) as (e & He & Hsrc).
  assert (Hin : e ∈ edges_from w a).
  { unfold edges_from. apply list_elem_of_filter. split; assumption. }
  rewrite Hnone in Hin. by apply not_elem_of_nil in Hin.
Qed.

Ltac case_config_strings :=
  repeat match goal with
  | |- context [String.eqb ?a ?b] =>
      let E := fresh "E" in destruct (String.eqb_spec a b) as [E|E]
  end.

(** C1.  [create_dipy_tracking_flow] dispatches on [SD] and the imaging
    model.  Without SD and with a model other than DSI the graph has no
    [make_seeds] stage and exactly one tracking stage, all of whose inputs
    come from [inputnode].  Otherwise, for the tracking modes Deterministic
    and Probabilistic, the graph has a [make_seeds] stage and exactly one
    tracking stage, a [DirectionGetterTractography], whose [recon_model] is
    SHORE for DSI and CSD (with [recon_order = sh_order]) otherwise, and
    whose [algo] is 'deterministic' resp. 'probabilistic'. *)
Theorem dipy_flow_dispatch (config : Dipy_tracking_config.t) :
  let w := create_dipy_tracking_flow config in
  let model := Dipy_tracking_config.imaging_model config in
  let mode := Dipy_tracking_config.tracking_mode config in
  (Dipy_tracking_config.SD config = false -> model ≠ "DSI" ->
     ¬ has_stage w make_seeds
     /\ tracking_stages w = ["dipy_dtieudx_tracking"]
     /\ interface_of w "dipy_dtieudx_tracking"
        = Some TensorInformedEudXTractography
     /\ edges_into w "dipy_dtieudx_tracking" ≠ []
     /\ Forall (fun e => edge_src e = "inputnode")
               (edges_into w "dipy_dtieudx_tracking"))
  /\ (¬ (Dipy_tracking_config.SD config = false /\ model ≠ "DSI") ->
      mode = "Deterministic" \/ mode = "Probabilistic" ->
      has_stage w make_seeds
      /\ ∃ t, tracking_stages w = [t]
         /\ interface_of w t = Some DirectionGetterTractography
         /\ (model = "DSI" ->
             input_of w t "recon_model" = Some (VStr "SHORE"))
         /\ (model ≠ "DSI" ->
             input_of w t "recon_model" = Some (VStr "CSD")
             /\ input_of w t "recon_order"
                = Some (VInt (Dipy_tracking_config.sh_order config)))
         /\ (mode = "Deterministic" ->
             input_of w t "algo" = Some (VStr "deterministic"))
         /\ (mode = "Probabilistic" ->
             input_of w t "algo" = Some (VStr "probabilistic"))).
Proof.
  destruct config as [model mode sd seeds fa step ang order act classes].
  cbn [Dipy_tracking_config.SD Dipy_tracking_config.imaging_model
       Dipy_tracking_config.tracking_mode Dipy_tracking_config.sh_order].
  split.
  - intros -> Hmodel. unfold create_dipy_tracking_flow.
    cbn [Dipy_tracking_config.SD Dipy_tracking_config.imaging_model
         Dipy_tracking_config.tracking_mode negb andb].
    destruct (String.eqb_spec model "DSI") as [E|_]; [contradiction|].
    cbn [negb andb].
    split; [|split; [|split; [|split]]].
    + intros H. apply H. vm_compute. reflexivity.
    + vm_compute. reflexivity.
    + vm_compute. reflexivity.
    + vm_compute. discriminate.
    + vm_compute. repeat constructor.
  - intros Hcsd Hmode. unfold create_dipy_tracking_flow.
    cbn [Dipy_tracking_config.SD Dipy_tracking_config.imaging_model
         Dipy_tracking_config.tracking_mode].
    assert (Hbranch : negb sd && negb (String.eqb model "DSI") = false).
    { destruct sd; [reflexivity|]. cbn [negb andb].
      destruct (String.eqb_spec model "DSI") as [_|E]; [reflexivity|].
      exfalso. apply Hcsd. split; [reflexivity | exact E]. }
    rewrite Hbranch. clear Hbranch Hcsd.
    destruct Hmode as [-> | ->]; cbn [String.eqb Ascii.eqb Bool.eqb];
      (destruct (String.eqb_spec model "DSI") as [E|E];
       (split; [vm_compute; discriminate|]);
       eexists; (split; [vm_compute; reflexivity|]);
       (split; [vm_compute; reflexivity|]);
       (split; [intros ?; try contradiction; vm_compute; reflexivity|]);
       (split; [intros ?; try contradiction;
                split; vm_compute; reflexivity|]);
       split; intros ?; try discriminate; vm_compute; reflexivity).
Qed.

Lemma dipy_flow_dispatch_witness :
  (¬ has_stage (create_dipy_tracking_flow dti_tensor) make_seeds
   /\ tracking_stages (create_dipy_tracking_flow dti_tensor)
      = ["dipy_dtieudx_tracking"])
  /\ (has_stage (create_dipy_tracking_flow dti_csd) make_seeds
      /\ ∃ t, tracking_stages (create_dipy_tracking_flow dti_csd) = [t]
           /\ input_of (create_dipy_tracking_flow dti_csd) t "recon_model"
              = Some (VStr "CSD")
           /\ input_of (create_dipy_tracking_flow dti_csd) t "algo"
              = Some (VStr "deterministic")).
Proof.
  split.
  - destruct (dipy_flow_dispatch dti_tensor) as [Htensor _].
    destruct Htensor as (Hseeds & Htrack & _); [reflexivity|discriminate|].
    split; assumption.
  - destruct (dipy_flow_dispatch dti_csd) as [_ Hcsd].
    destruct Hcsd as (Hseeds & t & Ht & _ & _ & Hrecon & Hdet & _).
    + intros [Hsd _]. discriminate Hsd.
    + left. reflexivity.
    + split; [exact Hseeds|]. exists t. split; [exact Ht|].
      split; [apply Hrecon; discriminate | apply Hdet; reflexivity].
Defined.

(** C9.  In every graph [create_mrtrix_tracking_flow] builds, no edge
    leaves the [mrtrix_seeds] stage, so nothing is reachable from it; every
    edge into a seed input comes from [inputnode]; and in the Deterministic
    and Probabilistic modes the only seed edge of the tracking stage is
    [inputnode.wm_mask_resampled -> seed_file], or
    [inputnode.gmwmi_registered -> seed_gmwmi] when [seed_from_gmwmi] is
    set. *)
Theorem mrtrix_seeds_output_unused (config : MRtrix_tracking_config.t) :
  let w := create_mrtrix_tracking_flow config in
  let mode := MRtrix_tracking_config.tracking_mode config in
  edges_from w "mrtrix_seeds" = []
  /\ (∀ b, ¬ path (flow w) "mrtrix_seeds" b)
  /\ Forall (fun e => edge_src e = "inputnode") (seed_edges w)
  /\ (mode = "Deterministic" \/ mode = "Probabilistic" ->
      stages_of w make_mrtrix_seeds = ["mrtrix_seeds"]
      /\ ∃ t, tracking_stages w = [t]
           /\ interface_of w t = Some StreamlineTrack
           /\ seed_edges w = [seed_edge config t]).
Proof.
  destruct config as
    [mode sd tracks curv step minl maxl ang cut act gmwmi crop back].
  cbn [MRtrix_tracking_config.tracking_mode
         MRtrix_tracking_config.curvature].
  assert (Hfrom : ∀ w : world,
             w = create_mrtrix_tracking_flow
                   (MRtrix_tracking_config.mk mode sd tracks curv step minl
                      maxl ang cut act gmwmi crop back) ->
             edges_from w "mrtrix_seeds" = []).
  { intros w ->. unfold create_mrtrix_tracking_flow.
    cbn [MRtrix_tracking_config.tracking_mode
         MRtrix_tracking_config.curvature].
    case_config_strings;
      destruct (Qle_bool MRtrix_tracking_config.epsilon curv), sd, act, gmwmi;
      vm_compute; reflexivity. }
  split; [apply Hfrom; reflexivity|].
  split; [intros b; apply no_edge_no_path, Hfrom; reflexivity|].
  split.
  - unfold create_mrtrix_tracking_flow.
    cbn [MRtrix_tracking_config.tracking_mode
         MRtrix_tracking_config.curvature].
    case_config_strings;
      destruct (Qle_bool MRtrix_tracking_config.epsilon curv), sd, act, gmwmi;
      vm_compute; repeat constructor.
  - unfold create_mrtrix_tracking_flow, seed_edge.
    cbn [MRtrix_tracking_config.tracking_mode
         MRtrix_tracking_config.curvature
         MRtrix_tracking_config.seed_from_gmwmi].
    intros [-> | ->]; cbn [String.eqb Ascii.eqb Bool.eqb];
      (split; [destruct (Qle_bool MRtrix_tracking_config.epsilon curv),
                 sd, act, gmwmi; vm_compute; reflexivity|]);
      eexists;
      (split; [destruct (Qle_bool MRtrix_tracking_config.epsilon curv),
                 sd, act, gmwmi; vm_compute; reflexivity|]);
      destruct (Qle_bool MRtrix_tracking_config.epsilon curv),
        sd, act, gmwmi; split; vm_compute; reflexivity.
Qed.

Lemma mrtrix_seeds_output_unused_witness :
  stages_of (create_mrtrix_tracking_flow act_deterministic) make_mrtrix_seeds
  = ["mrtrix_seeds"]
  /\ edges_from (create_mrtrix_tracking_flow act_deterministic) "mrtrix_seeds"
     = []
  /\ seed_edges (create_mrtrix_tracking_flow act_deterministic)
     = [mkEdge "inputnode" "wm_mask_resampled"
               "mrtrix_deterministic_tracking" "seed_file"].
Proof.
  destruct (mrtrix_seeds_output_unused act_deterministic)
    as (Hfrom & _ & _ & Hmode).
  destruct Hmode as (Hstage & t & Ht & _ & Hseed); [left; reflexivity|].
  split; [exact Hstage|]. split; [exact Hfrom|].
  assert (Hts : tracking_stages (create_mrtrix_tracking_flow act_deterministic)
                = ["mrtrix_deterministic_tracking"])
    by (vm_compute; reflexivity).
  rewrite Hts in Ht. injection Ht as <-.
  rewrite Hseed. vm_compute. reflexivity.
Defined.

(** C8 as stated fails: in the graph of the default configuration in
    Deterministic mode there is no path from the erosion stage [wm_erode]
    to the tracking stage. *)
Lemma eroded_mask_not_consumed :
  stages_of (create_mrtrix_tracking_flow act_deterministic) Erode
  = ["wm_erode"]
  /\ tracking_stages (create_mrtrix_tracking_flow act_deterministic)
     = ["mrtrix_deterministic_tracking"]
  /\ ¬ path (flow (create_mrtrix_tracking_flow act_deterministic))
         "wm_erode" "mrtrix_deterministic_tracking"
  /\ ¬ eroded_mask_reaches_tracking
         (create_mrtrix_tracking_flow act_deterministic).
Proof.
  assert (Hno : ∀ b, ¬ path (flow (create_mrtrix_tracking_flow
                                     act_deterministic)) "wm_erode" b).
  { intros b. apply no_edge_no_path. vm_compute. reflexivity. }
  split; [vm_compute; reflexivity|].
  split; [vm_compute; reflexivity|].
  split; [apply Hno|].
  intros (erode & t & He & _ & Hp).
  assert (Hstages : stages_of (create_mrtrix_tracking_flow act_deterministic)
                      Erode = ["wm_erode"]) by (vm_compute; reflexivity).
  rewrite Hstages in He. apply list_elem_of_singleton in He. subst erode.
  exact (Hno t Hp).
Qed.

(** C8, amended.  Every graph [create_mrtrix_tracking_flow] builds has
    exactly one erosion stage, [wm_erode], fed by
    [inputnode.wm_mask_resampled]; no edge leaves it, so no stage is
    reachable from it; and every input of a tracking stage comes from
    [inputnode]. *)
Theorem erosion_stage_is_a_dead_end (config : MRtrix_tracking_config.t) :
  let w := create_mrtrix_tracking_flow config in
  stages_of w Erode = ["wm_erode"]
  /\ edges_into w "wm_erode"
     = [mkEdge "inputnode" "wm_mask_resampled" "wm_erode" "in_file"]
  /\ edges_from w "wm_erode" = []
  /\ (∀ b, ¬ path (flow w) "wm_erode" b)
  /\ Forall (fun e => edge_src e = "inputnode") (tracking_inputs w).
Proof.
  destruct config as
    [mode sd tracks curv step minl maxl ang cut act gmwmi crop back].
  assert (Hfrom : ∀ w : world,
             w = create_mrtrix_tracking_flow
                   (MRtrix_tracking_config.mk mode sd tracks curv step minl
                      maxl ang cut act gmwmi crop back) ->
             edges_from w "wm_erode" = []).
  { intros w ->. unfold create_mrtrix_tracking_flow.
    cbn [MRtrix_tracking_config.tracking_mode
         MRtrix_tracking_config.curvature].
    case_config_strings;
      destruct (Qle_bool MRtrix_tracking_config.epsilon curv), sd, act, gmwmi;
      vm_compute; reflexivity. }
  cbv zeta.
  split; [|split; [|split; [apply Hfrom; reflexivity|split]]].
  - unfold create_mrtrix_tracking_flow.
    cbn [MRtrix_tracking_config.tracking_mode
         MRtrix_tracking_config.curvature].
    case_config_strings;
      destruct (Qle_bool MRtrix_tracking_config.epsilon curv), sd, act, gmwmi;
      vm_compute; reflexivity.
  - unfold create_mrtrix_tracking_flow.
    cbn [MRtrix_tracking_config.tracking_mode
         MRtrix_tracking_config.curvature].
    case_config_strings;
      destruct (Qle_bool MRtrix_tracking_config.epsilon curv), sd, act, gmwmi;
      vm_compute; reflexivity.
  - intros b. apply no_edge_no_path, Hfrom. reflexivity.
  - unfold create_mrtrix_tracking_flow.
    cbn [MRtrix_tracking_config.tracking_mode
         MRtrix_tracking_config.curvature].
    case_config_strings;
      destruct (Qle_bool MRtrix_tracking_config.epsilon curv), sd, act, gmwmi;
      vm_compute; repeat constructor.
Qed.

End Workflow_properties.

Section Numpy_properties.

Lemma elem_of_insert_unique (x y : Z) (l : list Z) :
  y ∈ np.insert_unique x l ↔ y = x ∨ y ∈ l.
Proof.
  induction l as [|z l IH]; cbn [np.insert_unique].
  - rewrite list_elem_of_singleton. set_solver.
  - destruct (Z.ltb_spec x z); [set_solver|].
    destruct (Z.eqb_spec x z); [subst; set_solver|].
    rewrite !elem_of_cons, IH. tauto.
Qed.

Lemma elem_of_unique (z : Z) (l : list Z) : z ∈ np.unique_ints l ↔ z ∈ l.
Proof.
  induction l as [|x l IH]; cbn [np.unique_ints foldr]; [reflexivity|].
  fold (np.unique_ints l). rewrite elem_of_insert_unique, IH, elem_of_cons.
  reflexivity.
Qed.

Lemma insert_unique_sorted (x : Z) (l : list Z) :
  StronglySorted Z.lt l -> StronglySorted Z.lt (np.insert_unique x l).
Proof.
  induction 1 as [|y l Hsorted IH Hall]; cbn [np.insert_unique].
  - repeat constructor.
  - destruct (Z.ltb_spec x y) as [Hlt|Hge].
    + constructor; [constructor; assumption|].
      constructor; [exact Hlt|].
      eapply Forall_impl; [exact Hall|]. intros; cbn in *; lia.
    + destruct (Z.eqb_spec x y) as [->|Hne]; [constructor; assumption|].
      constructor; [exact IH|].
      apply Forall_forall. intros z Hz.
      apply elem_of_insert_unique in Hz as [->|Hz]; [lia|].
      rewrite Forall_forall in Hall. auto.
Qed.

Lemma unique_sorted (l : list Z) : StronglySorted Z.lt (np.unique_ints l).
Proof.
  induction l as [|x l IH]; cbn [np.unique_ints foldr]; [constructor|].
  apply insert_unique_sorted, IH.
Qed.

Lemma unique_of_sorted (l : list Z) :
  StronglySorted Z.lt l -> np.unique_ints l = l.
Proof.
  induction 1 as [|y l Hsorted IH Hall]; [reflexivity|].
  cbn [np.unique_ints foldr]. fold (np.unique_ints l). rewrite IH.
  destruct l as [|z l]; [reflexivity|]. cbn [np.insert_unique].
  apply Forall_cons in Hall as [Hyz _].
  destruct (Z.ltb_spec y z); [reflexivity|lia].
Qed.

Lemma unique_idempotent (l : list Z) :
  np.unique_ints (np.unique_ints l) = np.unique_ints l.
Proof. apply unique_of_sorted, unique_sorted. Qed.



Lemma range_width (t : np.int_dtype) :
  np.max_of t = np.min_of t + 2 ^ np.bits t - 1.
Proof. destruct t; vm_compute; reflexivity. Qed.

Lemma pow_bits_pos (t : np.int_dtype) : 0 < 2 ^ np.bits t.
Proof. destruct t; vm_compute; reflexivity. Qed.

Lemma wrap_range (t : np.int_dtype) (z : Z) : np.in_range t (np.wrap t z).
Proof.
  unfold np.in_range, np.wrap. rewrite range_width.
  pose proof (Z.mod_pos_bound (z - np.min_of t) _ (pow_bits_pos t)). lia.
Qed.

Lemma wrap_in_range (t : np.int_dtype) (z : Z) :
  np.in_range t z -> np.wrap t z = z.
Proof.
  unfold np.in_range, np.wrap. rewrite range_width. intros H.
  rewrite Z.mod_small; lia.
Qed.

Lemma int_of_float_range (q : Qc) : np.in_range np.int64 (np.int_of_float q).
Proof.
  unfold np.int_of_float, np.in_range.
  destruct (Z.leb_spec (np.min_of np.int64) (np.trunc q)),
    (Z.leb_spec (np.trunc q) (np.max_of np.int64)); cbn [andb];
    try (split; assumption); vm_compute; split; discriminate.
Qed.

Lemma int_values_range (a : np.ndarray) :
  Forall (np.in_range np.int64) (np.int_values a).
Proof.
  unfold np.int_values. destruct (np.elements a) as [t l|t l];
    apply Forall_fmap, Forall_forall; intros x _; cbn.
  - apply wrap_range.
  - apply int_of_float_range.
Qed.

Lemma map_wrap_in_range (t : np.int_dtype) (l : list Z) :
  Forall (np.in_range t) l -> map (np.wrap t) l = l.
Proof.
  induction 1 as [|z l Hz _ IH]; [reflexivity|].
  cbn [map]. by rewrite IH, wrap_in_range.
Qed.

Lemma int_values_int64_array (s : list nat) (l : list Z) :
  Forall (np.in_range np.int64) l ->
  np.int_values (np.int64_array s l) = l.
Proof. apply map_wrap_in_range. Qed.

(** Converting to [int] twice is converting once. *)
Lemma int_values_astype_int (a : np.ndarray) :
  np.int_values (np.astype_int a) = np.int_values a.
Proof. apply int_values_int64_array, int_values_range. Qed.

Lemma unique_ints_Forall (P : Z -> Prop) (l : list Z) :
  Forall P l -> Forall P (np.unique_ints l).
Proof.
  rewrite !Forall_forall. intros H z Hz. apply H.
  by rewrite elem_of_unique in Hz.
Qed.

Lemma int_values_unique_int64 (s : list nat) (l : list Z) :
  Forall (np.in_range np.int64) l ->
  np.int_values (np.astype_int (np.unique (np.int64_array s l)))
  = np.unique_ints l.
Proof.
  intros H. rewrite int_values_astype_int. cbn.
  apply map_wrap_in_range, unique_ints_Forall, H.
Qed.


Lemma multiply_same_shape (a b : np.ndarray) :
  np.shape a = np.shape b ->
  np.multiply a b
  = inr (np.mk (np.shape a) (np.times (np.elements a) (np.elements b))).
Proof.
  intros H. unfold np.multiply, np.times, np.elementwise.
  rewrite H.
  destruct (np.elements a) as [ta la|ta la],
    (np.elements b) as [tb lb|tb lb];
    try destruct (np.promote_ints ta tb);
    rewrite decide_True by reflexivity; reflexivity.
Qed.

Lemma assign_where_indicator (temp border : list Z) (i : Z) :
  length temp = length border ->
  np.assign_where_ne (np.assign_where_eq temp border i 1) border i 0
  = indicator i border.
Proof.
  revert border. induction temp as [|t temp IH]; intros [|b border] Hlen;
    try discriminate; [reflexivity|].
  cbn. f_equal.
  - destruct (b =? i); reflexivity.
  - apply IH. cbn in Hlen. lia.
Qed.

Lemma length_indicator (i : Z) (border : list Z) :
  length (indicator i border) = length border.
Proof. apply length_map. Qed.

End Numpy_properties.

Section Seed_properties.

Lemma save_seed_fold (cwd : string) (aff : list (list Q)) (border : np.ndarray)
    (labels : list Z) :
  ∀ (temp : list Z) (st : seeds_state),
    length temp = length (np.int_values border) ->
    snd (foldl (make_seeds.save_seed cwd aff border) (temp, st) labels)
    = mkSeeds (self_ROI_idx st) (self_base_name st)
        (saved st
           ++ map (fun i =>
                     (abspath cwd (make_seeds.seed_name (self_base_name st) i),
                      nib.Nifti1Image
                        (np.int64_array (np.shape border)
                           (indicator i (np.int_values border))) aff))
                  labels)
        (txt_name st)
        (txt_lines st
           ++ map (fun i =>
                     make_seeds.seed_name (self_base_name st) i +:+ newline)
                  labels).
Proof.
  induction labels as [|i labels IH]; intros temp st Hlen.
  - cbn. rewrite !app_nil_r. by destruct st.
  - cbn [foldl]. unfold make_seeds.save_seed at 2.
    rewrite assign_where_indicator by exact Hlen.
    rewrite IH by apply length_indicator.
    cbn [self_ROI_idx self_base_name saved txt_name txt_lines map].
    rewrite <- !app_assoc. reflexivity.
Qed.

Lemma run_file_same_shape (cwd : string) (WM : nib.image)
    (st : seeds_state) (f : ROI_file) :
  same_shape WM f ->
  make_seeds.run_file cwd WM st f = (after_file cwd WM st f, None).
Proof.
  intros Hshape. unfold make_seeds.run_file.
  rewrite (multiply_same_shape _ _ Hshape).
  cbn [self_ROI_idx self_base_name saved txt_name txt_lines].
  rewrite save_seed_fold by reflexivity.
  assert (Hb : np.int_values (np.astype_int (product_of f WM))
               = border_of f WM) by apply int_values_astype_int.
  unfold product_of in Hb. rewrite Hb. reflexivity.
Qed.

Lemma run_files_same_shape (cwd : string) (WM : nib.image)
    (fs : list ROI_file) :
  ∀ st, Forall (same_shape WM) fs ->
    make_seeds.run_files cwd WM st fs = (foldl (after_file cwd WM) st fs, None).
Proof.
  induction fs as [|f fs IH]; intros st Hall; [reflexivity|].
  apply Forall_cons in Hall as [Hf Hfs].
  cbn [make_seeds.run_files foldl]. rewrite (run_file_same_shape _ _ _ _ Hf).
  apply IH, Hfs.
Qed.

Lemma gen_outputfilelist_map (cwd : string) (self : seeds_state) :
  make_seeds.gen_outputfilelist cwd self
  = map (fun i => abspath cwd (make_seeds.seed_name (self_base_name self) i))
        (self_ROI_idx self).
Proof.
  unfold make_seeds.gen_outputfilelist.
  generalize (self_ROI_idx self) as labels.
  assert (H : ∀ labels (acc : list string),
             foldl (fun (output_list : list string) i =>
                      (output_list
                         ++ [abspath cwd
                               (make_seeds.seed_name (self_base_name self)
                                  i)])%list)
                   acc labels
             = (acc ++ map (fun i => abspath cwd
                              (make_seeds.seed_name (self_base_name self) i))
                           labels)%list).
  { induction labels as [|i labels IH]; intros acc; cbn.
    - by rewrite app_nil_r.
    - rewrite IH, <- app_assoc. reflexivity. }
  intros labels. apply (H labels []).
Qed.

(** [self.ROI_idx]: the two [unique] and the two [astype(int)] come down
    to the sorted distinct integers the non-zero elements convert to. *)
Lemma labels_of_unique (f : ROI_file) :
  labels_of f
  = np.unique_ints
      (np.int_values
         (np.unique (np.nonzero_entries (nib.get_data (ROI_vol f))))).
Proof.
  unfold labels_of. unfold np.astype_int at 2.
  apply int_values_unique_int64, int_values_range.
Qed.

Lemma labels_of_sorted (f : ROI_file) : StronglySorted Z.lt (labels_of f).
Proof. rewrite labels_of_unique. apply unique_sorted. Qed.


Lemma indicator_lookup (i : Z) (border : list Z) (k : nat) (v : Z) :
  indicator i border !! k = Some v ->
  (v = 0 ∨ v = 1) ∧ (v = 1 ↔ border !! k = Some i).
Proof.
  unfold indicator. rewrite list_lookup_fmap.
  destruct (border !! k) as [b|] eqn:Hb; [|discriminate].
  cbn. intros [= <-]. destruct (Z.eqb_spec b i) as [->|Hne].
  - split; [right; reflexivity|]. split; reflexivity.
  - split; [left; reflexivity|]. split; [discriminate|].
    intros [= ->]. contradiction.
Qed.

Lemma indicator_range (i : Z) (border : list Z) :
  Forall (np.in_range np.int64) (indicator i border).
Proof.
  apply Forall_fmap, Forall_forall. intros b _. cbn.
  destruct (b =? i); vm_compute; split; discriminate.
Qed.

Lemma int_values_seed_volume (f : ROI_file) (WM : nib.image) (i : Z) :
  np.int_values (nib.get_data (seed_volume f WM i))
  = indicator i (border_of f WM).
Proof. apply int_values_int64_array, indicator_range. Qed.

Lemma int_values_merged_volume (f : ROI_file) (WM : nib.image) :
  np.int_values (nib.get_data (merged_volume f WM)) = border_of f WM.
Proof. apply int_values_int64_array, int_values_range. Qed.

End Seed_properties.

Section File_names.

Lemma append_cons (a : ascii) (s t : string) :
  String a s +:+ t = String a (s +:+ t).
Proof. reflexivity. Qed.

Lemma append_nil_l (t : string) : "" +:+ t = t.
Proof. reflexivity. Qed.

Lemma occurs_app (c : ascii) (s1 s2 : string) :
  occurs c (s1 +:+ s2) ↔ occurs c s1 ∨ occurs c s2.
Proof.
  induction s1 as [|a s1 IH].
  - rewrite append_nil_l. cbn [occurs]. tauto.
  - rewrite append_cons. cbn [occurs]. rewrite IH. tauto.
Qed.

Lemma append_assoc (s1 s2 s3 : string) :
  (s1 +:+ s2) +:+ s3 = s1 +:+ (s2 +:+ s3).
Proof.
  induction s1 as [|a s1 IH]; [reflexivity|].
  by rewrite !append_cons, IH.
Qed.

(** A string splits in one way only at the last occurrence of [c]. *)
Lemma split_at_last (c : ascii) (l1 l2 r1 r2 : string) :
  l1 +:+ String c r1 = l2 +:+ String c r2 ->
  ¬ occurs c r1 -> ¬ occurs c r2 -> l1 = l2 ∧ r1 = r2.
Proof.
  revert l2. induction l1 as [|a l1 IH]; intros [|b l2] Heq Hr1 Hr2;
    rewrite ?append_nil_l, ?append_cons in Heq.
  - injection Heq as ->. auto.
  - injection Heq as -> ->. exfalso. apply Hr1.
    apply occurs_app. right. cbn [occurs]. auto.
  - injection Heq as -> <-. exfalso. apply Hr2.
    apply occurs_app. right. cbn [occurs]. auto.
  - injection Heq as -> Heq. destruct (IH l2 Heq Hr1 Hr2) as [-> ->]. auto.
Qed.

Lemma pretty_N_go_no_underscore (x : N) (s : string) :
  ¬ occurs "_" s -> ¬ occurs "_" (pretty_N_go x s).
Proof.
  revert s. induction (N.lt_wf_0 x) as [x _ IH]; intros s Hs.
  assert (x = 0 ∨ 0 < x)%N as [->|Hpos] by lia.
  - by rewrite pretty_N_go_0.
  - rewrite pretty_N_go_step by done. apply IH.
    { by apply N.div_lt. }
    cbn [occurs]. intros [Hc|Hc]; [|by apply Hs].
    revert Hc. unfold pretty_N_char. by repeat case_match.
Qed.

Lemma pretty_N_no_underscore (n : N) : ¬ occurs "_" (pretty n).
Proof.
  unfold pretty, pretty_N. case_decide as Hn.
  - cbn [occurs]. intros [Hc|[]]. discriminate Hc.
  - apply pretty_N_go_no_underscore. cbn [occurs]. tauto.
Qed.

Lemma str_no_underscore (i : Z) : ¬ occurs "_" (str i).
Proof.
  destruct i as [|p|p].
  - vm_compute. intros [Hc|[]]. discriminate Hc.
  - change (¬ occurs "_" (pretty (N.pos p))). apply pretty_N_no_underscore.
  - change (¬ occurs "_" ("-" +:+ pretty (N.pos p))).
    intros Hocc. apply occurs_app in Hocc as [Hocc|Hocc].
    + cbn [occurs] in Hocc. destruct Hocc as [Hc|[]]. discriminate Hc.
    + exact (pretty_N_no_underscore _ Hocc).
Qed.

Lemma seed_name_base_inj (b1 b2 : string) (i j : Z) :
  make_seeds.seed_name b1 i = make_seeds.seed_name b2 j -> b1 = b2.
Proof.
  unfold make_seeds.seed_name. intros H.
  change (b1 +:+ "_seed_" +:+ str i +:+ ".nii.gz")
    with (b1 +:+ ("_seed" +:+ String "_" (str i +:+ ".nii.gz"))) in H.
  change (b2 +:+ "_seed_" +:+ str j +:+ ".nii.gz")
    with (b2 +:+ ("_seed" +:+ String "_" (str j +:+ ".nii.gz"))) in H.
  rewrite <- !append_assoc in H.
  apply split_at_last in H as [H _].
  - change (b1 +:+ "_seed") with (b1 +:+ String "_" "seed") in H.
    change (b2 +:+ "_seed") with (b2 +:+ String "_" "seed") in H.
    apply split_at_last in H as [H _]; [exact H| |];
      cbn; intros H'; decompose [or] H'; discriminate || contradiction.
  - intros H'. apply occurs_app in H' as [H'|H'];
      [exact (str_no_underscore i H')|].
    cbn in H'. decompose [or] H'; discriminate || contradiction.
  - intros H'. apply occurs_app in H' as [H'|H'];
      [exact (str_no_underscore j H')|].
    cbn in H'. decompose [or] H'; discriminate || contradiction.
Qed.

Lemma abspath_inj (cwd n1 n2 : string) :
  abspath cwd n1 = abspath cwd n2 -> n1 = n2.
Proof.
  unfold abspath. intros H.
  apply (inj (String.app cwd)) in H. by apply (inj (String.app "/")) in H.
Qed.

Lemma append_nil_r (s : string) : s +:+ "" = s.
Proof.
  induction s as [|a s IH]; [reflexivity|]. by rewrite append_cons, IH.
Qed.

Lemma append_inj_r (t : string) :
  ∀ l1 l2, l1 +:+ t = l2 +:+ t -> l1 = l2.
Proof.
  induction t as [|c t IH]; intros l1 l2 H.
  - by rewrite !append_nil_r in H.
  - change (String c t) with (String c "" +:+ t) in H.
    rewrite <- !append_assoc in H. apply IH in H.
    apply split_at_last in H as [H _]; [exact H| |]; cbn; tauto.
Qed.

Lemma seed_name_label_inj (b : string) (i j : Z) :
  make_seeds.seed_name b i = make_seeds.seed_name b j -> i = j.
Proof.
  unfold make_seeds.seed_name. intros H.
  apply (inj (String.app b)) in H.
  apply (inj (String.app "_seed_")) in H.
  apply append_inj_r in H. by apply (inj pretty) in H.
Qed.

End File_names.

Section Integer_labels.









Lemma int_values_integer_labels (a : np.ndarray) (t : np.int_dtype)
    (l : list Z) :
  np.elements a = np.ints t l -> Forall (np.in_range np.int64) l ->
  np.int_values a = l.
Proof.
  intros Ha H. unfold np.int_values. rewrite Ha.
  by apply map_wrap_in_range.
Qed.












End Integer_labels.

Section Seed_theorems.

Lemma saved_after_files (cwd : string) (WM : nib.image) (fs : list ROI_file) :
  ∀ st, saved (foldl (after_file cwd WM) st fs)
        = saved st ++ mjoin (map (fun f => seeds_of cwd f WM) fs).
Proof.
  induction fs as [|f fs IH]; intros st.
  - cbn. by rewrite app_nil_r.
  - cbn [foldl]. rewrite IH. cbn [saved after_file].
    change (map (fun f => seeds_of cwd f WM) (f :: fs))
      with (seeds_of cwd f WM :: map (fun f => seeds_of cwd f WM) fs).
    change (mjoin (seeds_of cwd f WM :: map (fun f => seeds_of cwd f WM) fs))
      with (seeds_of cwd f WM ++ mjoin (map (fun f => seeds_of cwd f WM) fs)).
    by rewrite <- app_assoc.
Qed.

Lemma after_files_last (cwd : string) (WM : nib.image)
    (earlier : list ROI_file) (f : ROI_file) (st : seeds_state) :
  self_ROI_idx (foldl (after_file cwd WM) st (earlier ++ [f])) = labels_of f
  ∧ self_base_name (foldl (after_file cwd WM) st (earlier ++ [f]))
    = ROI_base f.
Proof. rewrite foldl_app. cbn. auto. Qed.

Lemma sorted_lt_not_elem (x : Z) (l : list Z) :
  Forall (Z.lt x) l -> x ∉ l.
Proof.
  intros Hall Hin. rewrite Forall_forall in Hall.
  specialize (Hall x Hin). lia.
Qed.

Lemma filter_name_seeds (cwd : string) (f : ROI_file) (WM : nib.image)
    (labels : list Z) (i : Z) :
  StronglySorted Z.lt labels -> i ∈ labels ->
  filter (fun p : string * nib.image =>
            fst p = abspath cwd (make_seeds.seed_name (ROI_base f) i))
         (map (fun j => (abspath cwd (make_seeds.seed_name (ROI_base f) j),
                         seed_volume f WM j)) labels)
  = [(abspath cwd (make_seeds.seed_name (ROI_base f) i), seed_volume f WM i)].
Proof.
  assert (Hnone : ∀ l : list Z, i ∉ l ->
            filter (fun p : string * nib.image =>
                      fst p = abspath cwd
                                (make_seeds.seed_name (ROI_base f) i))
                   (map (fun j =>
                           (abspath cwd (make_seeds.seed_name (ROI_base f) j),
                            seed_volume f WM j)) l) = []).
  { induction l as [|j l IH]; intros Hnot; [reflexivity|].
    apply not_elem_of_cons in Hnot as [Hne Hnot]. cbn [map].
    rewrite filter_cons_False; [by apply IH|].
    cbn. intros Heq. apply abspath_inj, seed_name_label_inj in Heq.
    congruence. }
  induction 1 as [|j l Hsorted IH Hall]; intros Hin.
  - by apply elem_of_nil in Hin.
  - cbn [map]. apply elem_of_cons in Hin as [->|Hin].
    + rewrite filter_cons_True by reflexivity.
      rewrite Hnone by (by apply sorted_lt_not_elem). reflexivity.
    + rewrite filter_cons_False; [by apply IH|].
      cbn. intros Heq. apply abspath_inj, seed_name_label_inj in Heq.
      subst j. by apply (sorted_lt_not_elem i l).
Qed.

Lemma read_saved_seed (cwd : string) (f : ROI_file) (WM : nib.image)
    (st : seeds_state) (before : list (string * nib.image)) (i : Z) :
  saved st = before ++ seeds_of cwd f WM -> i ∈ labels_of f ->
  read_saved st (abspath cwd (make_seeds.seed_name (ROI_base f) i))
  = Some (seed_volume f WM i).
Proof.
  intros Hsaved Hi. unfold read_saved. rewrite Hsaved, filter_app.
  unfold seeds_of. rewrite filter_name_seeds by (apply labels_of_sorted || exact Hi).
  by rewrite last_snoc.
Qed.



(** C10.  When [make_seeds] is run on several region volumes (all with
    the dimensions of the mask), [ROI_idx] and [base_name] are those of the
    last one, so the output list names only the seeds of the last volume;
    the seeds of every earlier volume were saved, and (when its base name
    differs from the last one's) none of their names is in the output
    list. *)
Theorem seed_outputs_only_from_last_file (cwd : string)
    (earlier : list ROI_file) (final : ROI_file) (WM : nib.image)
    (self : seeds_state) :
  Forall (same_shape WM) (earlier ++ [final]) ->
  let run := make_seeds._run_interface cwd (earlier ++ [final]) WM self in
  snd run = None
  ∧ self_ROI_idx (fst run) = labels_of final
  ∧ self_base_name (fst run) = ROI_base final
  ∧ make_seeds._list_outputs cwd (fst run)
    = map (fun i => abspath cwd (make_seeds.seed_name (ROI_base final) i))
          (labels_of final)
  ∧ (∀ f p, f ∈ earlier -> p ∈ seeds_of cwd f WM -> p ∈ saved (fst run))
  ∧ (∀ f i, f ∈ earlier -> ROI_base f ≠ ROI_base final ->
       abspath cwd (make_seeds.seed_name (ROI_base f) i)
       ∉ make_seeds._list_outputs cwd (fst run))
  ∧ (∀ i, i ∈ labels_of final ->
       read_saved (fst run)
         (abspath cwd (make_seeds.seed_name (ROI_base final) i))
       = Some (seed_volume final WM i)).
Proof.
  intros Hshape run.
  assert (Hrun : run = (foldl (after_file cwd WM)
                          (mkSeeds (self_ROI_idx self) (self_base_name self)
                             (saved self)
                             (self_base_name self +:+ "_seeds.txt") [])
                          (earlier ++ [final]),
                        None)).
  { unfold run, make_seeds._run_interface.
    rewrite run_files_same_shape by exact Hshape. reflexivity. }
  rewrite Hrun. cbn [fst snd].
  destruct (after_files_last cwd WM earlier final
              (mkSeeds (self_ROI_idx self) (self_base_name self)
                 (saved self) (self_base_name self +:+ "_seeds.txt") []))
    as [Hidx Hbase].
  assert (Hout : make_seeds._list_outputs cwd
                   (foldl (after_file cwd WM)
                      (mkSeeds (self_ROI_idx self) (self_base_name self)
                         (saved self)
                         (self_base_name self +:+ "_seeds.txt") [])
                      (earlier ++ [final]))
                 = map (fun i => abspath cwd
                                   (make_seeds.seed_name (ROI_base final) i))
                       (labels_of final)).
  { unfold make_seeds._list_outputs. rewrite gen_outputfilelist_map.
    rewrite Hidx, Hbase. reflexivity. }
  split; [reflexivity|]. split; [exact Hidx|]. split; [exact Hbase|].
  split; [exact Hout|]. split; [|split].
  - intros f p Hf Hp. rewrite saved_after_files.
    apply elem_of_app. right. apply list_elem_of_join.
    exists (seeds_of cwd f WM). split; [exact Hp|].
    apply list_elem_of_fmap. exists f. split; [reflexivity|].
    apply elem_of_app. left. exact Hf.
  - intros f i _ Hbases Hin. rewrite Hout in Hin.
    apply list_elem_of_fmap in Hin as (j & Heq & _).
    apply abspath_inj, seed_name_base_inj in Heq. contradiction.
  - intros i Hi. eapply read_saved_seed; [|exact Hi].
    rewrite foldl_app. cbn [foldl after_file saved]. reflexivity.
Qed.


Lemma seed_outputs_only_from_last_file_witness :
  let run := make_seeds._run_interface "/work" [roi_example; roi_example_2]
               wm_example seeds_initial in
  snd run = None
  ∧ make_seeds._list_outputs "/work" (fst run)
    = ["/work/other_seed_1.nii.gz"; "/work/other_seed_7.nii.gz"]
  ∧ "/work/roi_seed_2.nii.gz" ∈ map fst (saved (fst run))
  ∧ "/work/roi_seed_2.nii.gz" ∉ make_seeds._list_outputs "/work" (fst run).
Proof.
  destruct (seed_outputs_only_from_last_file "/work" [roi_example]
              roi_example_2 wm_example seeds_initial)
    as (Hok & _ & _ & Hout & Hsaved & Habsent & _);
    [repeat constructor|].
  cbn [app] in Hok, Hout, Hsaved, Habsent. cbv zeta. split; [exact Hok|]. split.
  - rewrite Hout. vm_compute. reflexivity.
  - split.
    + apply list_elem_of_fmap.
      exists ("/work/roi_seed_2.nii.gz", seed_volume roi_example wm_example 2).
      split; [reflexivity|].
      apply (Hsaved roi_example); [apply list_elem_of_singleton; reflexivity|].
      vm_compute. left.
    + apply (Habsent roi_example 2);
        [apply list_elem_of_singleton; reflexivity | discriminate].
Defined.

End Seed_theorems.

Section Merged_seed_theorems.

Lemma merged_run_file_same_shape (cwd : string) (WM : nib.image)
    (st : seeds_state) (f : ROI_file) :
  same_shape WM f ->
  make_mrtrix_seeds.run_file cwd WM st f
  = (after_file_merged cwd WM st f, None).
Proof.
  intros Hshape. unfold make_mrtrix_seeds.run_file.
  rewrite (multiply_same_shape _ _ Hshape). reflexivity.
Qed.

Lemma merged_run_files_same_shape (cwd : string) (WM : nib.image)
    (fs : list ROI_file) :
  ∀ st, Forall (same_shape WM) fs ->
    make_mrtrix_seeds.run_files cwd WM st fs
    = (foldl (after_file_merged cwd WM) st fs, None).
Proof.
  induction fs as [|f fs IH]; intros st Hall; [reflexivity|].
  apply Forall_cons in Hall as [Hf Hfs].
  cbn [make_mrtrix_seeds.run_files foldl].
  rewrite (merged_run_file_same_shape _ _ _ _ Hf). apply IH, Hfs.
Qed.

Lemma last_filter_snoc {A} (P : A -> Prop) `{∀ x, Decision (P x)}
    (l : list A) (x : A) :
  P x -> last (filter P (l ++ [x])) = Some x.
Proof.
  intros HP. rewrite filter_app, filter_cons_True, filter_nil by exact HP.
  apply last_snoc.
Qed.




End Merged_seed_theorems.

Section Grid_theorems.

Lemma run_file_ignores_WM_affine (cwd : string) (WM : nib.image)
    (aff : list (list Q)) (st : seeds_state) (f : ROI_file) :
  make_seeds.run_file cwd (with_affine WM aff) st f
  = make_seeds.run_file cwd WM st f.
Proof. reflexivity. Qed.

Lemma merged_run_file_ignores_WM_affine (cwd : string) (WM : nib.image)
    (aff : list (list Q)) (st : seeds_state) (f : ROI_file) :
  make_mrtrix_seeds.run_file cwd (with_affine WM aff) st f
  = make_mrtrix_seeds.run_file cwd WM st f.
Proof. reflexivity. Qed.

Lemma run_files_ignore_WM_affine (cwd : string) (WM : nib.image)
    (aff : list (list Q)) (fs : list ROI_file) :
  ∀ st,
    make_seeds.run_files cwd (with_affine WM aff) st fs
    = make_seeds.run_files cwd WM st fs
    ∧ make_mrtrix_seeds.run_files cwd (with_affine WM aff) st fs
      = make_mrtrix_seeds.run_files cwd WM st fs.
Proof.
  induction fs as [|f fs IH]; intros st; [split; reflexivity|].
  cbn [make_seeds.run_files make_mrtrix_seeds.run_files].
  rewrite run_file_ignores_WM_affine, merged_run_file_ignores_WM_affine.
  split.
  - destruct (make_seeds.run_file cwd WM st f) as [st' [e|]];
      [reflexivity | apply IH].
  - destruct (make_mrtrix_seeds.run_file cwd WM st f) as [st' [e|]];
      [reflexivity | apply IH].
Qed.

(** C6, as stated, fails here: the grids differ in voxel size and origin,
    and both modes run to completion and save their seed volumes. *)
Lemma grid_mismatch_not_detected :
  ¬ same_grid (ROI_vol roi_example) wm_shifted
  ∧ nib.origin (ROI_vol roi_example) ≠ nib.origin wm_shifted
  ∧ snd (make_seeds._run_interface "/work" [roi_example] wm_shifted
           seeds_initial) = None
  ∧ map fst (saved (fst (make_seeds._run_interface "/work" [roi_example]
                           wm_shifted seeds_initial)))
    = ["/work/roi_seed_2.nii.gz"; "/work/roi_seed_5.nii.gz";
       "/work/roi_seed_9.nii.gz"]
  ∧ snd (make_mrtrix_seeds._run_interface "/work" [roi_example] wm_shifted
           seeds_initial) = None
  ∧ map fst (saved (fst (make_mrtrix_seeds._run_interface "/work"
                           [roi_example] wm_shifted seeds_initial)))
    = ["/work/roi_seeds.nii.gz"].
Proof.
  split; [intros [_ H]; discriminate H|].
  split; [discriminate|].
  repeat split; vm_compute; reflexivity.
Qed.

Lemma multiply_raises_ValueError (a b : np.ndarray) (e : exception) :
  np.multiply a b = inl e -> e = ValueError.
Proof.
  unfold np.multiply, np.with_elements, np.elementwise.
  repeat case_match; congruence.
Qed.

Lemma run_files_raise_ValueError (cwd : string) (WM : nib.image)
    (fs : list ROI_file) (e : exception) :
  ∀ st,
    (snd (make_seeds.run_files cwd WM st fs) = Some e -> e = ValueError)
    ∧ (snd (make_mrtrix_seeds.run_files cwd WM st fs) = Some e ->
       e = ValueError).
Proof.
  induction fs as [|f fs IH]; intros st; [split; discriminate|].
  cbn [make_seeds.run_files make_mrtrix_seeds.run_files].
  unfold make_seeds.run_file at 1, make_mrtrix_seeds.run_file at 1.
  destruct (np.multiply _ _) as [e'|border] eqn:Hmul.
  - apply multiply_raises_ValueError in Hmul. subst e'.
    split; cbn; congruence.
  - split; apply IH.
Qed.

(** C6, amended.  Neither seed interface looks at the affine of the
    tissue mask: replacing it changes nothing.  When every region volume
    has the dimensions of the mask both interfaces complete without an
    exception.  The only exception either can raise is numpy's
    [ValueError] from the element-wise product, and only when some region
    volume's dimensions differ from the mask's. *)
Theorem seeds_depend_on_dimensions_only (cwd : string)
    (ROI_files : list ROI_file) (WM : nib.image) (self : seeds_state) :
  (∀ aff,
     make_seeds._run_interface cwd ROI_files (with_affine WM aff) self
     = make_seeds._run_interface cwd ROI_files WM self
     ∧ make_mrtrix_seeds._run_interface cwd ROI_files (with_affine WM aff) self
       = make_mrtrix_seeds._run_interface cwd ROI_files WM self)
  ∧ (Forall (same_shape WM) ROI_files ->
     snd (make_seeds._run_interface cwd ROI_files WM self) = None
     ∧ snd (make_mrtrix_seeds._run_interface cwd ROI_files WM self) = None)
  ∧ (∀ e, snd (make_seeds._run_interface cwd ROI_files WM self) = Some e
          ∨ snd (make_mrtrix_seeds._run_interface cwd ROI_files WM self)
            = Some e ->
          e = ValueError ∧ ¬ Forall (same_shape WM) ROI_files).
Proof.
  assert (Hok : Forall (same_shape WM) ROI_files ->
     snd (make_seeds._run_interface cwd ROI_files WM self) = None
     ∧ snd (make_mrtrix_seeds._run_interface cwd ROI_files WM self) = None).
  { intros Hshape.
    unfold make_seeds._run_interface, make_mrtrix_seeds._run_interface.
    rewrite run_files_same_shape, merged_run_files_same_shape by exact Hshape.
    split; reflexivity. }
  split; [|split; [exact Hok|]].
  - intros aff.
    unfold make_seeds._run_interface, make_mrtrix_seeds._run_interface.
    split; apply run_files_ignore_WM_affine.
  - intros e He. split.
    + unfold make_seeds._run_interface, make_mrtrix_seeds._run_interface in He.
      destruct He as [He|He].
      * exact (proj1 (run_files_raise_ValueError _ _ _ _ _) He).
      * exact (proj2 (run_files_raise_ValueError _ _ _ _ _) He).
    + intros Hall. destruct (Hok Hall) as [H1 H2].
      destruct He as [He|He]; congruence.
Qed.

Lemma seeds_depend_on_dimensions_only_witness :
  snd (make_seeds._run_interface "/work" [roi_example; roi_example_2]
         wm_shifted seeds_initial) = None
  ∧ snd (make_mrtrix_seeds._run_interface "/work"
           [roi_example; roi_example_2] wm_shifted seeds_initial) = None.
Proof.
  destruct (seeds_depend_on_dimensions_only "/work"
              [roi_example; roi_example_2] wm_shifted seeds_initial)
    as (_ & Hok & _).
  apply Hok. repeat constructor.
Defined.

End Grid_theorems.

Section Orientation_properties.
Import trackvis match_orientations.

(** The loop over [range(len(pts))] rewrites every entry once. *)
Lemma remap_streamline_prefix (f : point -> point) (pts : list point)
    (n : nat) :
  (n <= length pts)%nat ->
  foldl (fun (temp_fib : list point) (j : nat) =>
           match pts !! j with
           | Some p => <[j := f p]> temp_fib
           | None => temp_fib
           end)
        pts (seq 0 n)
  = map f (take n pts) ++ drop n pts.
Proof.
  induction n as [|n IH]; intros Hn.
  - cbn. by rewrite drop_0.
  - rewrite seq_S, foldl_app, IH by lia. cbn [foldl Nat.add].
    destruct (pts !! n) as [p|] eqn:Hp.
    + rewrite (take_S_r _ _ _ Hp), map_app. cbn [map].
      rewrite (drop_S _ _ _ Hp).
      replace n with (length (map f (take n pts)) + 0)%nat at 1
        by (rewrite length_map, length_take; lia).
      rewrite insert_app_r. cbn. by rewrite <- app_assoc.
    + apply lookup_ge_None in Hp. lia.
Qed.

Lemma remap_streamline_map (f : point -> point) (pts : list point) :
  remap_streamline f pts = map f pts.
Proof.
  unfold remap_streamline. rewrite remap_streamline_prefix by lia.
  by rewrite firstn_all, drop_all, app_nil_r.
Qed.

Lemma remap_all_prefix (f : point -> point) (fib : list track) (n : nat) :
  (n <= length fib)%nat ->
  foldl (fun (new_fib : list track) (i : nat) =>
           match fib !! i with
           | Some t =>
               new_fib ++ [(remap_streamline f (fst (fst t)), None, None)]
           | None => new_fib
           end)
        [] (seq 0 n)
  = map (fun t => (map f (fst (fst t)), None, None)) (take n fib).
Proof.
  induction n as [|n IH]; intros Hn; [reflexivity|].
  rewrite seq_S, foldl_app, IH by lia. cbn [foldl Nat.add].
  destruct (fib !! n) as [t|] eqn:Ht.
  - rewrite (take_S_r _ _ _ Ht), map_app, remap_streamline_map. reflexivity.
  - apply lookup_ge_None in Ht. lia.
Qed.

Lemma remap_all_map (f : point -> point) (fib : list track) :
  remap_all f fib = map (fun t => (map f (fst (fst t)), None, None)) fib.
Proof.
  unfold remap_all. rewrite remap_all_prefix by lia. by rewrite firstn_all.
Qed.

Lemma flip_at (axcode_k : string) (c : ascii) (order : string) (k : nat) :
  String.get k order = Some c ->
  flip axcode_k order k = inr (sign axcode_k c).
Proof.
  intros Hc. unfold flip, str_index, sign. rewrite Hc.
  destruct (String.eqb_spec axcode_k (String c "")) as [->|Hne].
  - by rewrite decide_True.
  - by rewrite decide_False.
Qed.

(** C5.  When the recorded voxel order of the track file has (at least)
    three characters, [match_orientations] completes; for each axis the
    sign is +1 when the axis code of the reference equals the recorded
    character at that index and -1 otherwise; every point of every
    streamline is remapped to [sign_i * (p_i - origin_i) + voxel_size_i / 2]
    with the origin recorded in the track file; and the header written has
    the three axis codes of the reference, concatenated, as voxel order. *)
Theorem orientation_correction (cwd name : string) (dims : Z * Z * Z)
    (vx vy vz : Q) (a0 a1 a2 : string) (fib : list track) (hdr : header)
    (c0 c1 c2 : ascii) (rest : string) :
  voxel_order hdr = String c0 (String c1 (String c2 rest)) ->
  let s0 := sign a0 c0 in
  let s1 := sign a1 c1 in
  let s2 := sign a2 c2 in
  ∃ out,
    _run_interface cwd name dims (vx, vy, vz) (a0, a1, a2) fib hdr = inr out
    ∧ (s0 = (if decide (a0 = String c0 "") then 1 else -1)
       ∧ s1 = (if decide (a1 = String c1 "") then 1 else -1)
       ∧ s2 = (if decide (a2 = String c2 "") then 1 else -1))
    ∧ voxel_order (w_header out) = a0 +:+ a1 +:+ a2
    ∧ length (w_streamlines out) = length fib
    ∧ (∀ i t, fib !! i = Some t ->
         ∃ t', w_streamlines out !! i = Some t'
           ∧ length (fst (fst t')) = length (fst (fst t))
           ∧ ∀ j p0 p1 p2, fst (fst t) !! j = Some (p0, p1, p2) ->
               fst (fst t') !! j
               = Some ((inject_Z s0 * (p0 - fst (fst (origin hdr))) + vx / 2)%Q,
                       (inject_Z s1 * (p1 - snd (fst (origin hdr))) + vy / 2)%Q,
                       (inject_Z s2 * (p2 - snd (origin hdr)) + vz / 2)%Q)).
Proof.
  intros Horder s0 s1 s2. unfold _run_interface.
  rewrite (flip_at a0 c0), (flip_at a1 c1), (flip_at a2 c2)
    by (rewrite Horder; reflexivity).
  eexists. split; [reflexivity|]. split; [auto|].
  cbn [w_header w_streamlines voxel_order]. split; [reflexivity|].
  rewrite remap_all_map. split; [apply length_map|].
  intros i t Ht. rewrite list_lookup_fmap, Ht. cbn [fmap option_fmap option_map].
  eexists. split; [reflexivity|]. cbn [fst]. split; [apply length_map|].
  intros j p0 p1 p2 Hp. rewrite list_lookup_fmap, Hp.
  cbn [fmap option_fmap option_map]. unfold remap.
  destruct (origin hdr) as [[ox oy] oz]. reflexivity.
Qed.

Lemma orientation_correction_witness :
  ∃ out,
    _run_interface "/work" "fibers" (4, 4, 2) (2, 2, 3)%Q ("L", "A", "S")
      [([(1, 2, 3); (0, 0, 0)]%Q, None, None)]
      (mkHeader (4, 4, 2) (2, 2, 3)%Q (1, 0, 0)%Q "LPS")
    = inr out
    ∧ voxel_order (w_header out) = "LAS"
    ∧ ∃ t', w_streamlines out !! 0%nat = Some t'
        ∧ fst (fst t') !! 0%nat
          = Some ((inject_Z 1 * (1 - 1) + 2 / 2)%Q,
                  (inject_Z (-1) * (2 - 0) + 2 / 2)%Q,
                  (inject_Z 1 * (3 - 0) + 3 / 2)%Q).
Proof.
  destruct (orientation_correction "/work" "fibers" (4, 4, 2) 2 2 3
              "L" "A" "S" [([(1, 2, 3); (0, 0, 0)]%Q, None, None)]
              (mkHeader (4, 4, 2) (2, 2, 3)%Q (1, 0, 0)%Q "LPS")
              "L" "P" "S" "" eq_refl)
    as (out & Hrun & _ & Horder & _ & Hpts).
  exists out. split; [exact Hrun|]. split; [exact Horder|].
  destruct (Hpts 0%nat _ eq_refl) as (t' & Ht' & _ & Hp).
  exists t'. split; [exact Ht'|]. exact (Hp 0%nat _ _ _ eq_refl).
Defined.

End Orientation_properties.

Section MRtrix_config_more.
Import MRtrix_tracking_config.

Lemma setattr_fuel (fuel : nat) (self : t) (w : write) :
  (3 <= fuel)%nat -> setattr fuel self w = setattr 3 self w.
Proof.
  intros Hf. destruct w; cbn [setattr]; try reflexivity.
  - unfold set_tracking_mode, _tracking_mode_changed.
    by rewrite !(set_curvature_fuel fuel), !(set_curvature_fuel 3) by lia.
  - unfold set_SD, _SD_changed.
    by rewrite !(set_curvature_fuel fuel), !(set_curvature_fuel 3) by lia.
  - by rewrite (set_curvature_fuel fuel), (set_curvature_fuel 3) by lia.
Qed.

Lemma setattr_total (self : t) (w : write) : is_Some (setattr 3 self w).
Proof.
  destruct w; cbn [setattr]; try (eexists; reflexivity).
  - unfold set_tracking_mode, _tracking_mode_changed.
    repeat match goal with |- context [if ?b then _ else _] => destruct b end;
      rewrite ?set_curvature_fuel by lia; eexists; reflexivity.
  - unfold set_SD, _SD_changed.
    repeat match goal with |- context [if ?b then _ else _] => destruct b end;
      rewrite ?set_curvature_fuel by lia; eexists; reflexivity.
  - rewrite set_curvature_fuel by lia. eexists; reflexivity.
Qed.

(** X1.  A write to any trait of [MRtrix_tracking_config] comes to rest: with
    room for three nested notifications the cascade of [_*_changed]
    handlers ends, and its result does not depend on how much more room
    there is.  Three is needed: a write of a curvature below the threshold
    to the default configuration nests three calls deep (the write, the
    handler's write of 0.0, and that write's own notification), so it does
    not finish within two. *)
Theorem notification_cascade_terminates (fuel : nat) (self : t) (w : write) :
  (3 <= fuel)%nat ->
  (∃ self', setattr fuel self w = Some self'
            ∧ ∀ fuel', (3 <= fuel')%nat -> setattr fuel' self w = Some self')
  ∧ set_curvature 2 default (1 # 2000000) = None.
Proof.
  intros Hf. split; [|reflexivity].
  destruct (setattr_total self w) as [self' Hs]. exists self'.
  split; [by rewrite setattr_fuel|]. intros fuel' Hf'. by rewrite setattr_fuel.
Qed.

Lemma notification_cascade_terminates_witness :
  ∃ self', setattr 3 default (W_curvature (1 # 2000000)) = Some self'
           ∧ setattr 7 default (W_curvature (1 # 2000000)) = Some self'.
Proof.
  destruct (notification_cascade_terminates 3 default
              (W_curvature (1 # 2000000))) as [(self' & H3 & Hall) _]; [lia|].
  exists self'. split; [exact H3|]. apply Hall. lia.
Defined.

(** X2.  [config.curvature = v] changes nothing but the curvature, and leaves
    it at [v] or at 0.0: at [v] whenever [v] is above the threshold
    0.000001, at 0.0 whenever [v] is at or below the threshold and differs
    from the value held before (so that the handler runs). *)
Theorem curvature_write_keeps_or_snaps (fuel : nat) (self : t) (v : Q) :
  (3 <= fuel)%nat ->
  ∃ c, set_curvature fuel self v = Some (store_curvature self c)
       ∧ (c = v ∨ c = 0%Q)
       ∧ ((epsilon < v)%Q -> c = v)
       ∧ ((v <= epsilon)%Q -> ¬ (curvature self == v)%Q -> c = 0%Q).
Proof.
  intros Hf. exists (snap (curvature self) v).
  split; [by apply set_curvature_fuel|]. unfold snap.
  destruct (Qeq_bool (curvature self) v) eqn:Heq;
    destruct (Qle_bool v epsilon) eqn:Hle.
  - split; [auto|]. split; [auto|]. intros _ Hne.
    apply Qeq_bool_iff in Heq. contradiction.
  - split; [auto|]. split; [auto|]. intros _ Hne.
    apply Qeq_bool_iff in Heq. contradiction.
  - split; [auto|]. split; [|auto]. intros Hlt.
    apply Qle_bool_iff in Hle. exfalso. exact (Qlt_not_le _ _ Hlt Hle).
  - split; [auto|]. split; [auto|]. intros Hv.
    apply Qle_bool_iff in Hv. congruence.
Qed.

Lemma curvature_write_keeps_or_snaps_witness :
  ∃ c, set_curvature 3 default (3 # 2) = Some (store_curvature default c)
       ∧ c = (3 # 2)%Q.
Proof.
  destruct (curvature_write_keeps_or_snaps 3 default (3 # 2))
    as (c & Hrun & _ & Hkeep & _); [lia|].
  exists c. split; [exact Hrun|]. apply Hkeep. reflexivity.
Defined.

(** X3.  Switching [use_act] off and on again does not bring the three ACT
    options back: starting with [use_act] set, after
    [use_act = False; use_act = True] the configuration has [use_act] set
    and [crop_at_gmwmi], [seed_from_gmwmi] and [backtrack] all cleared,
    whatever they were before. *)
Theorem act_flags_not_restored (self : t) :
  use_act self = true ->
  let off := set_use_act self false in
  let on := set_use_act off true in
  use_act on = true
  ∧ crop_at_gmwmi on = false ∧ seed_from_gmwmi on = false
  ∧ backtrack on = false.
Proof.
  intros Hact. unfold set_use_act, _use_act_changed. rewrite Hact. cbn. auto.
Qed.

Lemma act_flags_not_restored_witness :
  crop_at_gmwmi default = true ∧ backtrack default = true
  ∧ crop_at_gmwmi (set_use_act (set_use_act default false) true) = false
  ∧ backtrack (set_use_act (set_use_act default false) true) = false.
Proof.
  destruct (act_flags_not_restored default eq_refl) as (_ & Hc & _ & Hb).
  split; [reflexivity|]. split; [reflexivity|]. split; assumption.
Defined.

(** X4.  The two groups of traits do not interfere.  A write to a trait other
    than [curvature], [SD] and [tracking_mode] leaves these three as they
    were, and a write to a trait other than [use_act] and the three ACT
    options leaves those four as they were, handlers included. *)
Theorem writes_touch_only_their_group (fuel : nat) (self self' : t)
    (w : write) :
  setattr fuel self w = Some self' ->
  (writes_curvature w = false ->
   curvature self' = curvature self ∧ SD self' = SD self
   ∧ tracking_mode self' = tracking_mode self)
  ∧ (writes_act w = false ->
     use_act self' = use_act self
     ∧ seed_from_gmwmi self' = seed_from_gmwmi self
     ∧ crop_at_gmwmi self' = crop_at_gmwmi self
     ∧ backtrack self' = backtrack self).
Proof.
  intros Hw.
  assert (Hcurv : ∀ (s0 : t) (c : Q) r,
            set_curvature fuel s0 c = Some r ->
            SD r = SD s0 ∧ tracking_mode r = tracking_mode s0
            ∧ use_act r = use_act s0
            ∧ seed_from_gmwmi r = seed_from_gmwmi s0
            ∧ crop_at_gmwmi r = crop_at_gmwmi s0
            ∧ backtrack r = backtrack s0).
  { intros s0 c r Hr. apply set_curvature_result in Hr. subst r.
    cbn. auto 7. }
  destruct w; cbn [setattr writes_curvature writes_act] in *.
  - split; [discriminate|]. intros _. revert Hw.
    unfold set_tracking_mode, _tracking_mode_changed.
    repeat match goal with |- context [if ?b then _ else _] => destruct b end;
      intros Hw; try (apply Hcurv in Hw; cbn in Hw; tauto);
      injection Hw as <-; cbn; auto.
  - split; [discriminate|]. intros _. revert Hw.
    unfold set_SD, _SD_changed.
    repeat match goal with |- context [if ?b then _ else _] => destruct b end;
      intros Hw; try (apply Hcurv in Hw; cbn in Hw; tauto);
      injection Hw as <-; cbn; auto.
  - injection Hw as <-. cbn. auto 7.
  - split; [discriminate|]. intros _. apply Hcurv in Hw. tauto.
  - injection Hw as <-. cbn. auto 7.
  - injection Hw as <-. cbn. auto 7.
  - injection Hw as <-. cbn. auto 7.
  - injection Hw as <-. cbn. auto 7.
  - injection Hw as <-. cbn. auto 7.
  - injection Hw as <-. split; [|discriminate]. intros _.
    unfold set_use_act, _use_act_changed.
    repeat match goal with |- context [if ?b then _ else _] => destruct b end;
      cbn; auto.
  - injection Hw as <-. split; [|discriminate]. intros _. cbn. auto.
  - injection Hw as <-. split; [|discriminate]. intros _. cbn. auto.
  - injection Hw as <-. split; [|discriminate]. intros _. cbn. auto.
Qed.

Lemma writes_touch_only_their_group_witness :
  curvature (store_step_size default 1) = curvature default
  ∧ backtrack (store_step_size default 1) = backtrack default.
Proof.
  destruct (writes_touch_only_their_group 3 default
              (store_step_size default 1) (W_step_size 1) eq_refl)
    as [Hc Ha].
  destruct (Hc eq_refl) as (H1 & _). destruct (Ha eq_refl) as (_ & _ & _ & H4).
  split; assumption.
Defined.

End MRtrix_config_more.

Section Workflow_more.
Import nipype.

Ltac case_strings :=
  repeat match goal with
  | |- context [String.eqb ?a ?b] =>
      let E := fresh "E" in destruct (String.eqb_spec a b) as [E|E]
  end.

Ltac mrtrix_projections :=
  cbn [MRtrix_tracking_config.tracking_mode MRtrix_tracking_config.SD
       MRtrix_tracking_config.curvature MRtrix_tracking_config.use_act
       MRtrix_tracking_config.seed_from_gmwmi
       MRtrix_tracking_config.crop_at_gmwmi MRtrix_tracking_config.backtrack].

Ltac dipy_projections :=
  cbn [Dipy_tracking_config.SD Dipy_tracking_config.imaging_model
       Dipy_tracking_config.tracking_mode Dipy_tracking_config.sh_order
       Dipy_tracking_config.use_act
       Dipy_tracking_config.fast_number_of_classes].

Ltac by_compute := apply (bool_decide_unpack _); vm_compute; exact I.

(** X5.  In a configuration reached through trait writes, the deterministic
    MRtrix tracking stage gets [rk4 = True] exactly when the curvature is
    not zero, and no [rk4] input at all when it is zero. *)
Theorem rk4_follows_curvature (config : MRtrix_tracking_config.t) :
  MRtrix_tracking_config.reachable config ->
  MRtrix_tracking_config.tracking_mode config = "Deterministic" ->
  let w := create_mrtrix_tracking_flow config in
  ((MRtrix_tracking_config.curvature config == 0)%Q ->
   input_of w "mrtrix_deterministic_tracking" "rk4" = None)
  ∧ (¬ (MRtrix_tracking_config.curvature config == 0)%Q ->
     input_of w "mrtrix_deterministic_tracking" "rk4" = Some (VBool true)).
Proof.
  intros Hreach Hmode. apply reachable_snapped in Hreach.
  unfold MRtrix_tracking_config.curvature_snapped in Hreach.
  destruct config as
    [mode sd tracks curv step minl maxl ang cut act gmwmi crop back].
  cbn [MRtrix_tracking_config.tracking_mode
       MRtrix_tracking_config.curvature] in *. subst mode.
  unfold create_mrtrix_tracking_flow. mrtrix_projections.
  cbn [String.eqb Ascii.eqb Bool.eqb].
  destruct (Qle_bool MRtrix_tracking_config.epsilon curv) eqn:Hle.
  - split.
    + intros Hzero. apply Qle_bool_iff in Hle. rewrite Hzero in Hle.
      exfalso. revert Hle. apply Qlt_not_le. reflexivity.
    + intros _. destruct sd, act, gmwmi; vm_compute; reflexivity.
  - split.
    + intros _. destruct sd, act, gmwmi; vm_compute; reflexivity.
    + intros Hnz. destruct Hreach as [Hzero|Hbig]; [contradiction|].
      apply Qlt_le_weak, Qle_bool_iff in Hbig. congruence.
Qed.

Lemma rk4_follows_curvature_witness :
  input_of (create_mrtrix_tracking_flow act_deterministic)
    "mrtrix_deterministic_tracking" "rk4" = Some (VBool true).
Proof.
  assert (Hr : MRtrix_tracking_config.reachable act_deterministic).
  { apply (MRtrix_tracking_config.reachable_setattr
             MRtrix_tracking_config.default
             (MRtrix_tracking_config.W_tracking_mode "Deterministic") 3);
      [apply MRtrix_tracking_config.reachable_default | reflexivity]. }
  destruct (rk4_follows_curvature act_deterministic Hr eq_refl) as [_ H].
  apply H. discriminate.
Defined.


Ltac mrtrix_cases curv :=
  unfold create_mrtrix_tracking_flow; mrtrix_projections; case_strings;
  destruct (Qle_bool MRtrix_tracking_config.epsilon curv).

(** X6.  In both tracking modes: with [use_act] the MRtrix tracking stage is
    fed the five-tissue image on [act_file], gets no [mask_file], and
    receives [backtrack] and [crop_at_gmwmi] from the configuration.  Without [use_act] it is fed
    the white-matter mask on [mask_file], gets no [act_file] and neither
    of the two options, and still seeds from the GM/WM interface image if
    [seed_from_gmwmi] is set. *)
Theorem act_wiring (config : MRtrix_tracking_config.t) :
  MRtrix_tracking_config.tracking_mode config = "Deterministic"
  ∨ MRtrix_tracking_config.tracking_mode config = "Probabilistic" ->
  let w := create_mrtrix_tracking_flow config in
  ∃ t, tracking_stages w = [t]
    ∧ (MRtrix_tracking_config.use_act config = true ->
       edges_into_port w t "act_file"
       = [mkEdge "inputnode" "act_5tt_registered" t "act_file"]
       ∧ edges_into_port w t "mask_file" = []
       ∧ input_of w t "backtrack"
         = Some (VBool (MRtrix_tracking_config.backtrack config))
       ∧ input_of w t "crop_at_gmwmi"
         = Some (VBool (MRtrix_tracking_config.crop_at_gmwmi config)))
    ∧ (MRtrix_tracking_config.use_act config = false ->
       edges_into_port w t "act_file" = []
       ∧ edges_into_port w t "mask_file"
         = [mkEdge "inputnode" "wm_mask_resampled" t "mask_file"]
       ∧ input_of w t "backtrack" = None
       ∧ input_of w t "crop_at_gmwmi" = None
       ∧ (MRtrix_tracking_config.seed_from_gmwmi config = true ->
          seed_edges w
          = [mkEdge "inputnode" "gmwmi_registered" t "seed_gmwmi"])).
Proof.
  destruct config as
    [mode sd tracks curv step minl maxl ang cut act gmwmi crop back].
  mrtrix_projections. intros [-> | ->]; cbv zeta;
    unfold create_mrtrix_tracking_flow; mrtrix_projections;
    cbn [String.eqb Ascii.eqb Bool.eqb];
    destruct (Qle_bool MRtrix_tracking_config.epsilon curv), act;
    eexists;
    (split; [destruct sd, gmwmi; vm_compute; reflexivity|]);
    (split; intros Hact; try discriminate Hact);
    repeat split; intros; subst;
      destruct sd; try destruct gmwmi; vm_compute; reflexivity.
Qed.

Lemma act_wiring_witness :
  ∃ t, tracking_stages (create_mrtrix_tracking_flow act_deterministic) = [t]
    ∧ edges_into_port (create_mrtrix_tracking_flow act_deterministic) t
        "act_file"
      = [mkEdge "inputnode" "act_5tt_registered" t "act_file"]
    ∧ edges_into_port (create_mrtrix_tracking_flow act_deterministic) t
        "mask_file" = [].
Proof.
  destruct (act_wiring act_deterministic) as (t & Ht & Hact & _);
    [left; reflexivity|].
  exists t. split; [exact Ht|].
  destruct (Hact eq_refl) as (H1 & H2 & _). split; assumption.
Defined.

(** X7.  The tracking algorithm of the MRtrix workflow: SD_Stream in
    Deterministic mode; in Probabilistic mode iFOD2 with [SD] and
    Tensor_Prob without it, and never [rk4].  The one tracking stage
    receives the six streamline settings of the configuration unchanged. *)
Theorem tracking_model_and_settings (config : MRtrix_tracking_config.t) :
  let w := create_mrtrix_tracking_flow config in
  (MRtrix_tracking_config.tracking_mode config = "Deterministic" ->
   input_of w "mrtrix_deterministic_tracking" "inputmodel"
   = Some (VStr "SD_Stream"))
  ∧ (MRtrix_tracking_config.tracking_mode config = "Probabilistic" ->
     input_of w "mrtrix_probabilistic_tracking" "inputmodel"
     = Some (VStr (if MRtrix_tracking_config.SD config
                   then "iFOD2" else "Tensor_Prob"))
     ∧ input_of w "mrtrix_probabilistic_tracking" "rk4" = None)
  ∧ (∀ t, tracking_stages w = [t] ->
       input_of w t "desired_number_of_tracks"
       = Some (VInt (MRtrix_tracking_config.desired_number_of_tracks config))
       ∧ input_of w t "maximum_tract_length"
         = Some (VFloat (MRtrix_tracking_config.max_length config))
       ∧ input_of w t "minimum_tract_length"
         = Some (VFloat (MRtrix_tracking_config.min_length config))
       ∧ input_of w t "step_size"
         = Some (VFloat (MRtrix_tracking_config.step_size config))
       ∧ input_of w t "angle"
         = Some (VFloat (MRtrix_tracking_config.angle config))
       ∧ input_of w t "cutoff_value"
         = Some (VFloat (MRtrix_tracking_config.cutoff_value config))).
Proof.
  destruct config as
    [mode sd tracks curv step minl maxl ang cut act gmwmi crop back].
  cbn [MRtrix_tracking_config.tracking_mode MRtrix_tracking_config.SD
       MRtrix_tracking_config.desired_number_of_tracks
       MRtrix_tracking_config.max_length MRtrix_tracking_config.min_length
       MRtrix_tracking_config.step_size MRtrix_tracking_config.angle
       MRtrix_tracking_config.cutoff_value].
  cbv zeta. split; [|split].
  - intros ->. unfold create_mrtrix_tracking_flow. mrtrix_projections.
    cbn [String.eqb Ascii.eqb Bool.eqb].
    destruct (Qle_bool MRtrix_tracking_config.epsilon curv), sd, act, gmwmi;
      vm_compute; reflexivity.
  - intros ->. unfold create_mrtrix_tracking_flow. mrtrix_projections.
    cbn [String.eqb Ascii.eqb Bool.eqb].
    split; destruct sd, act, gmwmi; vm_compute; reflexivity.
  - intros t. mrtrix_cases curv; destruct sd, act, gmwmi; intros Ht;
      vm_compute in Ht; try discriminate Ht; injection Ht as <-;
      repeat split; vm_compute; reflexivity.
Qed.

Lemma tracking_model_and_settings_witness :
  input_of (create_mrtrix_tracking_flow act_deterministic)
    "mrtrix_deterministic_tracking" "inputmodel" = Some (VStr "SD_Stream")
  ∧ input_of (create_mrtrix_tracking_flow act_deterministic)
      "mrtrix_deterministic_tracking" "step_size" = Some (VFloat (1 # 2)).
Proof.
  destruct (tracking_model_and_settings act_deterministic)
    as (Hdet & _ & Hset).
  split; [exact (Hdet eq_refl)|].
  assert (Hts : tracking_stages (create_mrtrix_tracking_flow act_deterministic)
                = ["mrtrix_deterministic_tracking"])
    by (vm_compute; reflexivity).
  destruct (Hset _ Hts) as (_ & _ & _ & Hstep & _). exact Hstep.
Defined.


(** X8.  In both tracking modes the output [track_file] of the MRtrix workflow
    is the [converted.trk] of the [Tck2Trk] converter, which reads the
    tracking stage's [tracked] output; the input node reaches the output
    node, and no orientation matcher is part of the graph.  In any other
    mode the workflow consists of the input node and the erosion stage
    alone, joined by one edge; the output node is not part of it. *)
Theorem mrtrix_output_through_converter (config : MRtrix_tracking_config.t) :
  let w := create_mrtrix_tracking_flow config in
  let mode := MRtrix_tracking_config.tracking_mode config in
  (mode = "Deterministic" ∨ mode = "Probabilistic" ->
   ∃ t, tracking_stages w = [t]
     ∧ interface_of w "trackvis" = Some Tck2Trk
     ∧ input_of w "trackvis" "out_tracks" = Some (VStr "converted.trk")
     ∧ edges_into w "outputnode"
       = [mkEdge "trackvis" "out_tracks" "outputnode" "track_file"]
     ∧ edges_into_port w "trackvis" "in_tracks"
       = [mkEdge t "tracked" "trackvis" "in_tracks"]
     ∧ path (flow w) "inputnode" "outputnode"
     ∧ "orient_matcher" ∉ flow_nodes (flow w))
  ∧ (mode ≠ "Deterministic" -> mode ≠ "Probabilistic" ->
     flow_nodes (flow w) = ["inputnode"; "wm_erode"]
     ∧ flow_edges (flow w)
       = [mkEdge "inputnode" "wm_mask_resampled" "wm_erode" "in_file"]).
Proof.
  destruct config as
    [mode sd tracks curv step minl maxl ang cut act gmwmi crop back].
  mrtrix_projections. cbv zeta. split.
  - intros [-> | ->]; unfold create_mrtrix_tracking_flow; mrtrix_projections;
      cbn [String.eqb Ascii.eqb Bool.eqb];
      destruct (Qle_bool MRtrix_tracking_config.epsilon curv), sd, act, gmwmi;
      (eexists; (split; [vm_compute; reflexivity|]);
       (split; [vm_compute; reflexivity|]);
       (split; [vm_compute; reflexivity|]);
       (split; [vm_compute; reflexivity|]);
       (split; [vm_compute; reflexivity|]);
       (split; [|by_compute]));
      first
        [ apply (path_step _ (mkEdge "inputnode" "DWI"
                                "mrtrix_deterministic_tracking" "in_file"));
            [by_compute|];
          apply (path_step _ (mkEdge "mrtrix_deterministic_tracking"
                                "tracked" "trackvis" "in_tracks"));
            [by_compute|]
        | apply (path_step _ (mkEdge "inputnode" "DWI"
                                "mrtrix_probabilistic_tracking" "in_file"));
            [by_compute|];
          apply (path_step _ (mkEdge "mrtrix_probabilistic_tracking"
                                "tracked" "trackvis" "in_tracks"));
            [by_compute|] ];
      apply (path_edge _ (mkEdge "trackvis" "out_tracks" "outputnode"
                                 "track_file"));
      by_compute.
  - intros Hd Hp. unfold create_mrtrix_tracking_flow. mrtrix_projections.
    destruct (String.eqb_spec mode "Deterministic") as [E|_];
      [contradiction|].
    destruct (String.eqb_spec mode "Probabilistic") as [E|_];
      [contradiction|].
    split; vm_compute; reflexivity.
Qed.

Lemma mrtrix_output_through_converter_witness :
  edges_into (create_mrtrix_tracking_flow act_deterministic) "outputnode"
  = [mkEdge "trackvis" "out_tracks" "outputnode" "track_file"]
  ∧ flow_nodes (flow (create_mrtrix_tracking_flow
                        MRtrix_tracking_config.default))
    = ["inputnode"; "wm_erode"].
Proof.
  destruct (mrtrix_output_through_converter act_deterministic) as [Hmode _].
  destruct (mrtrix_output_through_converter MRtrix_tracking_config.default)
    as [_ Hnone].
  split.
  - destruct Hmode as (t & _ & _ & _ & Hout & _); [left; reflexivity|].
    exact Hout.
  - destruct Hnone as [Hnodes _]; [discriminate|discriminate|]. exact Hnodes.
Defined.

Lemma path_goes_up (w : world) (a b : string) :
  edges_go_up w -> path (flow w) a b ->
  (stage_rank a < stage_rank b)%nat.
Proof.
  intros Hup. unfold edges_go_up in Hup. rewrite Forall_forall in Hup.
  induction 1 as [e He|e b He _ IH].
  - exact (Hup e He).
  - specialize (Hup e He). lia.
Qed.

(** X9.  Whatever the configuration, the MRtrix and the Dipy workflow are well
    wired: stage names are unique, no input port is connected twice, every
    edge joins two stages of the graph and every stage has its node. *)
Theorem flows_are_well_wired :
  (∀ config, well_wired (create_mrtrix_tracking_flow config))
  ∧ (∀ config, well_wired (create_dipy_tracking_flow config)).
Proof.
  split.
  - intros config. destruct config as
      [mode sd tracks curv step minl maxl ang cut act gmwmi crop back].
    mrtrix_cases curv; destruct sd, act, gmwmi; by_compute.
  - intros config. destruct config as
      [model mode sd seeds fa step ang order act classes].
    unfold create_dipy_tracking_flow. dipy_projections.
    case_strings; destruct sd; by_compute.
Qed.

(** X10.  Whatever the configuration, the MRtrix and the Dipy workflow have no
    cycle: no stage reaches itself along the edges. *)
Theorem flows_are_acyclic :
  (∀ config n, ¬ path (flow (create_mrtrix_tracking_flow config)) n n)
  ∧ (∀ config n, ¬ path (flow (create_dipy_tracking_flow config)) n n).
Proof.
  split; intros config n Hp.
  - assert (Hup : edges_go_up (create_mrtrix_tracking_flow config)).
    { destruct config as
        [mode sd tracks curv step minl maxl ang cut act gmwmi crop back].
      mrtrix_cases curv; destruct sd, act, gmwmi; by_compute. }
    pose proof (path_goes_up _ _ _ Hup Hp). lia.
  - assert (Hup : edges_go_up (create_dipy_tracking_flow config)).
    { destruct config as [model mode sd seeds fa step ang order act classes].
      unfold create_dipy_tracking_flow. dipy_projections.
      case_strings; destruct sd; by_compute. }
    pose proof (path_goes_up _ _ _ Hup Hp). lia.
Qed.


Ltac dipy_cases :=
  unfold create_dipy_tracking_flow; dipy_projections; case_strings.

(** X11.  The [make_seeds] stage of the Dipy workflow has no outgoing edge and
    reaches no stage.  Where it is present it reads the white-matter mask
    and the registered parcellation, while the tracking stage takes its
    [seed_mask] from the white-matter mask of the input node. *)
Theorem dipy_seeds_output_unused (config : Dipy_tracking_config.t) :
  let w := create_dipy_tracking_flow config in
  edges_from w "dipy_seeds" = []
  ∧ (∀ b, ¬ path (flow w) "dipy_seeds" b)
  ∧ (has_stage w make_seeds ->
     edges_into w "dipy_seeds"
     = [mkEdge "inputnode" "wm_mask_resampled" "dipy_seeds" "WM_file";
        mkEdge "inputnode" "gm_registered" "dipy_seeds" "ROI_files"]
     ∧ ∃ t, tracking_stages w = [t]
         ∧ edges_into_port w t "seed_mask"
           = [mkEdge "inputnode" "wm_mask_resampled" t "seed_mask"]).
Proof.
  destruct config as [model mode sd seeds fa step ang order act classes].
  cbv zeta.
  assert (Hfrom : edges_from
                    (create_dipy_tracking_flow
                       (Dipy_tracking_config.mk model mode sd seeds fa step
                          ang order act classes)) "dipy_seeds" = []).
  { dipy_cases; destruct sd; vm_compute; reflexivity. }
  split; [exact Hfrom|].
  split; [intros b; by apply no_edge_no_path|].
  unfold has_stage. dipy_cases; destruct sd; intros Hstage;
    try (exfalso; apply Hstage; vm_compute; reflexivity);
    (split; [vm_compute; reflexivity|]);
    eexists; (split; [vm_compute; reflexivity|]); vm_compute; reflexivity.
Qed.

Lemma dipy_seeds_output_unused_witness :
  edges_into (create_dipy_tracking_flow dti_csd) "dipy_seeds"
  = [mkEdge "inputnode" "wm_mask_resampled" "dipy_seeds" "WM_file";
     mkEdge "inputnode" "gm_registered" "dipy_seeds" "ROI_files"]
  ∧ edges_from (create_dipy_tracking_flow dti_csd) "dipy_seeds" = [].
Proof.
  destruct (dipy_seeds_output_unused dti_csd) as (Hfrom & _ & Hin).
  split; [|exact Hfrom]. apply Hin. vm_compute. discriminate.
Defined.

(** X12.  What the one tracking stage of the Dipy workflow is given depends on
    its interface.  The tensor-informed EuDX stage gets no FOD file, no
    partial volume files and none of [use_act], [algo], [recon_model].
    The direction-getter stage gets the partial volume files, [use_act]
    and [fast_number_of_classes]; it gets the FOD file exactly for the
    DSI model, and no [recon_order] then. *)
Theorem dipy_csd_only_inputs (config : Dipy_tracking_config.t) :
  let w := create_dipy_tracking_flow config in
  ∀ t, tracking_stages w = [t] ->
    (interface_of w t = Some TensorInformedEudXTractography ->
     edges_into_port w t "fod_file" = []
     ∧ edges_into_port w t "in_partial_volume_files" = []
     ∧ input_of w t "use_act" = None
     ∧ input_of w t "algo" = None
     ∧ input_of w t "recon_model" = None)
    ∧ (interface_of w t = Some DirectionGetterTractography ->
       (Dipy_tracking_config.imaging_model config = "DSI" ->
        edges_into_port w t "fod_file"
        = [mkEdge "inputnode" "fod_file" t "fod_file"]
        ∧ input_of w t "recon_order" = None)
       ∧ (Dipy_tracking_config.imaging_model config ≠ "DSI" ->
          edges_into_port w t "fod_file" = [])
       ∧ edges_into_port w t "in_partial_volume_files"
         = [mkEdge "inputnode" "partial_volumes" t "in_partial_volume_files"]
       ∧ input_of w t "use_act"
         = Some (VBool (Dipy_tracking_config.use_act config))
       ∧ input_of w t "fast_number_of_classes"
         = Some (VInt (Dipy_tracking_config.fast_number_of_classes config))).
Proof.
  destruct config as [model mode sd seeds fa step ang order act classes].
  cbv zeta. intros t. dipy_cases; destruct sd; intros Ht;
    vm_compute in Ht; try discriminate Ht; injection Ht as <-;
    (split; intros Hi; vm_compute in Hi; try discriminate Hi);
    repeat split; intros; try contradiction; try discriminate;
    vm_compute; reflexivity.
Qed.

Lemma dipy_csd_only_inputs_witness :
  edges_into_port (create_dipy_tracking_flow dti_csd)
    "dipy_deterministic_tracking" "fod_file" = []
  ∧ input_of (create_dipy_tracking_flow dti_tensor)
      "dipy_dtieudx_tracking" "algo" = None.
Proof.
  split.
  - assert (Hts : tracking_stages (create_dipy_tracking_flow dti_csd)
                  = ["dipy_deterministic_tracking"])
      by (vm_compute; reflexivity).
    destruct (dipy_csd_only_inputs dti_csd _ Hts) as [_ Hcsd].
    destruct Hcsd as (_ & Hnofod & _); [vm_compute; reflexivity|].
    apply Hnofod. discriminate.
  - assert (Hts : tracking_stages (create_dipy_tracking_flow dti_tensor)
                  = ["dipy_dtieudx_tracking"])
      by (vm_compute; reflexivity).
    destruct (dipy_csd_only_inputs dti_tensor _ Hts) as [Htensor _].
    destruct Htensor as (_ & _ & _ & Halgo & _); [vm_compute; reflexivity|].
    exact Halgo.
Defined.

(** X13.  With [SD] or the DSI model, a tracking mode that is neither
    Deterministic nor Probabilistic makes [create_dipy_tracking_flow]
    return a workflow with no stage and no edge. *)
Theorem dipy_unknown_mode_builds_nothing (config : Dipy_tracking_config.t) :
  Dipy_tracking_config.SD config = true
  ∨ Dipy_tracking_config.imaging_model config = "DSI" ->
  Dipy_tracking_config.tracking_mode config ≠ "Deterministic" ->
  Dipy_tracking_config.tracking_mode config ≠ "Probabilistic" ->
  flow_nodes (flow (create_dipy_tracking_flow config)) = []
  ∧ flow_edges (flow (create_dipy_tracking_flow config)) = [].
Proof.
  destruct config as [model mode sd seeds fa step ang order act classes].
  dipy_projections. intros Hcsd Hd Hp.
  unfold create_dipy_tracking_flow. dipy_projections.
  destruct (String.eqb_spec mode "Deterministic") as [E|_]; [contradiction|].
  destruct (String.eqb_spec mode "Probabilistic") as [E|_]; [contradiction|].
  destruct Hcsd as [-> | ->].
  - cbn [negb andb]. split; vm_compute; reflexivity.
  - cbn [String.eqb Ascii.eqb Bool.eqb negb andb]. rewrite andb_false_r.
    split; vm_compute; reflexivity.
Qed.

Lemma dipy_unknown_mode_builds_nothing_witness :
  flow_nodes (flow (create_dipy_tracking_flow
                      (Dipy_tracking_config.mk "DSI" "" false 1000 (2 # 10)
                         (1 # 2) 25 8 false 3))) = [].
Proof.
  destruct (dipy_unknown_mode_builds_nothing
              (Dipy_tracking_config.mk "DSI" "" false 1000 (2 # 10)
                 (1 # 2) 25 8 false 3)) as [H _];
    [right; reflexivity | discriminate | discriminate | exact H].
Defined.

End Workflow_more.

Section Seed_more.

(** X14.  The seed files that one run of [make_seeds] writes for one ROI
    file do not overlap: a voxel that is 1 in the file of one label is 0
    in the file of every other label.  A voxel is 1 in the file of some
    label exactly when the merged seed file that [make_mrtrix_seeds]
    writes for the same input holds one of the labels there. *)
Theorem seed_files_partition (cwd : string) (f : ROI_file) (WM : nib.image)
    (self1 self2 : seeds_state) (k : nat) :
  same_shape WM f ->
  let per := fst (make_seeds._run_interface cwd [f] WM self1) in
  let mer := fst (make_mrtrix_seeds._run_interface cwd [f] WM self2) in
  let seed i :=
    read_saved per (abspath cwd (make_seeds.seed_name (self_base_name per) i))
  in
  (∀ i j si sj, i ∈ self_ROI_idx per -> j ∈ self_ROI_idx per -> i ≠ j ->
     seed i = Some si -> seed j = Some sj ->
     np.int_values (nib.get_data si) !! k = Some 1 ->
     np.int_values (nib.get_data sj) !! k = Some 0)
  ∧ ((∃ i si, i ∈ self_ROI_idx per ∧ seed i = Some si
              ∧ np.int_values (nib.get_data si) !! k = Some 1)
     ↔ (∃ m p, read_saved mer (make_mrtrix_seeds._list_outputs cwd mer)
               = Some m
               ∧ np.int_values (nib.get_data m) !! k = Some p
               ∧ p ∈ self_ROI_idx per)).
Proof.
  intros Hshape per mer seed.
  assert (Hper : per = after_file cwd WM
                         (mkSeeds (self_ROI_idx self1) (self_base_name self1)
                            (saved self1)
                            (self_base_name self1 +:+ "_seeds.txt") []) f).
  { unfold per, make_seeds._run_interface.
    rewrite run_files_same_shape by (repeat constructor; exact Hshape).
    reflexivity. }
  assert (Hseed : ∀ i, i ∈ labels_of f -> seed i = Some (seed_volume f WM i)).
  { intros i Hi. unfold seed. rewrite Hper. cbn [self_base_name after_file].
    eapply read_saved_seed; [|exact Hi]. cbn [saved after_file]. reflexivity. }
  assert (Hmer : read_saved mer (make_mrtrix_seeds._list_outputs cwd mer)
                 = Some (merged_volume f WM)).
  { unfold mer, make_mrtrix_seeds._run_interface.
    rewrite merged_run_files_same_shape by (repeat constructor; exact Hshape).
    cbn [fst foldl]. unfold read_saved, make_mrtrix_seeds._list_outputs.
    cbn [saved after_file_merged self_base_name].
    rewrite last_filter_snoc by reflexivity. reflexivity. }
  assert (Hidx : self_ROI_idx per = labels_of f) by (by rewrite Hper).
  rewrite Hidx. split.
  - intros i j si sj Hi Hj Hij Hsi Hsj Hone.
    rewrite (Hseed i Hi) in Hsi. rewrite (Hseed j Hj) in Hsj.
    injection Hsi as <-. injection Hsj as <-.
    rewrite int_values_seed_volume in Hone |- *.
    apply indicator_lookup in Hone as [_ Hiff].
    assert (Hb : border_of f WM !! k = Some i) by (by apply Hiff).
    unfold indicator. rewrite list_lookup_fmap, Hb. cbn.
    destruct (Z.eqb_spec i j) as [Heq|_]; [contradiction|reflexivity].
  - rewrite Hmer. split.
    + intros (i & si & Hi & Hsi & Hone). rewrite (Hseed i Hi) in Hsi.
      injection Hsi as <-. rewrite int_values_seed_volume in Hone.
      apply indicator_lookup in Hone as [_ Hiff].
      exists (merged_volume f WM), i. split; [reflexivity|].
      rewrite int_values_merged_volume. split; [by apply Hiff|exact Hi].
    + intros (m & p & [= <-] & Hp & Hlabel).
      rewrite int_values_merged_volume in Hp.
      exists p, (seed_volume f WM p). split; [exact Hlabel|].
      split; [by apply Hseed|]. rewrite int_values_seed_volume.
      unfold indicator. rewrite list_lookup_fmap, Hp. cbn.
      by rewrite Z.eqb_refl.
Qed.

Lemma seed_files_partition_witness :
  ∃ m p,
    read_saved (fst (make_mrtrix_seeds._run_interface "/work" [roi_bytes]
                       wm_bytes seeds_initial)) "/work/bytes_seeds.nii.gz"
    = Some m
    ∧ np.int_values (nib.get_data m) !! 0%nat = Some p
    ∧ p ∈ self_ROI_idx (fst (make_seeds._run_interface "/work" [roi_bytes]
                               wm_bytes seeds_initial)).
Proof.
  destruct (seed_files_partition "/work" roi_bytes wm_bytes seeds_initial
              seeds_initial 0 eq_refl) as [_ Hcover].
  apply Hcover. exists 2, (seed_volume roi_bytes wm_bytes 2).
  split; [vm_compute; left|]. split; vm_compute; reflexivity.
Defined.

(** X15.  [make_seeds] and [make_mrtrix_seeds] agree: run on the same ROI file
    and white-matter mask, each per-label seed file of the first is the
    set of voxels where the merged seed file of the second has that label,
    on the same grid and with the same affine. *)
Theorem seeds_are_level_sets_of_merged (cwd : string) (f : ROI_file)
    (WM : nib.image) (self1 self2 : seeds_state) :
  same_shape WM f ->
  let per := fst (make_seeds._run_interface cwd [f] WM self1) in
  let mer := fst (make_mrtrix_seeds._run_interface cwd [f] WM self2) in
  ∃ m, read_saved mer (make_mrtrix_seeds._list_outputs cwd mer) = Some m
    ∧ ∀ i, i ∈ labels_of f ->
        ∃ s, read_saved per (abspath cwd (make_seeds.seed_name (ROI_base f) i))
             = Some s
          ∧ nib.get_data s
            = np.int64_array (np.shape (nib.get_data m))
                (indicator i (np.int_values (nib.get_data m)))
          ∧ nib.get_affine s = nib.get_affine m.
Proof.
  intros Hshape per mer. exists (merged_volume f WM). split.
  - unfold mer, make_mrtrix_seeds._run_interface.
    rewrite merged_run_files_same_shape by (repeat constructor; exact Hshape).
    cbn [fst foldl]. unfold read_saved, make_mrtrix_seeds._list_outputs.
    cbn [saved after_file_merged self_base_name].
    rewrite last_filter_snoc by reflexivity. reflexivity.
  - intros i Hi. exists (seed_volume f WM i).
    split; [|by rewrite int_values_merged_volume].
    unfold per, make_seeds._run_interface.
    rewrite run_files_same_shape by (repeat constructor; exact Hshape).
    cbn [fst foldl]. eapply read_saved_seed; [|exact Hi].
    cbn [saved after_file]. reflexivity.
Qed.

Lemma seeds_are_level_sets_of_merged_witness :
  ∃ m s,
    read_saved (fst (make_mrtrix_seeds._run_interface "/work" [roi_example]
                       wm_example seeds_initial)) "/work/roi_seeds.nii.gz"
    = Some m
    ∧ read_saved (fst (make_seeds._run_interface "/work" [roi_example]
                         wm_example seeds_initial)) "/work/roi_seed_5.nii.gz"
      = Some s
    ∧ np.int_values (nib.get_data s)
      = indicator 5 (np.int_values (nib.get_data m)).
Proof.
  destruct (seeds_are_level_sets_of_merged "/work" roi_example wm_example
              seeds_initial seeds_initial eq_refl) as (m & Hm & Hs).
  destruct (Hs 5) as (s & Hread & Hdata & _).
  { vm_compute. right. left. }
  exists m, s. split; [exact Hm|]. split; [exact Hread|].
  rewrite Hdata. apply int_values_int64_array, indicator_range.
Defined.


Lemma run_files_app (cwd : string) (WM : nib.image) (l1 l2 : list ROI_file) :
  ∀ st,
    make_seeds.run_files cwd WM st (l1 ++ l2)
    = match make_seeds.run_files cwd WM st l1 with
      | (st', None) => make_seeds.run_files cwd WM st' l2
      | (st', Some e) => (st', Some e)
      end.
Proof.
  induction l1 as [|f l1 IH]; intros st; [reflexivity|].
  cbn [app make_seeds.run_files].
  destruct (make_seeds.run_file cwd WM st f) as [st' [e|]]; [reflexivity|].
  apply IH.
Qed.

Lemma base_name_after_files (cwd : string) (WM : nib.image)
    (fs : list ROI_file) :
  ∀ st, self_base_name (foldl (after_file cwd WM) st fs)
        = default (self_base_name st) (ROI_base <$> last fs).
Proof.
  induction fs as [|f fs IH] using rev_ind; intros st; [reflexivity|].
  rewrite foldl_app, last_snoc. reflexivity.
Qed.

(** X16.  When the product ROI * WM of one ROI file fails, [make_seeds] raises
    ValueError after having written the seed files of all the files before
    it, and nothing of the failing file or the files after it.  The label
    list it holds is the failing file's, the base name still that of the
    last file that went through (the one held before the run if there is
    none). *)
Theorem seed_failure_keeps_earlier_files (cwd : string) (WM : nib.image)
    (self : seeds_state) (ok : list ROI_file) (bad : ROI_file)
    (rest : list ROI_file) (e : exception) :
  Forall (same_shape WM) ok ->
  np.multiply (nib.get_data (ROI_vol bad)) (nib.get_data WM) = inl e ->
  let run := make_seeds._run_interface cwd (ok ++ bad :: rest) WM self in
  snd run = Some ValueError
  ∧ saved (fst run)
    = saved self ++ mjoin (map (fun f => seeds_of cwd f WM) ok)
  ∧ self_ROI_idx (fst run) = labels_of bad
  ∧ self_base_name (fst run)
    = default (self_base_name self) (ROI_base <$> last ok).
Proof.
  intros Hok Hbad run. unfold run, make_seeds._run_interface.
  rewrite run_files_app, run_files_same_shape by exact Hok.
  cbn [make_seeds.run_files]. unfold make_seeds.run_file. rewrite Hbad.
  apply multiply_raises_ValueError in Hbad. subst e. cbn [fst snd].
  cbn [saved self_ROI_idx self_base_name].
  rewrite saved_after_files, base_name_after_files.
  by repeat split.
Qed.

Lemma seed_failure_keeps_earlier_files_witness :
  let run := make_seeds._run_interface "/work"
               [roi_example; roi_other_shape; roi_example_2] wm_example
               seeds_initial in
  snd run = Some ValueError
  ∧ map fst (saved (fst run))
    = ["/work/roi_seed_2.nii.gz"; "/work/roi_seed_5.nii.gz";
       "/work/roi_seed_9.nii.gz"]
  ∧ self_ROI_idx (fst run) = [1; 3]
  ∧ self_base_name (fst run) = "roi".
Proof.
  destruct (seed_failure_keeps_earlier_files "/work" wm_example seeds_initial
              [roi_example] roi_other_shape [roi_example_2] ValueError)
    as (Herr & Hsaved & Hidx & Hbase).
  - repeat constructor.
  - vm_compute. reflexivity.
  - cbn [app] in Herr, Hsaved, Hidx, Hbase. cbv zeta.
    split; [exact Herr|]. split; [rewrite Hsaved; vm_compute; reflexivity|].
    split; [rewrite Hidx; vm_compute; reflexivity|].
    rewrite Hbase. reflexivity.
Defined.

(** X17.  An ROI file that is zero everywhere yields no seed file: the run
    succeeds, writes nothing, the seed list is empty and so is the
    [seed_files] output.  The same holds for an empty list of ROI files. *)
Theorem no_labels_no_seeds (cwd : string) (f : ROI_file) (WM : nib.image)
    (self : seeds_state) :
  same_shape WM f ->
  all_zero (nib.get_data (ROI_vol f)) ->
  let run := make_seeds._run_interface cwd [f] WM self in
  snd run = None
  ∧ saved (fst run) = saved self
  ∧ txt_lines (fst run) = []
  ∧ make_seeds._list_outputs cwd (fst run) = []
  ∧ make_seeds._list_outputs cwd
      (fst (make_seeds._run_interface cwd [] WM seeds_initial)) = [].
Proof.
  intros Hshape Hzero run.
  assert (Hlabels : labels_of f = []).
  { rewrite labels_of_unique. unfold all_zero in Hzero.
    unfold np.nonzero_entries.
    destruct (np.elements (nib.get_data (ROI_vol f))) as [t l|t l].
    - assert (Hl : filter (fun z => z ≠ 0) l = []).
      { induction Hzero as [|z l' Hz _ IH]; [reflexivity|].
        rewrite filter_cons_False by (intros Hnz; contradiction). exact IH. }
      rewrite Hl. reflexivity.
    - assert (Hl : filter (fun q => np.is_zero q = false) l = []).
      { induction Hzero as [|q l' Hq _ IH]; [reflexivity|].
        rewrite filter_cons_False; [exact IH|]. subst q. discriminate. }
      rewrite Hl. reflexivity. }
  unfold run, make_seeds._run_interface.
  rewrite run_files_same_shape by (repeat constructor; exact Hshape).
  cbn [fst snd foldl]. unfold make_seeds._list_outputs.
  rewrite gen_outputfilelist_map.
  cbn [saved txt_lines self_ROI_idx self_base_name after_file].
  unfold seeds_of. rewrite Hlabels. cbn. rewrite app_nil_r. by repeat split.
Qed.

Lemma no_labels_no_seeds_witness :
  let run := make_seeds._run_interface "/work" [roi_all_zero] wm_example
               seeds_initial in
  snd run = None ∧ saved (fst run) = []
  ∧ make_seeds._list_outputs "/work" (fst run) = [].
Proof.
  destruct (no_labels_no_seeds "/work" roi_all_zero wm_example seeds_initial)
    as (Hok & Hsaved & _ & Hout & _).
  - reflexivity.
  - unfold all_zero. cbn [roi_all_zero ROI_vol nib.get_data np.elements].
    repeat (apply Forall_cons; split; [reflexivity|]). by apply Forall_nil.
  - cbv zeta. split; [exact Hok|]. split; [exact Hsaved | exact Hout].
Defined.

Lemma txt_after_files (cwd : string) (WM : nib.image) (fs : list ROI_file) :
  ∀ st,
    txt_name (foldl (after_file cwd WM) st fs) = txt_name st
    ∧ txt_lines (foldl (after_file cwd WM) st fs)
      = txt_lines st
        ++ mjoin (map (fun f =>
                         map (fun i => make_seeds.seed_name (ROI_base f) i
                                       +:+ newline) (labels_of f)) fs).
Proof.
  induction fs as [|f fs IH]; intros st.
  - cbn. by rewrite app_nil_r.
  - cbn [foldl]. destruct (IH (after_file cwd WM st f)) as [Hn Hl].
    rewrite Hn, Hl. cbn [txt_name txt_lines after_file]. split; [reflexivity|].
    rewrite <- app_assoc. reflexivity.
Qed.

(** X18.  The text file written at the end of [make_seeds] is named after the
    base name held BEFORE the run, and its lines are, in order, the names
    of the seed files the run wrote (one per label of each ROI file),
    which hold the seed volumes of those labels. *)
Theorem seed_list_file_mirrors_the_seeds (cwd : string)
    (ROI_files : list ROI_file) (WM : nib.image) (self : seeds_state) :
  Forall (same_shape WM) ROI_files ->
  let run := make_seeds._run_interface cwd ROI_files WM self in
  txt_name (fst run) = self_base_name self +:+ "_seeds.txt"
  ∧ ∃ names,
      txt_lines (fst run) = map (fun n => n +:+ newline) names
      ∧ saved (fst run)
        = saved self
          ++ zip (map (abspath cwd) names)
                 (mjoin (map (fun f => map (seed_volume f WM) (labels_of f))
                             ROI_files)).
Proof.
  intros Hshape run. unfold run, make_seeds._run_interface.
  rewrite run_files_same_shape by exact Hshape. cbn [fst].
  destruct (txt_after_files cwd WM ROI_files
              (mkSeeds (self_ROI_idx self) (self_base_name self)
                 (saved self) (self_base_name self +:+ "_seeds.txt") []))
    as [Hn Hl].
  split; [exact Hn|].
  exists (mjoin (map (fun f => map (make_seeds.seed_name (ROI_base f))
                                  (labels_of f)) ROI_files)).
  rewrite Hl, saved_after_files. cbn [txt_lines saved app]. split.
  - clear. induction ROI_files as [|f fs IH]; [reflexivity|].
    cbn [map mjoin list_join]. rewrite map_app, map_map. f_equal. exact IH.
  - f_equal. clear. induction ROI_files as [|f fs IH]; [reflexivity|].
    cbn [map mjoin list_join]. rewrite map_app.
    rewrite zip_with_app by (by rewrite !length_map).
    f_equal; [|exact IH]. unfold seeds_of. rewrite map_map. clear.
    induction (labels_of f) as [|i l IHl]; [reflexivity|].
    cbn. by rewrite IHl.
Qed.

Lemma seed_list_file_mirrors_the_seeds_witness :
  let run := make_seeds._run_interface "/work" [roi_example] wm_example
               seeds_initial in
  txt_name (fst run) = "_seeds.txt"
  ∧ length (txt_lines (fst run)) = 3%nat.
Proof.
  destruct (seed_list_file_mirrors_the_seeds "/work" [roi_example]
              wm_example seeds_initial) as (Hname & names & Hlines & _);
    [repeat constructor|].
  cbv zeta. split; [exact Hname|]. vm_compute. reflexivity.
Defined.


Lemma merged_after_files (cwd : string) (WM : nib.image)
    (fs : list ROI_file) :
  ∀ st,
    saved (foldl (after_file_merged cwd WM) st fs)
    = saved st
      ++ map (fun f => (abspath cwd (make_mrtrix_seeds.seeds_name (ROI_base f)),
                        merged_volume f WM)) fs.
Proof.
  induction fs as [|f fs IH]; intros st.
  - cbn. by rewrite app_nil_r.
  - cbn [foldl map]. rewrite IH. cbn [saved after_file_merged].
    by rewrite <- app_assoc.
Qed.

(** X19.  [make_mrtrix_seeds] writes one merged seed file per ROI file, and its
    [seed_files] output names only the one of the last ROI file, which
    holds that file's product with the white-matter mask as
    [make_mrtrix_seeds] computes it (in the element type of the arrays,
    converted to [int]). *)
Theorem merged_output_only_from_last_file (cwd : string)
    (earlier : list ROI_file) (final : ROI_file) (WM : nib.image)
    (self : seeds_state) :
  Forall (same_shape WM) (earlier ++ [final]) ->
  let run := make_mrtrix_seeds._run_interface cwd (earlier ++ [final]) WM
               self in
  let out := make_mrtrix_seeds._list_outputs cwd (fst run) in
  snd run = None
  ∧ saved (fst run)
    = saved self
      ++ map (fun f => (abspath cwd (make_mrtrix_seeds.seeds_name (ROI_base f)),
                        merged_volume f WM)) (earlier ++ [final])
  ∧ (∀ f, f ∈ earlier ++ [final] ->
       ∃ product,
         np.multiply (nib.get_data (ROI_vol f)) (nib.get_data WM)
         = inr product
         ∧ merged_volume f WM
           = nib.Nifti1Image (np.astype_int product)
               (nib.get_affine (ROI_vol f)))
  ∧ out = abspath cwd (make_mrtrix_seeds.seeds_name (ROI_base final))
  ∧ read_saved (fst run) out = Some (merged_volume final WM).
Proof.
  intros Hshape run out. unfold out, run, make_mrtrix_seeds._run_interface.
  rewrite merged_run_files_same_shape by exact Hshape. cbn [fst snd].
  split; [reflexivity|]. split; [apply merged_after_files|].
  split.
  { intros f Hf. rewrite Forall_forall in Hshape.
    eexists. split; [apply (multiply_same_shape _ _ (Hshape f Hf))|].
    reflexivity. }
  assert (Hbase : self_base_name
                    (foldl (after_file_merged cwd WM) self (earlier ++ [final]))
                  = ROI_base final) by (by rewrite foldl_app).
  unfold make_mrtrix_seeds._list_outputs. rewrite Hbase.
  split; [reflexivity|].
  unfold read_saved. rewrite merged_after_files, map_app, app_assoc.
  cbn [map]. rewrite last_filter_snoc by reflexivity. reflexivity.
Qed.

Lemma merged_output_only_from_last_file_witness :
  let run := make_mrtrix_seeds._run_interface "/work"
               [roi_example; roi_example_2] wm_example seeds_initial in
  map fst (saved (fst run))
  = ["/work/roi_seeds.nii.gz"; "/work/other_seeds.nii.gz"]
  ∧ make_mrtrix_seeds._list_outputs "/work" (fst run)
    = "/work/other_seeds.nii.gz".
Proof.
  destruct (merged_output_only_from_last_file "/work" [roi_example]
              roi_example_2 wm_example seeds_initial)
    as (_ & Hsaved & _ & Hout & _); [repeat constructor|].
  cbn [app] in Hsaved, Hout. cbv zeta.
  split; [rewrite Hsaved; vm_compute; reflexivity|].
  rewrite Hout. vm_compute. reflexivity.
Defined.

End Seed_more.

Section Orientation_more.
Import trackvis match_orientations.

Lemma run_interface_value (cwd name : string) (dims : Z * Z * Z)
    (vx vy vz : Q) (a0 a1 a2 : string) (fib : list track) (hdr : header)
    (c0 c1 c2 : ascii) (rest : string) :
  voxel_order hdr = String c0 (String c1 (String c2 rest)) ->
  _run_interface cwd name dims (vx, vy, vz) (a0, a1, a2) fib hdr
  = inr (mkWritten (abspath cwd (name +:+ "_orcor.trk"))
           (map (fun t => (map (remap (sign a0 c0) (sign a1 c1) (sign a2 c2)
                                      (origin hdr) vx vy vz) (fst (fst t)),
                           None, None)) fib)
           (mkHeader dims (vx, vy, vz) (0%Q, 0%Q, 0%Q) (a0 +:+ a1 +:+ a2))
           "voxmm").
Proof.
  intros Horder. unfold _run_interface.
  rewrite (flip_at a0 c0), (flip_at a1 c1), (flip_at a2 c2)
    by (rewrite Horder; reflexivity).
  by rewrite remap_all_map.
Qed.

(** X20.  [match_orientations] raises IndexError when the [voxel_order] of the
    trackvis header has fewer than three characters, whatever the
    streamlines. *)
Theorem short_voxel_order_raises (cwd name : string) (dims : Z * Z * Z)
    (vox : Q * Q * Q) (axcode : string * string * string)
    (fib : list track) (hdr : header) :
  (String.length (voxel_order hdr) < 3)%nat ->
  _run_interface cwd name dims vox axcode fib hdr = inl IndexError.
Proof.
  intros Hlen. destruct vox as [[vx vy] vz], axcode as [[a0 a1] a2].
  unfold _run_interface, flip, str_index.
  destruct (voxel_order hdr) as [|c0 [|c1 [|c2 rest]]]; cbn in *;
    try reflexivity.
  lia.
Qed.

Lemma short_voxel_order_raises_witness :
  _run_interface "/work" "fibers" (4, 4, 2) (2, 2, 3)%Q ("L", "A", "S")
    [([(1, 2, 3)]%Q, None, None)]
    (mkHeader (4, 4, 2) (2, 2, 3)%Q (0, 0, 0)%Q "") = inl IndexError.
Proof. apply short_voxel_order_raises. cbn. lia. Defined.

(** X21.  With a voxel order of three characters or more [match_orientations]
    writes [<name>_orcor.trk] in the working directory, in voxmm space,
    with the dimensions and voxel size of the reference image and the
    origin at zero.  It writes as many streamlines as it read, each with
    as many points, and drops their scalars and properties. *)
Theorem corrected_file_layout (cwd name : string) (dims : Z * Z * Z)
    (vx vy vz : Q) (a0 a1 a2 : string) (fib : list track) (hdr : header) :
  (3 <= String.length (voxel_order hdr))%nat ->
  ∃ out,
    _run_interface cwd name dims (vx, vy, vz) (a0, a1, a2) fib hdr = inr out
    ∧ w_filename out = abspath cwd (name +:+ "_orcor.trk")
    ∧ w_points_space out = "voxmm"
    ∧ dim (w_header out) = dims
    ∧ voxel_size (w_header out) = (vx, vy, vz)
    ∧ origin (w_header out) = (0%Q, 0%Q, 0%Q)
    ∧ map (fun t => length (fst (fst t))) (w_streamlines out)
      = map (fun t => length (fst (fst t))) fib
    ∧ Forall (fun t => snd (fst t) = None ∧ snd t = None) (w_streamlines out).
Proof.
  intros Hlen.
  destruct (voxel_order hdr) as [|c0 [|c1 [|c2 rest]]] eqn:Horder;
    cbn in Hlen; try lia.
  eexists. split; [by apply (run_interface_value _ _ _ _ _ _ _ _ _ _ _
                               c0 c1 c2 rest)|].
  cbn [w_filename w_points_space w_header w_streamlines dim voxel_size origin].
  repeat (split; [reflexivity|]). split.
  - rewrite map_map. apply map_ext. intros t. cbn. apply length_map.
  - apply Forall_fmap, Forall_forall. intros t _. cbn. auto.
Qed.

Lemma corrected_file_layout_witness :
  ∃ out,
    _run_interface "/work" "fibers" (4, 4, 2) (2, 2, 3)%Q ("L", "A", "S")
      [([(1, 2, 3); (0, 0, 0)]%Q, Some [[1%Q]; [2%Q]], Some [7%Q])]
      (mkHeader (4, 4, 2) (2, 2, 3)%Q (1, 0, 0)%Q "LPS") = inr out
    ∧ w_filename out = "/work/fibers_orcor.trk"
    ∧ origin (w_header out) = (0%Q, 0%Q, 0%Q)
    ∧ Forall (fun t => snd (fst t) = None ∧ snd t = None) (w_streamlines out).
Proof.
  destruct (corrected_file_layout "/work" "fibers" (4, 4, 2) 2 2 3
              "L" "A" "S"
              [([(1, 2, 3); (0, 0, 0)]%Q, Some [[1%Q]; [2%Q]], Some [7%Q])]
              (mkHeader (4, 4, 2) (2, 2, 3)%Q (1, 0, 0)%Q "LPS"))
    as (out & Hrun & Hname & _ & _ & _ & Horigin & _ & Hnone);
    [cbn; lia|].
  exists out. split; [exact Hrun|]. split; [exact Hname|].
  split; [exact Horigin | exact Hnone].
Defined.

Lemma sign_square (a : string) (c : ascii) :
  (inject_Z (sign a c) * inject_Z (sign a c) == 1)%Q.
Proof. unfold sign. destruct (decide _); reflexivity. Qed.

Lemma remap_sqdist (s0 s1 s2 : Z) (o : point) (vx vy vz : Q) (p q : point) :
  (inject_Z s0 * inject_Z s0 == 1)%Q ->
  (inject_Z s1 * inject_Z s1 == 1)%Q ->
  (inject_Z s2 * inject_Z s2 == 1)%Q ->
  (sqdist (remap s0 s1 s2 o vx vy vz p) (remap s0 s1 s2 o vx vy vz q)
   == sqdist p q)%Q.
Proof.
  intros H0 H1 H2. destruct o as [[ox oy] oz], p as [[p0 p1] p2],
    q as [[q0 q1] q2]. unfold remap, sqdist.
  transitivity
    (inject_Z s0 * inject_Z s0 * ((p0 - q0) * (p0 - q0))
     + inject_Z s1 * inject_Z s1 * ((p1 - q1) * (p1 - q1))
     + inject_Z s2 * inject_Z s2 * ((p2 - q2) * (p2 - q2)))%Q.
  - field.
  - rewrite H0, H1, H2. ring.
Qed.

(** X22.  The orientation correction is a rigid motion of each streamline:
    the squared distance between any two points of a streamline is the
    same after the correction as before. *)
Theorem correction_preserves_distances (cwd name : string)
    (dims : Z * Z * Z) (vx vy vz : Q) (a0 a1 a2 : string)
    (fib : list track) (hdr : header) (out : written) :
  _run_interface cwd name dims (vx, vy, vz) (a0, a1, a2) fib hdr = inr out ->
  ∀ i t t' j k p q p' q',
    fib !! i = Some t -> w_streamlines out !! i = Some t' ->
    fst (fst t) !! j = Some p -> fst (fst t) !! k = Some q ->
    fst (fst t') !! j = Some p' -> fst (fst t') !! k = Some q' ->
    (sqdist p' q' == sqdist p q)%Q.
Proof.
  intros Hrun.
  destruct (voxel_order hdr) as [|c0 [|c1 [|c2 rest]]] eqn:Horder;
    try (rewrite short_voxel_order_raises in Hrun
           by (rewrite Horder; cbn; lia); discriminate Hrun).
  rewrite (run_interface_value _ _ _ _ _ _ _ _ _ _ _ c0 c1 c2 rest Horder)
    in Hrun. injection Hrun as <-. cbn [w_streamlines].
  intros i t t' j k p q p' q' Ht Ht' Hp Hq Hp' Hq'.
  rewrite list_lookup_fmap, Ht in Ht'. cbn in Ht'. injection Ht' as <-.
  cbn [fst] in Hp', Hq'.
  rewrite list_lookup_fmap, Hp in Hp'. rewrite list_lookup_fmap, Hq in Hq'.
  cbn in Hp', Hq'. injection Hp' as <-. injection Hq' as <-.
  apply remap_sqdist; apply sign_square.
Qed.

Lemma correction_preserves_distances_witness :
  ∃ out p' q',
    _run_interface "/work" "fibers" (4, 4, 2) (2, 2, 3)%Q ("L", "A", "S")
      [([(1, 2, 3); (0, 0, 0)]%Q, None, None)]
      (mkHeader (4, 4, 2) (2, 2, 3)%Q (1, 0, 0)%Q "LPS") = inr out
    ∧ (sqdist p' q' == sqdist (1, 2, 3)%Q (0, 0, 0)%Q)%Q.
Proof.
  destruct (_run_interface "/work" "fibers" (4, 4, 2) (2, 2, 3)%Q
              ("L", "A", "S") [([(1, 2, 3); (0, 0, 0)]%Q, None, None)]
              (mkHeader (4, 4, 2) (2, 2, 3)%Q (1, 0, 0)%Q "LPS"))
    as [e|out] eqn:Hrun; [vm_compute in Hrun; discriminate Hrun|].
  pose proof Hrun as Hval. vm_compute in Hval. injection Hval as Hval.
  subst out.
  eexists _, _, _. split; [reflexivity|].
  eapply (correction_preserves_distances _ _ _ _ _ _ _ _ _ _ _ _ Hrun
            0%nat _ _ 0%nat 1%nat); reflexivity.
Defined.

Lemma sign_same (c : ascii) : sign (String c "") c = 1.
Proof. unfold sign. by rewrite decide_True. Qed.

(** X23.  Running [match_orientations] on its own output does not give the
    output back.  With single-letter axis codes the second run keeps the
    header but leaves every point half a voxel further along each axis. *)
Theorem second_pass_shifts_again (cwd name : string) (dims : Z * Z * Z)
    (vx vy vz : Q) (c0 c1 c2 : ascii) (fib : list track) (hdr : header)
    (out1 : written) :
  let axcode := (String c0 "", String c1 "", String c2 "") in
  _run_interface cwd name dims (vx, vy, vz) axcode fib hdr = inr out1 ->
  ∃ out2,
    _run_interface cwd name dims (vx, vy, vz) axcode
      (w_streamlines out1) (w_header out1) = inr out2
    ∧ w_header out2 = w_header out1
    ∧ ∀ i t j x y z,
        w_streamlines out1 !! i = Some t ->
        fst (fst t) !! j = Some (x, y, z) ->
        ∃ t' p', w_streamlines out2 !! i = Some t'
          ∧ fst (fst t') !! j = Some p'
          ∧ point_eq p' ((x + vx / 2)%Q, (y + vy / 2)%Q, (z + vz / 2)%Q).
Proof.
  intros axcode Hrun.
  assert (Hhdr : w_header out1
                 = mkHeader dims (vx, vy, vz) (0%Q, 0%Q, 0%Q)
                     (String c0 (String c1 (String c2 "")))).
  { destruct (voxel_order hdr) as [|d0 [|d1 [|d2 rest]]] eqn:Horder;
      try (rewrite short_voxel_order_raises in Hrun
             by (rewrite Horder; cbn; lia); discriminate Hrun).
    unfold axcode in Hrun.
    rewrite (run_interface_value _ _ _ _ _ _ _ _ _ _ _ d0 d1 d2 rest Horder)
      in Hrun. injection Hrun as <-. reflexivity. }
  eexists. split.
  { unfold axcode. apply (run_interface_value _ _ _ _ _ _ _ _ _ _ _
                            c0 c1 c2 "").
    rewrite Hhdr. reflexivity. }
  cbn [w_header w_streamlines]. split; [rewrite Hhdr; reflexivity|].
  intros i t j x y z Ht Hp.
  rewrite (list_lookup_fmap _ (w_streamlines out1) i), Ht.
  cbn [fmap option_fmap option_map fst].
  eexists _, _. split; [reflexivity|]. cbn [fst].
  rewrite (list_lookup_fmap _ (fst (fst t)) j), Hp.
  cbn [fmap option_fmap option_map].
  split; [reflexivity|].
  rewrite Hhdr. cbn [origin]. rewrite !sign_same. unfold remap, point_eq.
  repeat split; ring.
Qed.

Lemma second_pass_shifts_again_witness :
  ∃ out1 out2,
    _run_interface "/work" "fibers" (4, 4, 2) (2, 2, 3)%Q ("L", "A", "S")
      [([(1, 2, 3)]%Q, None, None)]
      (mkHeader (4, 4, 2) (2, 2, 3)%Q (1, 0, 0)%Q "LPS") = inr out1
    ∧ _run_interface "/work" "fibers" (4, 4, 2) (2, 2, 3)%Q ("L", "A", "S")
        (w_streamlines out1) (w_header out1) = inr out2
    ∧ w_header out2 = w_header out1.
Proof.
  destruct (_run_interface "/work" "fibers" (4, 4, 2) (2, 2, 3)%Q
              ("L", "A", "S") [([(1, 2, 3)]%Q, None, None)]
              (mkHeader (4, 4, 2) (2, 2, 3)%Q (1, 0, 0)%Q "LPS"))
    as [e|out1] eqn:Hrun; [vm_compute in Hrun; discriminate Hrun|].
  destruct (second_pass_shifts_again "/work" "fibers" (4, 4, 2) 2 2 3
              "L" "A" "S" _ _ out1 Hrun) as (out2 & Hrun2 & Hhdr & _).
  exists out1, out2. split; [reflexivity|]. split; [exact Hrun2 | exact Hhdr].
Defined.

End Orientation_more.

Section Other_flows.
Import pe flows.

Ltac by_compute := apply (bool_decide_unpack _); vm_compute; exact I.

Ltac conjuncts := repeat match goal with |- _ ∧ _ => split end.

Ltac evaluate :=
  match goal with
  | |- _ = _ => vm_compute; reflexivity
  | |- _ => by_compute
  end.

Ltac camino_cases index :=
  unfold create_camino_tracking_flow;
  cbn [Camino_tracking_config.tracking_mode
       Camino_tracking_config.inversion_index Camino_tracking_config.pdf];
  destruct (Z.leb_spec 10 index), (Z.ltb_spec 100 index),
    (Z.ltb_spec index 100); try (exfalso; lia).

Lemma succeeds_built (r : build_error + graph) :
  succeeds r = true -> r = inr (built r).
Proof. destruct r; [discriminate|reflexivity]. Qed.

Ltac use_built :=
  match goal with
  | |- ∃ w, ?r = inr w ∧ _ =>
      exists (built r); split; [apply succeeds_built; vm_compute; reflexivity|]
  end.

(** X24.  The Probabilistic Camino workflow builds a second lookup table
    exactly for an inversion index of 10 or more: then [dtlutgen2] (with
    the fallback index, and no crossing angle) and [dtlutgen] are merged
    into the [luts] of [picopdf], whose input model is multitensor, and
    [dtlutgen] gets the crossing angle.  Below 10 there is no [dtlutgen2]
    and no merge, [picopdf] reads [dtlutgen] directly with model dt, and
    no crossing angle is set.  The tracker's [numpds] is 2 for an index
    from 10 to 99 and 3 otherwise. *)
Theorem camino_lookup_tables (config : Camino_tracking_config.t) :
  Camino_tracking_config.tracking_mode config = "Probabilistic" ->
  let index := Camino_tracking_config.inversion_index config in
  ∃ w, create_camino_tracking_flow config = inr w
    ∧ (10 <= index ->
       "dtlutgen2" ∈ flow_nodes (flow w)
       ∧ interface_of w "merge_LUTs" = Some (util_Merge 2)
       ∧ edges_into w "merge_LUTs"
         = [mkEdge "dtlutgen2" (Port "dtLUT") "merge_LUTs" "in1";
            mkEdge "dtlutgen" (Port "dtLUT") "merge_LUTs" "in2"]
       ∧ edges_into_port w "picopdf" "luts"
         = [mkEdge "merge_LUTs" (Port "out") "picopdf" "luts"]
       ∧ input_of w "picopdf" "inputmodel" = Some (VStr "multitensor")
       ∧ input_of w "dtlutgen" "cross"
         = Some (VFloat (Camino_tracking_config.cross_angle config))
       ∧ input_of w "dtlutgen2" "inversion"
         = Some (VInt (Camino_tracking_config.fallback_index config))
       ∧ input_of w "dtlutgen2" "cross" = None)
    ∧ (index < 10 ->
       "dtlutgen2" ∉ flow_nodes (flow w)
       ∧ "merge_LUTs" ∉ flow_nodes (flow w)
       ∧ edges_into_port w "picopdf" "luts"
         = [mkEdge "dtlutgen" (Port "dtLUT") "picopdf" "luts"]
       ∧ input_of w "picopdf" "inputmodel" = Some (VStr "dt")
       ∧ input_of w "dtlutgen" "cross" = None)
    ∧ input_of w "dtlutgen" "inversion" = Some (VInt index)
    ∧ input_of w "camino_tracking" "numpds"
      = Some (VInt (if decide (10 <= index < 100) then 2 else 3)).
Proof.
  destruct config as
    [model mode index fallback ang cross tr tmodel snr iters pdf].
  cbn [Camino_tracking_config.tracking_mode
       Camino_tracking_config.inversion_index
       Camino_tracking_config.cross_angle
       Camino_tracking_config.fallback_index].
  intros ->. cbv zeta.
  camino_cases index; destruct pdf; use_built;
    (split; [intros Hi; try (exfalso; lia); conjuncts; evaluate|]);
    (split; [intros Hi; try (exfalso; lia); conjuncts; evaluate|]);
    (split; [vm_compute; reflexivity|]);
    (destruct (decide (10 <= index < 100)); try (exfalso; lia));
    vm_compute; reflexivity.
Qed.

Lemma camino_lookup_tables_witness :
  ∃ w, create_camino_tracking_flow
         (Camino_tracking_config.mk "DTI" "Probabilistic" 12 1 60 20
            (21 # 10000000000) "dt" 20 50 Camino_tracking_config.watson)
       = inr w
    ∧ interface_of w "merge_LUTs" = Some (util_Merge 2)
    ∧ input_of w "camino_tracking" "numpds" = Some (VInt 2).
Proof.
  destruct (camino_lookup_tables
              (Camino_tracking_config.mk "DTI" "Probabilistic" 12 1 60 20
                 (21 # 10000000000) "dt" 20 50 Camino_tracking_config.watson)
              eq_refl) as (w & Hw & Hmulti & _ & _ & Hnum).
  exists w. split; [exact Hw|].
  destruct Hmulti as (_ & Hmerge & _); [cbn; lia|].
  split; [exact Hmerge | exact Hnum].
Defined.


(** X25.  In Probabilistic mode the Camino workflow tracks once per seed file:
    the tracker is a [MapNode] over [seed_file], fed by the [seed_files]
    of [make_seeds] and by nothing else of that stage, and the converter
    is a [MapNode] over [in_file].  In Deterministic mode there is no
    [make_seeds] stage, tracker and converter are plain nodes, the seed is
    the white-matter mask, the input model is multitensor from index 10 on
    and [maxcomponents = 3] is set only above index 100.  In any other
    mode the workflow has no stage and no edge. *)
Theorem camino_seed_fan_out (config : Camino_tracking_config.t) :
  let index := Camino_tracking_config.inversion_index config in
  (Camino_tracking_config.tracking_mode config = "Probabilistic" ->
   ∃ w, create_camino_tracking_flow config = inr w
     ∧ interface_of w "camino_seeds" = Some make_seeds
     ∧ interface_of w "camino_tracking" = Some camino_TrackPICo
     ∧ iterfield_of w "camino_tracking" = Some ["seed_file"]
     ∧ edges_from w "camino_seeds"
       = [mkEdge "camino_seeds" (Port "seed_files") "camino_tracking"
                 "seed_file"]
     ∧ iterfield_of w "trackvis" = Some ["in_file"]
     ∧ edges_into w "outputnode"
       = [mkEdge "trackvis" (Port "trackvis") "outputnode" "track_file"])
  ∧ (Camino_tracking_config.tracking_mode config = "Deterministic" ->
     ∃ w, create_camino_tracking_flow config = inr w
       ∧ "camino_seeds" ∉ flow_nodes (flow w)
       ∧ interface_of w "camino_tracking" = Some camino_Track
       ∧ iterfield_of w "camino_tracking" = None
       ∧ iterfield_of w "trackvis" = None
       ∧ edges_into_port w "camino_tracking" "seed_file"
         = [mkEdge "inputnode" (Port "wm_mask_resampled") "camino_tracking"
                   "seed_file"]
       ∧ input_of w "camino_tracking" "inputmodel"
         = Some (VStr (if decide (10 <= index) then "multitensor"
                       else Camino_tracking_config.tracking_model config))
       ∧ input_of w "camino_tracking" "maxcomponents"
         = (if decide (100 < index) then Some (VInt 3) else None))
  ∧ (Camino_tracking_config.tracking_mode config ≠ "Probabilistic" ->
     Camino_tracking_config.tracking_mode config ≠ "Deterministic" ->
     ∃ w, create_camino_tracking_flow config = inr w
       ∧ flow_nodes (flow w) = [] ∧ flow_edges (flow w) = []).
Proof.
  destruct config as
    [model mode index fallback ang cross tr tmodel snr iters pdf].
  cbn [Camino_tracking_config.tracking_mode
       Camino_tracking_config.inversion_index
       Camino_tracking_config.tracking_model].
  cbv zeta. split; [|split].
  - intros ->. camino_cases index; destruct pdf; use_built;
      conjuncts; evaluate.
  - intros ->. camino_cases index; destruct pdf; use_built;
      destruct (decide (10 <= index)); try (exfalso; lia);
      destruct (decide (100 < index)); try (exfalso; lia);
      conjuncts; evaluate.
  - intros Hp Hd. unfold create_camino_tracking_flow.
    cbn [Camino_tracking_config.tracking_mode].
    destruct (String.eqb_spec mode "Deterministic") as [E|_];
      [contradiction|].
    destruct (String.eqb_spec mode "Probabilistic") as [E|_];
      [contradiction|].
    use_built. conjuncts; evaluate.
Qed.

Lemma camino_seed_fan_out_witness :
  (∃ w, create_camino_tracking_flow
          (Camino_tracking_config.mk "DTI" "Probabilistic" 1 1 60 20
             (21 # 10000000000) "dt" 20 50 Camino_tracking_config.bingham)
        = inr w
     ∧ iterfield_of w "camino_tracking" = Some ["seed_file"])
  ∧ (∃ w, create_camino_tracking_flow
            (Camino_tracking_config.mk "DTI" "Deterministic" 1 1 60 20
               (21 # 10000000000) "dt" 20 50 Camino_tracking_config.bingham)
          = inr w
       ∧ iterfield_of w "camino_tracking" = None)
  ∧ (∃ w, create_camino_tracking_flow Camino_tracking_config.default = inr w
       ∧ flow_nodes (flow w) = []).
Proof.
  split; [|split].
  - destruct (camino_seed_fan_out
                (Camino_tracking_config.mk "DTI" "Probabilistic" 1 1 60 20
                   (21 # 10000000000) "dt" 20 50
                   Camino_tracking_config.bingham)) as (H & _ & _).
    destruct (H eq_refl) as (w & Hw & _ & _ & Hit & _). eauto.
  - destruct (camino_seed_fan_out
                (Camino_tracking_config.mk "DTI" "Deterministic" 1 1 60 20
                   (21 # 10000000000) "dt" 20 50
                   Camino_tracking_config.bingham)) as (_ & H & _).
    destruct (H eq_refl) as (w & Hw & _ & _ & Hit & _). eauto.
  - destruct (camino_seed_fan_out Camino_tracking_config.default)
      as (_ & _ & H).
    destruct H as (w & Hw & Hn & _); [discriminate|discriminate|]. eauto.
Defined.

(** X26.  In the Probabilistic Camino workflow exactly one of the flags
    [bingham], [watson], [acg] is set on each lookup-table stage, the one
    named by [config.pdf], and [picopdf] and the tracker are given the
    same name. *)
Theorem camino_pdf_flag (config : Camino_tracking_config.t) :
  Camino_tracking_config.tracking_mode config = "Probabilistic" ->
  let index := Camino_tracking_config.inversion_index config in
  let flag p := if decide (p = Camino_tracking_config.pdf config)
                then Some (VBool true) else None in
  ∃ w, create_camino_tracking_flow config = inr w
    ∧ (∀ p, input_of w "dtlutgen" (Camino_tracking_config.pdf_str p) = flag p)
    ∧ (10 <= index ->
       ∀ p, input_of w "dtlutgen2" (Camino_tracking_config.pdf_str p)
            = flag p)
    ∧ input_of w "picopdf" "pdf"
      = Some (VStr (Camino_tracking_config.pdf_str
                      (Camino_tracking_config.pdf config)))
    ∧ input_of w "camino_tracking" "pdf"
      = Some (VStr (Camino_tracking_config.pdf_str
                      (Camino_tracking_config.pdf config))).
Proof.
  destruct config as
    [model mode index fallback ang cross tr tmodel snr iters pdf].
  cbn [Camino_tracking_config.tracking_mode Camino_tracking_config.pdf
       Camino_tracking_config.inversion_index].
  intros ->. cbv zeta.
  camino_cases index; destruct pdf; use_built;
    (split; [intros p; destruct p; vm_compute; reflexivity|]);
    (split; [intros Hi p; try (exfalso; lia);
             destruct p; vm_compute; reflexivity|]);
    split; vm_compute; reflexivity.
Qed.

Lemma camino_pdf_flag_witness :
  ∃ w, create_camino_tracking_flow
         (Camino_tracking_config.mk "DTI" "Probabilistic" 12 1 60 20
            (21 # 10000000000) "dt" 20 50 Camino_tracking_config.watson)
       = inr w
    ∧ input_of w "dtlutgen2" "watson" = Some (VBool true)
    ∧ input_of w "dtlutgen2" "bingham" = None.
Proof.
  destruct (camino_pdf_flag
              (Camino_tracking_config.mk "DTI" "Probabilistic" 12 1 60 20
                 (21 # 10000000000) "dt" 20 50 Camino_tracking_config.watson)
              eq_refl) as (w & Hw & _ & Hflag & _).
  exists w. split; [exact Hw|].
  assert (Hi : 10 <= 12) by lia.
  split.
  - exact (Hflag Hi Camino_tracking_config.watson).
  - exact (Hflag Hi Camino_tracking_config.bingham).
Defined.

(** X27.  In the FSL workflow the seed files of [make_seeds] are both the seeds
    and the target masks of [probtrackx].  Only [seed] is iterated, so
    every run sees all the seed files as targets.  The workflow's
    [targets] output is the [matrix] output of [probtrackx], which runs in
    seedmask mode with the sample and step counts and the two thresholds
    of the configuration. *)
Theorem fsl_seeds_are_seeds_and_targets (config : FSL_tracking_config.t) :
  ∃ w, create_fsl_tracking_flow config = inr w
    ∧ interface_of w "fsl_seeds" = Some make_seeds
    ∧ edges_from w "fsl_seeds"
      = [mkEdge "fsl_seeds" (Port "seed_files") "probtrackx" "seed";
         mkEdge "fsl_seeds" (Port "seed_files") "probtrackx" "target_masks"]
    ∧ iterfield_of w "probtrackx" = Some ["seed"]
    ∧ edges_into w "outputnode"
      = [mkEdge "probtrackx" (Port "matrix") "outputnode" "targets"]
    ∧ input_of w "probtrackx" "mode" = Some (VStr "seedmask")
    ∧ input_of w "probtrackx" "network" = Some (VBool false)
    ∧ input_of w "probtrackx" "os2t" = Some (VBool true)
    ∧ input_of w "probtrackx" "n_samples"
      = Some (VInt (FSL_tracking_config.number_of_samples config))
    ∧ input_of w "probtrackx" "n_steps"
      = Some (VInt (FSL_tracking_config.number_of_steps config))
    ∧ input_of w "probtrackx" "dist_thresh"
      = Some (VFloat (FSL_tracking_config.distance_threshold config))
    ∧ input_of w "probtrackx" "c_thresh"
      = Some (VFloat (FSL_tracking_config.curvature_threshold config)).
Proof.
  destruct config as [samples steps dist curv].
  unfold create_fsl_tracking_flow.
  cbn [FSL_tracking_config.number_of_samples
       FSL_tracking_config.number_of_steps
       FSL_tracking_config.distance_threshold
       FSL_tracking_config.curvature_threshold].
  use_built. conjuncts; evaluate.
Qed.

Ltac dtb_cases model :=
  unfold create_dtb_tracking_flow, dtb_prefix;
  cbn [DTB_tracking_config.imaging_model DTB_tracking_config.flip_input
       DTB_tracking_config.angle DTB_tracking_config.step_size
       DTB_tracking_config.seeds];
  destruct (String.eqb_spec model "DSI") as [->|?];
  [|destruct (String.eqb_spec model "DTI") as [->|?];
    [|destruct (String.eqb_spec model "HARDI") as [->|?]]].

Ltac dtb_flips flip :=
  destruct (bool_decide ("x" ∈ flip)), (bool_decide ("y" ∈ flip)),
    (bool_decide ("z" ∈ flip)).

(** X28.  [create_dtb_tracking_flow] returns a workflow exactly for the imaging
    models DSI, DTI and HARDI.  For any other model the local variable
    [prefix] was never assigned when the connections are made, and the
    function raises UnboundLocalError. *)
Theorem dtb_flow_needs_a_known_model (dirlist : string)
    (config : DTB_tracking_config.t) :
  (DTB_tracking_config.imaging_model config ∉ ["DSI"; "DTI"; "HARDI"] ->
   create_dtb_tracking_flow dirlist config = inl (UnboundLocalError "prefix"))
  ∧ (DTB_tracking_config.imaging_model config ∈ ["DSI"; "DTI"; "HARDI"] ->
     ∃ w, create_dtb_tracking_flow dirlist config = inr w).
Proof.
  destruct config as [model flip ang step seeds].
  cbn [DTB_tracking_config.imaging_model].
  split; intros Hm.
  - dtb_cases model; try (exfalso; apply Hm; by_compute).
    dtb_flips flip; vm_compute; reflexivity.
  - dtb_cases model;
      [| | |exfalso; rewrite !elem_of_cons in Hm;
            destruct Hm as [?|[?|[?|Hm]]];
            [contradiction|contradiction|contradiction|
             by apply not_elem_of_nil in Hm]];
      dtb_flips flip;
      match goal with
      | |- ∃ w, ?r = inr w =>
          exists (built r); apply succeeds_built; vm_compute; reflexivity
      end.
Qed.

Lemma dtb_flow_needs_a_known_model_witness :
  create_dtb_tracking_flow "181_vecs.dat" DTB_tracking_config.default
  = inl (UnboundLocalError "prefix")
  ∧ ∃ w, create_dtb_tracking_flow "181_vecs.dat"
           (DTB_tracking_config.mk "HARDI" ["x"] 60 1 32) = inr w.
Proof.
  split.
  - apply (dtb_flow_needs_a_known_model "181_vecs.dat"
             DTB_tracking_config.default).
    by_compute.
  - apply (dtb_flow_needs_a_known_model "181_vecs.dat"
             (DTB_tracking_config.mk "HARDI" ["x"] 60 1 32)).
    by_compute.
Defined.

(** X29.  Where the DTB workflow builds: the diffusion type is dti for DTI and
    dsi for both DSI and HARDI; the direction list is set for DSI and
    HARDI and not for DTI; the file prefix is derived from the DWI input
    through [strip_suffix] with the lower-case model name; [invert_x],
    [invert_y], [invert_z] are set exactly for the axes listed in
    [flip_input]; and the streamline stage, fed by the two preparation
    stages, is the only source of the output [track_file]. *)
Theorem dtb_settings (dirlist : string) (config : DTB_tracking_config.t)
    (w : graph) :
  create_dtb_tracking_flow dirlist config = inr w ->
  let model := DTB_tracking_config.imaging_model config in
  let flag axis := if bool_decide (axis ∈ DTB_tracking_config.flip_input config)
                   then Some (VBool true) else None in
  input_of w "dtb_dtk2dir" "diffusion_type"
  = Some (VStr (if decide (model = "DTI") then "dti" else "dsi"))
  ∧ input_of w "dtb_dtk2dir" "dirlist"
    = (if decide (model = "DTI") then None else Some (VStr dirlist))
  ∧ edges_into w "dtb_dtk2dir"
    = [mkEdge "inputnode"
         (Through "DWI" "strip_suffix"
            [VStr (if decide (model = "DSI") then "dsi"
                   else if decide (model = "DTI") then "dti" else "hardi")])
         "dtb_dtk2dir" "prefix"]
  ∧ input_of w "dtb_dtk2dir" "invert_x" = flag "x"
  ∧ input_of w "dtb_dtk2dir" "invert_y" = flag "y"
  ∧ input_of w "dtb_dtk2dir" "invert_z" = flag "z"
  ∧ input_of w "dtb_streamline" "angle"
    = Some (VInt (DTB_tracking_config.angle config))
  ∧ input_of w "dtb_streamline" "seeds"
    = Some (VInt (DTB_tracking_config.seeds config))
  ∧ edges_into w "dtb_streamline"
    = [mkEdge "dtb_dtk2dir" (Port "out_file") "dtb_streamline" "dir_file";
       mkEdge "fs_mriconvert" (Port "out_file") "dtb_streamline" "wm_mask"]
  ∧ edges_into w "outputnode"
    = [mkEdge "dtb_streamline" (Port "out_file") "outputnode" "track_file"].
Proof.
  intros Hw.
  assert (Hb : w = built (create_dtb_tracking_flow dirlist config))
    by (rewrite Hw; reflexivity).
  assert (Hs : succeeds (create_dtb_tracking_flow dirlist config) = true)
    by (rewrite Hw; reflexivity).
  clear Hw. subst w. revert Hs.
  destruct config as [model flip ang step seeds].
  cbn [DTB_tracking_config.imaging_model DTB_tracking_config.flip_input
       DTB_tracking_config.angle DTB_tracking_config.seeds].
  cbv zeta.
  dtb_cases model; dtb_flips flip; intros Hs;
    try (exfalso; revert Hs; vm_compute; discriminate);
    repeat match goal with
           | |- context [decide (?a = ?b)] =>
               destruct (decide (a = b)); try congruence
           end;
    conjuncts; vm_compute; reflexivity.
Qed.

Lemma dtb_settings_witness :
  ∃ w, create_dtb_tracking_flow "181_vecs.dat"
         (DTB_tracking_config.mk "HARDI" ["x"] 60 1 32) = inr w
    ∧ input_of w "dtb_dtk2dir" "diffusion_type" = Some (VStr "dsi")
    ∧ input_of w "dtb_dtk2dir" "invert_x" = Some (VBool true)
    ∧ input_of w "dtb_dtk2dir" "invert_y" = None.
Proof.
  exists (built (create_dtb_tracking_flow "181_vecs.dat"
                   (DTB_tracking_config.mk "HARDI" ["x"] 60 1 32))).
  assert (Hw : create_dtb_tracking_flow "181_vecs.dat"
                 (DTB_tracking_config.mk "HARDI" ["x"] 60 1 32)
               = inr (built (create_dtb_tracking_flow "181_vecs.dat"
                               (DTB_tracking_config.mk "HARDI" ["x"] 60 1 32))))
    by (apply succeeds_built; vm_compute; reflexivity).
  split; [exact Hw|].
  destruct (dtb_settings _ _ _ Hw) as (Ht & _ & _ & Hx & Hy & _).
  split; [exact Ht|]. split; [exact Hx|exact Hy].
Defined.

Lemma flow_path_goes_up (w : graph) (a b : string) :
  edges_go_up w -> path (flow w) a b ->
  (stage_rank a < stage_rank b)%nat.
Proof.
  intros Hup. unfold edges_go_up in Hup. rewrite Forall_forall in Hup.
  induction 1 as [e He|e b He _ IH].
  - exact (Hup e He).
  - specialize (Hup e He). lia.
Qed.

Lemma going_up_is_acyclic (w : graph) :
  edges_go_up w -> ∀ n, ¬ path (flow w) n n.
Proof.
  intros Hup n Hp. pose proof (flow_path_goes_up _ _ _ Hup Hp). lia.
Qed.

Lemma built_of (r : build_error + graph) (w : graph) :
  r = inr w -> w = built r ∧ succeeds r = true.
Proof. intros ->. split; reflexivity. Qed.

Ltac wired := unfold well_wired; by_compute.
Ltac upwards := unfold edges_go_up; by_compute.

Lemma camino_flow_wired (config : Camino_tracking_config.t) :
  well_wired (built (create_camino_tracking_flow config))
  ∧ edges_go_up (built (create_camino_tracking_flow config)).
Proof.
  destruct config as
    [model mode index fallback ang cross tr tmodel snr iters pdf].
  unfold create_camino_tracking_flow.
  cbn [Camino_tracking_config.tracking_mode
       Camino_tracking_config.inversion_index Camino_tracking_config.pdf].
  destruct (String.eqb_spec mode "Deterministic") as [->|?];
    [|destruct (String.eqb_spec mode "Probabilistic") as [->|?]];
    destruct (Z.leb_spec 10 index), (Z.ltb_spec 100 index),
      (Z.ltb_spec index 100); try (exfalso; lia);
    destruct pdf; (split; [wired|upwards]).
Qed.

Lemma dtb_flow_wired (dirlist : string) (config : DTB_tracking_config.t) :
  well_wired (built (create_dtb_tracking_flow dirlist config))
  ∧ edges_go_up (built (create_dtb_tracking_flow dirlist config)).
Proof.
  destruct config as [model flip ang step seeds].
  dtb_cases model; dtb_flips flip; (split; [wired|upwards]).
Qed.

(** X30.  Every workflow that [create_camino_tracking_flow],
    [create_fsl_tracking_flow], [create_gibbs_tracking_flow] or
    [create_dtb_tracking_flow] returns is well wired (unique stage names,
    no input port connected twice, every edge between stages of the graph,
    every stage with its node) and has no cycle. *)
Theorem built_flows_are_well_wired_and_acyclic :
  (∀ config w, create_camino_tracking_flow config = inr w ->
     well_wired w ∧ ∀ n, ¬ path (flow w) n n)
  ∧ (∀ config w, create_fsl_tracking_flow config = inr w ->
       well_wired w ∧ ∀ n, ¬ path (flow w) n n)
  ∧ (∀ config w, create_gibbs_tracking_flow config = inr w ->
       well_wired w ∧ ∀ n, ¬ path (flow w) n n)
  ∧ (∀ dirlist config w, create_dtb_tracking_flow dirlist config = inr w ->
       well_wired w ∧ ∀ n, ¬ path (flow w) n n).
Proof.
  split; [|split; [|split]].
  - intros config w Hw. apply built_of in Hw as [-> _].
    destruct (camino_flow_wired config) as [Hwired Hup].
    split; [exact Hwired|by apply going_up_is_acyclic].
  - intros config w Hw. apply built_of in Hw as [-> _].
    destruct config as [samples steps dist curv].
    unfold create_fsl_tracking_flow.
    cbn [FSL_tracking_config.number_of_samples
         FSL_tracking_config.number_of_steps
         FSL_tracking_config.distance_threshold
         FSL_tracking_config.curvature_threshold].
    split; [wired|apply going_up_is_acyclic; upwards].
  - intros config w Hw. apply built_of in Hw as [-> _].
    destruct config as [iters len width weight t0 t1 inex fiber curv].
    unfold create_gibbs_tracking_flow.
    cbn [Gibbs_tracking_config.iterations
         Gibbs_tracking_config.particle_length
         Gibbs_tracking_config.particle_width
         Gibbs_tracking_config.particle_weight
         Gibbs_tracking_config.temp_start Gibbs_tracking_config.temp_end
         Gibbs_tracking_config.inexbalance Gibbs_tracking_config.fiber_length
         Gibbs_tracking_config.curvature_threshold].
    split; [wired|apply going_up_is_acyclic; upwards].
  - intros dirlist config w Hw. apply built_of in Hw as [-> _].
    destruct (dtb_flow_wired dirlist config) as [Hwired Hup].
    split; [exact Hwired|by apply going_up_is_acyclic].
Qed.

Lemma built_flows_are_well_wired_and_acyclic_witness :
  well_wired (built (create_fsl_tracking_flow FSL_tracking_config.default))
  ∧ ¬ path (flow (built (create_dtb_tracking_flow "181_vecs.dat"
                           (DTB_tracking_config.mk "DTI" [] 60 1 32))))
           "dtb_streamline" "dtb_streamline".
Proof.
  destruct built_flows_are_well_wired_and_acyclic
    as (_ & Hfsl & _ & Hdtb).
  split.
  - apply (Hfsl FSL_tracking_config.default).
    apply succeeds_built. vm_compute. reflexivity.
  - apply (Hdtb "181_vecs.dat" (DTB_tracking_config.mk "DTI" [] 60 1 32)).
    apply succeeds_built. vm_compute. reflexivity.
Defined.

End Other_flows.
